(** * GraphBolt neighbour sampling and minibatch-to-block transform

    A shallow embedding of
      - python/dgl/graphbolt/impl/neighbor_sampler.py
          (NeighborSampler, LayerNeighborSampler, _sample_subgraphs)
      - python/dgl/graphbolt/minibatch.py
          (MiniBatch, MiniBatch.to_dgl_blocks)
    together with the properties of the multi-hop loop and of the block
    transform.

    Conventions of the embedding
      - a 1-D tensor is the list of its entries;
      - a Python dict is an insertion-ordered association list without
        repeated keys, read with [dict_get] and written with [dict_set];
      - a value whose annotation is [Union[Tensor, Dict[str, Tensor]]] is a
        tagged value, and [isinstance] is a match on the tag;
      - an exception is a value of [Exception]; code that may raise returns a
        [Result];
      - the sampling primitives of the graph are random: they read and
        advance an oracle, threaded through the run;
      - a ghost log records every call made to a sampling primitive. *)

From stdpp Require Import prelude strings.
From Stdlib Require Import ZArith Lia Ascii.

Local Open Scope Z_scope.

(** ** Python dictionaries *)

Abbreviation dict K V := (list (K * V)).

Section dict.
Context {K V : Type} `{EqDecision K}.

(** [d.get(k)] *)
Fixpoint dict_get (k : K) (d : dict K V) : option V :=
  match d with
  | [] => None
  | (k', v) :: d' => if decide (k = k') then Some v else dict_get k d'
  end.

(** [d[k] = v]: an existing key keeps its position. *)
Fixpoint dict_set (k : K) (v : V) (d : dict K V) : dict K V :=
  match d with
  | [] => [(k, v)]
  | (k', v') :: d' =>
      if decide (k = k') then (k', v) :: d' else (k', v') :: dict_set k v d'
  end.

(** [d.keys()] *)
Definition dict_keys (d : dict K V) : list K := map fst d.

(** [d.get(k, default)] *)
Definition dict_get_default (k : K) (default : V) (d : dict K V) : V :=
  match dict_get k d with Some v => v | None => default end.

(** [for k, v in items: d[k] = v] *)
Definition dict_update (d : dict K V) (items : list (K * V)) : dict K V :=
  fold_left (fun d kv => dict_set (fst kv) (snd kv) d) items d.

(** [{k: v for k, v in items}] *)
Definition dict_of_items (items : list (K * V)) : dict K V :=
  dict_update [] items.
End dict.

(** ** Exceptions and results *)

(** Only the message of an assertion is kept. *)
Inductive Exception :=
| AssertionError (msg : string)
| AttributeError
| ValueError
| TypeError
| IndexError
| RuntimeError.

Inductive Result (A : Type) :=
| Ok (a : A)
| Raise (e : Exception).
Arguments Ok {A} a.
Arguments Raise {A} e.

(** Code running against a state [St] that may raise. *)
Definition M (St A : Type) : Type := St -> Result A * St.

Definition ret {St A} (a : A) : M St A := fun st => (Ok a, st).

Definition raise {St A} (e : Exception) : M St A := fun st => (Raise e, st).

Definition bind {St A B} (m : M St A) (k : A -> M St B) : M St B :=
  fun st =>
    match m st with
    | (Ok a, st') => k a st'
    | (Raise e, st') => (Raise e, st')
    end.

Definition lift {St A} (r : Result A) : M St A := fun st => (r, st).

Definition gets {St A} (f : St -> A) : M St A := fun st => (Ok (f st), st).

Declare Scope py_scope.
Delimit Scope py_scope with py.
Notation "'let*' x ':=' m 'in' k" := (bind m (fun x => k))
  (at level 10, x name, m at level 100, k at level 200) : py_scope.
Notation "'let*' ' p ':=' m 'in' k" :=
  (bind m (fun x => match x with p => k end))
  (at level 10, p pattern, m at level 100, k at level 200) : py_scope.

Definition bindR {A B} (r : Result A) (k : A -> Result B) : Result B :=
  match r with
  | Ok a => k a
  | Raise e => Raise e
  end.

(** [[f(x) for x in xs]] where [f] may raise: stops at the first exception. *)
Fixpoint mapR {A B} (f : A -> Result B) (xs : list A) : Result (list B) :=
  match xs with
  | [] => Ok []
  | x :: xs' =>
      bindR (f x) (fun y => bindR (mapR f xs') (fun ys => Ok (y :: ys)))
  end.

(** [for x in xs: s = body(x, s)] *)
Fixpoint for_each {St A S} (xs : list A) (body : A -> S -> M St S) (s : S)
  : M St S :=
  match xs with
  | [] => ret s
  | x :: xs' => bind (body x s) (for_each xs' body)
  end.

(** [xs[i]] *)
Definition index {St A} (xs : list A) (i : nat) : M St A :=
  match xs !! i with
  | Some x => ret x
  | None => raise IndexError
  end.

(** ** Tensors, seed sets, node pairs, sampled subgraphs *)

Definition Tensor := list Z.

(** [Union[torch.Tensor, Dict[str, torch.Tensor]]] *)
Inductive TensorOrDict :=
| T (t : Tensor)
| D (d : dict string Tensor).

(** [Union[Tuple[Tensor, Tensor], Dict[str, Tuple[Tensor, Tensor]]]] *)
Inductive NodePairs :=
| Pairs (p : Tensor * Tensor)
| PairsDict (d : dict string (Tensor * Tensor)).

(** The fields of a sampled subgraph that the two files read or set; a field
    left out of a constructor call is [None]. *)
Record SampledSubgraph := SampledSubgraphImpl {
  node_pairs : NodePairs;
  original_column_node_ids : option TensorOrDict;
  original_row_node_ids : option TensorOrDict;
  original_edge_ids : option TensorOrDict
}.

(** Consecutive layers chain: the column ids of a layer are the row ids of the
    next one in the list. *)
Definition chained (layers : list SampledSubgraph) : Prop :=
  forall (i : nat) a b,
    layers !! i = Some a -> layers !! S i = Some b ->
    original_column_node_ids a = original_row_node_ids b.

(** [torch.LongTensor(l)]: entries are 64-bit signed. *)
Definition int64 (n : Z) : bool := (- 2 ^ 63 <=? n) && (n <? 2 ^ 63).

Definition LongTensor (l : list Z) : Result Tensor :=
  if forallb int64 l then Ok l
  else Raise RuntimeError.

(** ** The sampling graph and the samplers *)

Section Sampling.
(** The source of randomness of the sampling primitives. *)
Variable Oracle : Type.
(** The datapipe a sampler is chained to; only stored. *)
Variable DataPipe : Type.

(** [method(seeds, fanout, replace, prob_name)] of a graph. *)
Definition Primitive : Type :=
  TensorOrDict -> Tensor -> bool -> option string ->
  Oracle -> Result SampledSubgraph * Oracle.

Record GraphMetadata := {
  node_type_to_id : dict string Z;
  edge_type_to_id : dict string Z
}.

(** Modelled from the spec: the graph class is not in src/; a graph handle
    exposes its type-name mappings and the two sampling primitives. *)
Record CSCSamplingGraph := {
  metadata : GraphMetadata;
  sample_neighbors : Primitive;
  sample_layer_neighbors : Primitive
}.

Inductive MethodName := sample_neighbors_name | sample_layer_neighbors_name.

(** A bound method [graph.name]. *)
Record BoundMethod := {
  bm_self : CSCSamplingGraph;
  bm_func : MethodName
}.

Definition method_body (m : BoundMethod) : Primitive :=
  match bm_func m with
  | sample_neighbors_name => sample_neighbors (bm_self m)
  | sample_layer_neighbors_name => sample_layer_neighbors (bm_self m)
  end.

(** Ghost log entry: one call of a sampling primitive. *)
Record SamplerCall := {
  call_method : BoundMethod;
  call_seeds : TensorOrDict;
  call_fanout : Tensor;
  call_replace : bool;
  call_prob_name : option string;
  call_result : Result SampledSubgraph
}.

Record RunState := {
  oracle : Oracle;
  calls : list SamplerCall
}.

(** Calling a bound method: the primitive runs on the oracle and the call is
    logged, also when it raises. *)
Definition invoke (m : BoundMethod) (seeds : TensorOrDict) (fanout : Tensor)
    (replace : bool) (prob_name : option string)
  : M RunState SampledSubgraph :=
  fun st =>
    let '(r, o') := method_body m seeds fanout replace prob_name (oracle st) in
    (r, {| oracle := o';
           calls := calls st ++
             [{| call_method := m; call_seeds := seeds;
                 call_fanout := fanout; call_replace := replace;
                 call_prob_name := prob_name; call_result := r |}] |}).

(** [unique_and_compact_node_pairs(node_pairs, unique_dst_nodes)] lives in
    graphbolt/utils, which is not in src/: it is a parameter. It is
    deterministic and may raise. *)
Variable unique_and_compact_node_pairs :
  NodePairs -> TensorOrDict -> Result (TensorOrDict * NodePairs).

(** The attributes of a [NeighborSampler]; [LayerNeighborSampler] is a
    subclass with the same attributes. *)
Record NeighborSampler := {
  datapipe : DataPipe;
  graph : CSCSamplingGraph;
  fanouts : list Tensor;
  replace : bool;
  prob_name : option string;
  sampler : BoundMethod
}.

(** An element of the [fanouts] argument: an int or a tensor. *)
Inductive FanoutArg :=
| FanoutInt (n : Z)
| FanoutTensor (t : Tensor).

(** The conversion loop of [__init__]. *)
Definition convert_fanout (fanout : FanoutArg) : Result Tensor :=
  match fanout with
  | FanoutTensor t => Ok t
  | FanoutInt n => LongTensor [n]
  end.

(** [NeighborSampler.__init__] *)
Definition NeighborSampler_init (datapipe : DataPipe)
    (graph : CSCSamplingGraph) (fanouts : list FanoutArg) (replace : bool)
    (prob_name : option string) : Result NeighborSampler :=
  bindR (mapR convert_fanout fanouts) (fun fanouts' =>
  Ok {| datapipe := datapipe;
        graph := graph;
        fanouts := fanouts';
        replace := replace;
        prob_name := prob_name;
        sampler := {| bm_self := graph; bm_func := sample_neighbors_name |}
     |}).

(** [self.sampler = m] *)
Definition set_sampler (self : NeighborSampler) (m : BoundMethod)
  : NeighborSampler :=
  {| datapipe := self.(datapipe);
     graph := self.(graph);
     fanouts := self.(fanouts);
     replace := self.(replace);
     prob_name := self.(prob_name);
     sampler := m |}.

(** [LayerNeighborSampler.__init__] *)
Definition LayerNeighborSampler_init (datapipe : DataPipe)
    (graph : CSCSamplingGraph) (fanouts : list FanoutArg) (replace : bool)
    (prob_name : option string) : Result NeighborSampler :=
  bindR (NeighborSampler_init datapipe graph fanouts replace prob_name)
    (fun self =>
  Ok (set_sampler self
        {| bm_self := graph; bm_func := sample_layer_neighbors_name |})).

(** The seed enrichment at the head of [_sample_subgraphs]. *)
Definition enrich_seeds (self : NeighborSampler) (seeds : TensorOrDict)
  : TensorOrDict :=
  match seeds with
  | D d =>
      let ntypes := dict_keys (node_type_to_id (metadata self.(graph))) in
      D (dict_of_items
           (map (fun ntype => (ntype, dict_get_default ntype [] d)) ntypes))
  | T _ => seeds
  end.

(** One iteration of the loop over [range(num_layers)]. *)
Definition sample_hop (self : NeighborSampler) (hop : nat)
    (vars : TensorOrDict * list SampledSubgraph)
  : M RunState (TensorOrDict * list SampledSubgraph) :=
  (let '(seeds, subgraphs) := vars in
   let* fanout := index self.(fanouts) hop in
   let* subgraph := invoke self.(sampler) seeds fanout
                      self.(replace) self.(prob_name) in
   let original_column_node_ids := seeds in
   let* '(seeds, compacted_node_pairs) :=
      lift (unique_and_compact_node_pairs (node_pairs subgraph) seeds) in
   let subgraph :=
     SampledSubgraphImpl compacted_node_pairs
       (Some original_column_node_ids) (Some seeds) None in
   (* subgraphs.insert(0, subgraph) *)
   let subgraphs := subgraph :: subgraphs in
   ret (seeds, subgraphs))%py.

(** [NeighborSampler._sample_subgraphs] *)
Definition _sample_subgraphs (self : NeighborSampler) (seeds : TensorOrDict)
  : M RunState (TensorOrDict * list SampledSubgraph) :=
  let subgraphs := [] in
  let num_layers := length self.(fanouts) in
  let seeds := enrich_seeds self seeds in
  for_each (seq 0 num_layers) (sample_hop self) (seeds, subgraphs).

(** *** The run of the loop, hop by hop *)

(** The call a hop makes from the seed set [seeds], with result [r]. *)
Definition call_of (self : NeighborSampler) (seeds : TensorOrDict)
    (fanout : Tensor) (r : Result SampledSubgraph) : SamplerCall :=
  {| call_method := self.(sampler); call_seeds := seeds;
     call_fanout := fanout; call_replace := self.(replace);
     call_prob_name := self.(prob_name); call_result := r |}.

(** What one successful hop did: the call it made to the primitive, and the
    node set and node pairs the compaction gave back. *)
Record Step := {
  step_call : SamplerCall;
  step_seeds : TensorOrDict;
  step_pairs : NodePairs
}.

(** The layer built by a hop. *)
Definition step_layer (s : Step) : SampledSubgraph :=
  SampledSubgraphImpl (step_pairs s) (Some (call_seeds (step_call s)))
    (Some (step_seeds s)) None.

(** [hops_run self hops seeds o steps seeds' o']: from the seed set [seeds]
    and the oracle [o], the hops [hops] all succeed, doing [steps] in sampling
    order and ending with the seed set [seeds'] and the oracle [o']. *)
Inductive hops_run (self : NeighborSampler)
  : list nat -> TensorOrDict -> Oracle -> list Step -> TensorOrDict -> Oracle
    -> Prop :=
| hops_run_nil seeds o : hops_run self [] seeds o [] seeds o
| hops_run_cons hop hops seeds o fanout sg o1 seeds1 pairs steps seedsN oN :
    self.(fanouts) !! hop = Some fanout ->
    method_body self.(sampler) seeds fanout self.(replace) self.(prob_name) o
      = (Ok sg, o1) ->
    unique_and_compact_node_pairs (node_pairs sg) seeds = Ok (seeds1, pairs) ->
    hops_run self hops seeds1 o1 steps seedsN oN ->
    hops_run self (hop :: hops) seeds o
      ({| step_call := call_of self seeds fanout (Ok sg);
          step_seeds := seeds1; step_pairs := pairs |} :: steps)
      seedsN oN.

(** *** The loop as the spec words it *)

(** The multi-hop loop of the spec, over an explicit sampling primitive: the
    seed set is normalised once, then each fanout in turn is sampled with the
    primitive, the edges are compacted against the current seeds, the layer
    is put at the front of the list, and the compacted node set becomes the
    next seed set. [replace] and [prob_name] go to the primitive as given. *)
Fixpoint spec_hops (primitive : Primitive) (replace : bool)
    (prob_name : option string) (fanouts : list Tensor) (seeds : TensorOrDict)
    (layers : list SampledSubgraph) (o : Oracle)
  : Result (TensorOrDict * list SampledSubgraph) * Oracle :=
  match fanouts with
  | [] => (Ok (seeds, layers), o)
  | fanout :: fanouts' =>
      match primitive seeds fanout replace prob_name o with
      | (Ok batch, o') =>
          match unique_and_compact_node_pairs (node_pairs batch) seeds with
          | Ok (seeds', pairs) =>
              spec_hops primitive replace prob_name fanouts' seeds'
                (SampledSubgraphImpl pairs (Some seeds) (Some seeds') None
                   :: layers) o'
          | Raise e => (Raise e, o')
          end
      | (Raise e, o') => (Raise e, o')
      end
  end.

(** The normalisation of the spec: in heterogeneous mode every declared
    node type gets an entry, the empty sequence if it had none. *)
Definition spec_normalise (g : CSCSamplingGraph) (seeds : TensorOrDict)
  : TensorOrDict :=
  match seeds with
  | T t => T t
  | D d =>
      D (dict_of_items
           (map (fun ntype =>
                   (ntype, match dict_get ntype d with
                           | Some ids => ids
                           | None => []
                           end))
              (map fst (node_type_to_id (metadata g)))))
  end.

(** Normalisation, then the hops, starting from no layer. *)
Definition spec_sample (primitive : Primitive) (g : CSCSamplingGraph)
    (fanouts : list Tensor) (replace : bool) (prob_name : option string)
    (seeds : TensorOrDict) (o : Oracle)
  : Result (TensorOrDict * list SampledSubgraph) * Oracle :=
  spec_hops primitive replace prob_name fanouts (spec_normalise g seeds) [] o.

End Sampling.

Arguments metadata {Oracle} c.
Arguments sample_neighbors {Oracle} c.
Arguments sample_layer_neighbors {Oracle} c.
Arguments bm_self {Oracle} b.
Arguments bm_func {Oracle} b.
Arguments Build_BoundMethod {Oracle}.
Arguments method_body {Oracle} m.
Arguments call_method {Oracle} s.
Arguments call_seeds {Oracle} s.
Arguments call_fanout {Oracle} s.
Arguments call_replace {Oracle} s.
Arguments call_prob_name {Oracle} s.
Arguments call_result {Oracle} s.
Arguments oracle {Oracle} r.
Arguments calls {Oracle} r.
Arguments Build_RunState {Oracle}.
Arguments invoke {Oracle} m seeds fanout replace prob_name.
Arguments datapipe {Oracle DataPipe} n.
Arguments graph {Oracle DataPipe} n.
Arguments fanouts {Oracle DataPipe} n.
Arguments replace {Oracle DataPipe} n.
Arguments prob_name {Oracle DataPipe} n.
Arguments sampler {Oracle DataPipe} n.
Arguments NeighborSampler_init {Oracle DataPipe}.
Arguments LayerNeighborSampler_init {Oracle DataPipe}.
Arguments set_sampler {Oracle DataPipe}.
Arguments enrich_seeds {Oracle DataPipe}.
Arguments sample_hop {Oracle DataPipe}.
Arguments _sample_subgraphs {Oracle DataPipe}.
Arguments call_of {Oracle DataPipe}.
Arguments step_call {Oracle} s.
Arguments step_seeds {Oracle} s.
Arguments step_pairs {Oracle} s.
Arguments step_layer {Oracle} s.
Arguments hops_run {Oracle DataPipe}.
Arguments spec_hops {Oracle}.
Arguments spec_normalise {Oracle}.
Arguments spec_sample {Oracle}.

(** ** MiniBatch and the transform to DGL blocks *)

(** A key of a feature dict: a feature name, or a tuple (type, name). *)
Inductive FeatureKey :=
| Name (feature_name : string)
| Typed (type_name feature_name : string).

#[export] Instance FeatureKey_eq_dec : EqDecision FeatureKey.
Proof. solve_decision. Defined.

#[export] Instance TensorOrDict_eq_dec : EqDecision TensorOrDict.
Proof. solve_decision. Defined.

Module MiniBatch.
Record t := {
  seed_nodes : option TensorOrDict;
  node_pairs : option NodePairs;
  labels : option TensorOrDict;
  negative_srcs : option TensorOrDict;
  negative_dsts : option TensorOrDict;
  sampled_subgraphs : option (list SampledSubgraph);
  input_nodes : option TensorOrDict;
  node_features : option (dict FeatureKey Tensor);
  edge_features : option (list (dict FeatureKey Tensor));
  compacted_node_pairs : option NodePairs;
  compacted_negative_srcs : option TensorOrDict;
  compacted_negative_dsts : option TensorOrDict
}.
End MiniBatch.

(** A canonical edge type, a tuple of three strings. *)
Definition EType : Type := string * string * string.

(** The first argument of [dgl.create_block]. *)
Inductive GraphData :=
| EdgeList (p : NodePairs)
| TypedEdgeLists (d : dict EType (Tensor * Tensor)).

(** The node-count arguments of [dgl.create_block]. *)
Inductive NumNodes :=
| NumInt (n : Z)
| NumDict (d : dict string Z).

(** Modelled from the spec: [dgl.create_block] and [DGLBlock] are not in
    src/. A block is the three arguments it was created from, plus the
    feature frames of its source nodes, destination nodes and edges, which
    store what is assigned to them. [srcnodes[t].data[n]] is the entry
    [(t, n)] of [srcnodes], and [edges[e].data[n]] the entry [(e, n)] of
    [edges]. DGL's validation of the arguments is not modelled. *)
Record DGLBlock := {
  data_dict : GraphData;
  num_src_nodes : NumNodes;
  num_dst_nodes : NumNodes;
  srcdata : dict FeatureKey TensorOrDict;
  dstdata : dict FeatureKey TensorOrDict;
  edata : dict FeatureKey TensorOrDict;
  srcnodes : dict (string * string) Tensor;
  dstnodes : dict (string * string) Tensor;
  edges : dict (EType * string) Tensor
}.

Definition create_block (data_dict : GraphData)
    (num_src_nodes num_dst_nodes : NumNodes) : DGLBlock :=
  {| data_dict := data_dict;
     num_src_nodes := num_src_nodes;
     num_dst_nodes := num_dst_nodes;
     srcdata := []; dstdata := []; edata := [];
     srcnodes := []; dstnodes := []; edges := [] |}.

(** [block.srcdata[k] = v] *)
Definition set_srcdata (k : FeatureKey) (v : TensorOrDict) (b : DGLBlock)
  : DGLBlock :=
  {| data_dict := b.(data_dict);
     num_src_nodes := b.(num_src_nodes);
     num_dst_nodes := b.(num_dst_nodes);
     srcdata := dict_set k v b.(srcdata);
     dstdata := b.(dstdata); edata := b.(edata);
     srcnodes := b.(srcnodes); dstnodes := b.(dstnodes);
     edges := b.(edges) |}.

(** [block.edata[k] = v] *)
Definition set_edata (k : FeatureKey) (v : TensorOrDict) (b : DGLBlock)
  : DGLBlock :=
  {| data_dict := b.(data_dict);
     num_src_nodes := b.(num_src_nodes);
     num_dst_nodes := b.(num_dst_nodes);
     srcdata := b.(srcdata);
     dstdata := b.(dstdata); edata := dict_set k v b.(edata);
     srcnodes := b.(srcnodes); dstnodes := b.(dstnodes);
     edges := b.(edges) |}.

(** [block.srcnodes[node_type].data[k] = v] *)
Definition set_srcnodes (node_type k : string) (v : Tensor) (b : DGLBlock)
  : DGLBlock :=
  {| data_dict := b.(data_dict);
     num_src_nodes := b.(num_src_nodes);
     num_dst_nodes := b.(num_dst_nodes);
     srcdata := b.(srcdata);
     dstdata := b.(dstdata); edata := b.(edata);
     srcnodes := dict_set (node_type, k) v b.(srcnodes);
     dstnodes := b.(dstnodes);
     edges := b.(edges) |}.

(** [block.edges[etype].data[k] = v] *)
Definition set_edges (etype : EType) (k : string) (v : Tensor) (b : DGLBlock)
  : DGLBlock :=
  {| data_dict := b.(data_dict);
     num_src_nodes := b.(num_src_nodes);
     num_dst_nodes := b.(num_dst_nodes);
     srcdata := b.(srcdata);
     dstdata := b.(dstdata); edata := b.(edata);
     srcnodes := b.(srcnodes); dstnodes := b.(dstnodes);
     edges := dict_set (etype, k) v b.(edges) |}.

(** [for x in xs: s = f(s, x)] where [f] may raise. *)
Fixpoint foldR {A S} (f : S -> A -> Result S) (xs : list A) (s : S)
  : Result S :=
  match xs with
  | [] => Ok s
  | x :: xs' => bindR (f s x) (foldR f xs')
  end.

(** [blocks[0]] is updated in place. *)
Definition at_block0 (f : DGLBlock -> Result DGLBlock) (blocks : list DGLBlock)
  : Result (list DGLBlock) :=
  match blocks with
  | [] => Raise IndexError
  | b :: bs => bindR (f b) (fun b' => Ok (b' :: bs))
  end.

(** [for block, y in zip(blocks, ys): f(block, y)], each block updated in
    place; blocks beyond the shorter list are left alone. *)
Fixpoint zip_update {B} (f : DGLBlock -> B -> Result DGLBlock)
    (blocks : list DGLBlock) (ys : list B) : Result (list DGLBlock) :=
  match blocks, ys with
  | b :: bs, y :: ys' =>
      bindR (f b y) (fun b' =>
      bindR (zip_update f bs ys') (fun bs' => Ok (b' :: bs')))
  | _, _ => Ok blocks
  end.

(** [nodes.size(0)] *)
Definition size0 (nodes : Tensor) : Z := Z.of_nat (length nodes).

(** Truth value of a dict or list: non-empty. *)
Definition truthy {A} (l : list A) : bool :=
  match l with [] => false | _ :: _ => true end.

(** Unpacking a key into [(a, b)]: a tuple gives its components, a string of
    two characters gives the two characters, another string raises. *)
Definition unpack2 (k : FeatureKey) : Result (string * string) :=
  match k with
  | Typed a b => Ok (a, b)
  | Name (String a (String b EmptyString)) =>
      Ok (String a EmptyString, String b EmptyString)
  | Name _ => Raise ValueError
  end.

Section ToDglBlocks.
(** [etype_str_to_tuple] lives in graphbolt/base, which is not in src/: it
    is a parameter, and may raise. *)
Variable etype_str_to_tuple : string -> Result EType.
(** The frame keys [dgl.NID] and [dgl.EID]. *)
Variables NID EID : string.
(** The truth value torch gives a tensor; it may raise. *)
Variable Tensor_bool : Tensor -> Result bool.

Definition isinstance_Dict (p : NodePairs) : bool :=
  match p with PairsDict _ => true | Pairs _ => false end.

(** [assert x is not None, msg] *)
Definition assert_not_None {A} (x : option A) (msg : string) : Result A :=
  match x with
  | Some a => Ok a
  | None => Raise (AssertionError msg)
  end.

(** [x.items()] *)
Definition items (x : TensorOrDict) : Result (dict string Tensor) :=
  match x with
  | D d => Ok d
  | T _ => Raise AttributeError
  end.

(** [x.size(0)] *)
Definition size (x : TensorOrDict) : Result Z :=
  match x with
  | T t => Ok (size0 t)
  | D _ => Raise AttributeError
  end.

(** [{ntype: nodes.size(0) for ntype, nodes in ids.items()}] *)
Definition num_nodes_dict (ids : TensorOrDict) : Result NumNodes :=
  bindR (items ids) (fun its =>
  Ok (NumDict
        (dict_of_items
           (map (fun '(ntype, nodes) => (ntype, size0 nodes)) its)))).

(** [{etype_str_to_tuple(etype): v for etype, v in node_pairs.items()}] *)
Definition typed_node_pairs (p : NodePairs)
  : Result (dict EType (Tensor * Tensor)) :=
  match p with
  | PairsDict d =>
      bindR (mapR (fun '(etype, v) =>
               bindR (etype_str_to_tuple etype) (fun e => Ok (e, v))) d)
        (fun kvs => Ok (dict_of_items kvs))
  | Pairs _ => Raise AttributeError
  end.

(** The frame entry a node feature goes to in the heterogeneous branch. *)
Definition typed_node_feature (item : FeatureKey * Tensor)
  : Result (string * string * Tensor) :=
  let '(key, feature) := item in
  bindR (unpack2 key) (fun '(node_type, feature_name) =>
  Ok ((node_type, feature_name), feature)).

(** The frame entry an edge feature goes to in the heterogeneous branch. *)
Definition typed_edge_feature (item : FeatureKey * Tensor)
  : Result (EType * string * Tensor) :=
  let '(key, feature) := item in
  bindR (unpack2 key) (fun '(edge_type, feature_name) =>
  bindR (etype_str_to_tuple edge_type) (fun etype =>
  Ok ((etype, feature_name), feature))).

(** The frame entry the reverse edge ids of an edge type go to. *)
Definition typed_edge_ids (item : string * Tensor)
  : Result (EType * string * Tensor) :=
  let '(edge_type, reverse_ids) := item in
  bindR (etype_str_to_tuple edge_type) (fun etype =>
  Ok ((etype, EID), reverse_ids)).

(** The body of the loop [for subgraph in self.sampled_subgraphs]; the
    block it returns is the one appended to [blocks]. *)
Definition build_block (is_heterogeneous : bool) (subgraph : SampledSubgraph)
  : Result DGLBlock :=
  bindR (assert_not_None subgraph.(original_row_node_ids)
           "Missing `original_row_node_ids` in sampled subgraph.")
    (fun original_row_node_ids =>
  bindR (assert_not_None subgraph.(original_column_node_ids)
           "Missing `original_column_node_ids` in sampled subgraph.")
    (fun original_column_node_ids =>
  if is_heterogeneous then
    bindR (typed_node_pairs subgraph.(node_pairs)) (fun node_pairs =>
    bindR (num_nodes_dict original_row_node_ids) (fun num_src_nodes =>
    bindR (num_nodes_dict original_column_node_ids) (fun num_dst_nodes =>
    Ok (create_block (TypedEdgeLists node_pairs)
          num_src_nodes num_dst_nodes))))
  else
    let node_pairs := subgraph.(node_pairs) in
    bindR (size original_row_node_ids) (fun num_src_nodes =>
    bindR (size original_column_node_ids) (fun num_dst_nodes =>
    Ok (create_block (EdgeList node_pairs)
          (NumInt num_src_nodes) (NumInt num_dst_nodes)))))).

(** The [is_heterogeneous] branch after the blocks are built. *)
Definition assign_heterogeneous
    (node_features : option (dict FeatureKey Tensor))
    (edge_features : option (list (dict FeatureKey Tensor)))
    (sampled_subgraphs : list SampledSubgraph) (blocks : list DGLBlock)
  : Result (list DGLBlock) :=
  (* Assign node features to the outermost layer's source nodes. *)
  bindR
    (match node_features with
     | Some ((_ :: _) as node_features) =>
         foldR (fun blocks '(key, feature) =>
                  bindR (unpack2 key) (fun '(node_type, feature_name) =>
                  at_block0 (fun b =>
                    Ok (set_srcnodes node_type feature_name feature b))
                    blocks))
           node_features blocks
     | _ => Ok blocks
     end) (fun blocks =>
  (* Assign edge features. *)
  bindR
    (match edge_features with
     | Some ((_ :: _) as edge_features) =>
         zip_update (fun block edge_feature =>
           foldR (fun b '(key, feature) =>
                    bindR (unpack2 key) (fun '(edge_type, feature_name) =>
                    bindR (etype_str_to_tuple edge_type) (fun etype =>
                    Ok (set_edges etype feature_name feature b))))
             edge_feature block)
           blocks edge_features
     | _ => Ok blocks
     end) (fun blocks =>
  (* Assign reverse node ids to the outermost layer's source nodes. *)
  bindR
    (match sampled_subgraphs with
     | [] => Raise IndexError
     | first :: _ =>
         match first.(original_row_node_ids) with
         | None => Raise AttributeError
         | Some ids =>
             bindR (items ids) (fun its =>
             foldR (fun blocks '(node_type, reverse_ids) =>
                      at_block0 (fun b =>
                        Ok (set_srcnodes node_type NID reverse_ids b))
                        blocks)
               its blocks)
         end
     end) (fun blocks =>
  (* Assign reverse edges ids. *)
  zip_update (fun block subgraph =>
    bindR
      (match subgraph.(original_edge_ids) with
       | None => Ok false
       | Some (D d) => Ok (truthy d)
       | Some (T t) => Tensor_bool t
       end) (fun nonempty =>
    if nonempty : bool then
      match subgraph.(original_edge_ids) with
      | None => Raise AttributeError
      | Some ids =>
          bindR (items ids) (fun its =>
          foldR (fun b '(edge_type, reverse_ids) =>
                   bindR (etype_str_to_tuple edge_type) (fun etype =>
                   Ok (set_edges etype EID reverse_ids b)))
            its block)
      end
    else Ok block))
    blocks sampled_subgraphs))).

(** The [else] branch after the blocks are built. *)
Definition assign_homogeneous
    (node_features : option (dict FeatureKey Tensor))
    (edge_features : option (list (dict FeatureKey Tensor)))
    (sampled_subgraphs : list SampledSubgraph) (blocks : list DGLBlock)
  : Result (list DGLBlock) :=
  (* Assign node features to the outermost layer's source nodes. *)
  bindR
    (match node_features with
     | Some ((_ :: _) as node_features) =>
         foldR (fun blocks '(feature_name, feature) =>
                  at_block0 (fun b =>
                    Ok (set_srcdata feature_name (T feature) b)) blocks)
           node_features blocks
     | _ => Ok blocks
     end) (fun blocks =>
  (* Assign edge features. *)
  bindR
    (match edge_features with
     | Some ((_ :: _) as edge_features) =>
         zip_update (fun block edge_feature =>
           foldR (fun b '(feature_name, feature) =>
                    Ok (set_edata feature_name (T feature) b))
             edge_feature block)
           blocks edge_features
     | _ => Ok blocks
     end) (fun blocks =>
  bindR
    (match sampled_subgraphs with
     | [] => Raise IndexError
     | first :: _ =>
         match first.(original_row_node_ids) with
         | None => Raise TypeError
         | Some ids =>
             at_block0 (fun b => Ok (set_srcdata (Name NID) ids b)) blocks
         end
     end) (fun blocks =>
  (* Assign reverse edges ids. *)
  zip_update (fun block subgraph =>
    match subgraph.(original_edge_ids) with
    | Some ids => Ok (set_edata (Name EID) ids block)
    | None => Ok block
    end)
    blocks sampled_subgraphs))).

(** The items of a feature dict as frame entries. *)
Definition tensor_items (d : dict FeatureKey Tensor)
  : dict FeatureKey TensorOrDict :=
  map (fun kv => (fst kv, T (snd kv))) d.

(** The edge ids of the layer at index [i], if any. *)
Definition edge_ids_at (layers : list SampledSubgraph) (i : nat)
  : option TensorOrDict :=
  match layers !! i with
  | Some layer => layer.(original_edge_ids)
  | None => None
  end.

(** The edge features zipped with the block at index [i], if any. *)
Definition edge_features_at
    (edge_features : option (list (dict FeatureKey Tensor))) (i : nat)
  : dict FeatureKey Tensor :=
  match edge_features with
  | Some l => match l !! i with Some d => d | None => [] end
  | None => []
  end.

(** The node features, none when the field is not set. *)
Definition node_features_of
    (node_features : option (dict FeatureKey Tensor))
  : dict FeatureKey Tensor :=
  match node_features with
  | Some d => d
  | None => []
  end.

(** The per-type edge ids the heterogeneous branch goes through: those of
    a non-empty dict. *)
Definition edge_id_items (edge_ids : option TensorOrDict)
  : dict string Tensor :=
  match edge_ids with
  | Some (D d) => d
  | _ => []
  end.

(** The frame entries the per-type node ids go to, under the key [NID]. *)
Definition node_id_items (NID : string) (ids : dict string Tensor)
  : dict (string * string) Tensor :=
  map (fun kv => ((fst kv, NID), snd kv)) ids.

(** The mode [to_dgl_blocks] picks for a layer list: that of its first
    layer. *)
Definition is_heterogeneous_of (layers : list SampledSubgraph) : bool :=
  match layers with
  | first :: _ => isinstance_Dict first.(node_pairs)
  | [] => false
  end.

(** The message of the assertion a layer with a missing id field fails. *)
Definition missing_message (layer : SampledSubgraph) : string :=
  match layer.(original_row_node_ids) with
  | None => "Missing `original_row_node_ids` in sampled subgraph."
  | Some _ => "Missing `original_column_node_ids` in sampled subgraph."
  end.

(** [MiniBatch.to_dgl_blocks], run against [self]. *)
Definition to_dgl_blocks : M MiniBatch.t (option (list DGLBlock)) :=
  (let* sampled_subgraphs := gets MiniBatch.sampled_subgraphs in
   match sampled_subgraphs with
   | None | Some [] => ret None
   | Some ((first :: _) as sampled_subgraphs) =>
       let is_heterogeneous := isinstance_Dict first.(node_pairs) in
       let* blocks :=
         lift (mapR (build_block is_heterogeneous) sampled_subgraphs) in
       let* node_features := gets MiniBatch.node_features in
       let* edge_features := gets MiniBatch.edge_features in
       let* blocks :=
         lift (if is_heterogeneous
               then assign_heterogeneous node_features edge_features
                      sampled_subgraphs blocks
               else assign_homogeneous node_features edge_features
                      sampled_subgraphs blocks) in
       ret (Some blocks)
   end)%py.

End ToDglBlocks.

(** ** Assembling the minibatch *)

(** Modelled from the spec: the caller of [_sample_subgraphs]
    (SubgraphSampler, not in src/) stores the final compacted node set as the
    minibatch's [input_nodes] and the layer list as its [sampled_subgraphs];
    the other fields are kept. *)
Definition sample_minibatch {Oracle DataPipe : Type}
    (unique_and_compact_node_pairs :
       NodePairs -> TensorOrDict -> Result (TensorOrDict * NodePairs))
    (self : NeighborSampler Oracle DataPipe) (minibatch : MiniBatch.t)
    (seeds : TensorOrDict) : M (RunState Oracle) MiniBatch.t :=
  (let* '(input_nodes, sampled_subgraphs) :=
     _sample_subgraphs unique_and_compact_node_pairs self seeds in
   ret {| MiniBatch.seed_nodes := MiniBatch.seed_nodes minibatch;
          MiniBatch.node_pairs := MiniBatch.node_pairs minibatch;
          MiniBatch.labels := MiniBatch.labels minibatch;
          MiniBatch.negative_srcs := MiniBatch.negative_srcs minibatch;
          MiniBatch.negative_dsts := MiniBatch.negative_dsts minibatch;
          MiniBatch.sampled_subgraphs := Some sampled_subgraphs;
          MiniBatch.input_nodes := Some input_nodes;
          MiniBatch.node_features := MiniBatch.node_features minibatch;
          MiniBatch.edge_features := MiniBatch.edge_features minibatch;
          MiniBatch.compacted_node_pairs :=
            MiniBatch.compacted_node_pairs minibatch;
          MiniBatch.compacted_negative_srcs :=
            MiniBatch.compacted_negative_srcs minibatch;
          MiniBatch.compacted_negative_dsts :=
            MiniBatch.compacted_negative_dsts minibatch |})%py.

(** The outermost layer, whose row ids are the minibatch's [input_nodes], is
    the last of the layer list. *)
Definition outermost_layer_last (mb : MiniBatch.t) : Prop :=
  forall layers layer,
    MiniBatch.sampled_subgraphs mb = Some layers ->
    last layers = Some layer ->
    layer.(original_row_node_ids) = MiniBatch.input_nodes mb.

(** ** The text of a minibatch *)

(** The newline character and [" " * n], empty when [n] is not positive. *)
Definition newline : ascii := "010"%char.

Fixpoint blanks (n : nat) : string :=
  match n with
  | O => EmptyString
  | S n' => String " "%char (blanks n')
  end.

Definition spaces (n : Z) : string := blanks (Z.to_nat n).

(** [s.split(sep)] for a separator of one character. *)
Fixpoint str_split (sep : ascii) (s : string) : list string :=
  match s with
  | EmptyString => [EmptyString]
  | String c s' =>
      if decide (c = sep) then EmptyString :: str_split sep s'
      else match str_split sep s' with
           | part :: parts => String c part :: parts
           | [] => [String c EmptyString]
           end
  end.

(** [s.split(sep)[0]]: what comes before the first occurrence of [sep]. *)
Fixpoint str_before (sep : string) (s : string) : string :=
  if String.prefix sep s then EmptyString
  else match s with
       | EmptyString => EmptyString
       | String c s' => String c (str_before sep s')
       end.

(** [s[:-n]] for a positive [n]. *)
Definition drop_last (n : nat) (s : string) : string :=
  String.substring 0 (String.length s - n) s.

(** [c in s] *)
Fixpoint has_char (c : ascii) (s : string) : bool :=
  match s with
  | EmptyString => false
  | String c' s' => if decide (c' = c) then true else has_char c s'
  end.

(** [_add_indent], the local function of [_minibatch_str]; [split] gives at
    least one part. *)
Definition _add_indent (_str : string) (indent : Z) : string :=
  match str_split newline _str with
  | [] => EmptyString
  | line0 :: lines =>
      String.concat (String newline EmptyString)
        (line0 :: map (fun line => String.append (spaces (indent + 10)) line)
                    lines)
  end.

(** The value of an attribute of a minibatch. *)
Inductive AttrValue :=
| VIds (x : option TensorOrDict)
| VPairs (x : option NodePairs)
| VFeatures (x : option (dict FeatureKey Tensor))
| VSubgraphs (x : option (list SampledSubgraph))
| VFeatureDicts (x : option (list (dict FeatureKey Tensor))).

(** [_get_attributes(minibatch)] with the value of each attribute: the
    names [dir] lists, in alphabetical order, that are neither dunder names
    nor callable, which leaves the fields of the dataclass. *)
Definition minibatch_attributes (mb : MiniBatch.t)
  : list (string * AttrValue) :=
  [ ("compacted_negative_dsts", VIds (MiniBatch.compacted_negative_dsts mb));
    ("compacted_negative_srcs", VIds (MiniBatch.compacted_negative_srcs mb));
    ("compacted_node_pairs", VPairs (MiniBatch.compacted_node_pairs mb));
    ("edge_features", VFeatureDicts (MiniBatch.edge_features mb));
    ("input_nodes", VIds (MiniBatch.input_nodes mb));
    ("labels", VIds (MiniBatch.labels mb));
    ("negative_dsts", VIds (MiniBatch.negative_dsts mb));
    ("negative_srcs", VIds (MiniBatch.negative_srcs mb));
    ("node_features", VFeatures (MiniBatch.node_features mb));
    ("node_pairs", VPairs (MiniBatch.node_pairs mb));
    ("sampled_subgraphs", VSubgraphs (MiniBatch.sampled_subgraphs mb));
    ("seed_nodes", VIds (MiniBatch.seed_nodes mb)) ].

Section MiniBatchStr.
(** [str] of a tensor or dict of tensors, of node pairs and of a feature
    dict: torch's and Python's own, parameters here. *)
Variable str_ids : TensorOrDict -> string.
Variable str_pairs : NodePairs -> string.
Variable str_features : dict FeatureKey Tensor -> string.

(** [str(x)] of an optional value: [None] prints as its name. *)
Definition str_option {A} (str : A -> string) (x : option A) : string :=
  match x with
  | Some a => str a
  | None => "None"
  end.

(** [_get_attributes(sampledsubgraph)] with [str] of each attribute.
    Modelled from the spec: the class of a sampled subgraph is not in src/;
    its attributes are the four fields of a subgraph layer. *)
Definition subgraph_attributes (sg : SampledSubgraph)
  : list (string * string) :=
  [ ("node_pairs", str_pairs sg.(node_pairs));
    ("original_column_node_ids",
     str_option str_ids sg.(original_column_node_ids));
    ("original_edge_ids", str_option str_ids sg.(original_edge_ids));
    ("original_row_node_ids",
     str_option str_ids sg.(original_row_node_ids)) ].

(** The text of one sampled subgraph in the list. *)
Definition sampledsubgraph_text (sg : SampledSubgraph) : string :=
  let sampledsubgraph_str :=
    fold_left (fun acc '(ss_name, ss_val) =>
                 String.append acc
                   (String.append ss_name
                   (String.append "="
                   (String.append
                      (_add_indent ss_val
                         (Z.of_nat (String.length ss_name) + 1))
                   (String.append ","
                   (String newline (spaces 20)))))))
      (subgraph_attributes sg) "SampledSubgraphImpl(" in
  String.append (drop_last 21 sampledsubgraph_str) ")".

(** The text of one element of another list. *)
Definition element_text (val_str : string) : string :=
  _add_indent val_str
    (Z.of_nat (String.length (str_before "': " val_str)) - 6).

(** ["[" + ",\n".join(strs) + "]"] *)
Definition bracketed (strs : list string) : string :=
  String.append "["
    (String.append (String.concat (String ","%char (String newline "")) strs)
       "]").

(** The text of the value of an attribute: a list is printed element by
    element, after a look at its first element. *)
Definition value_text (val : AttrValue) : Result string :=
  match val with
  | VSubgraphs (Some l) =>
      match l with
      | [] => Raise IndexError
      | _ :: _ => Ok (bracketed (map sampledsubgraph_text l))
      end
  | VFeatureDicts (Some l) =>
      match l with
      | [] => Raise IndexError
      | _ :: _ =>
          Ok (bracketed (map (fun d => element_text (str_features d)) l))
      end
  | VSubgraphs None | VFeatureDicts None => Ok "None"
  | VIds x => Ok (str_option str_ids x)
  | VPairs x => Ok (str_option str_pairs x)
  | VFeatures x => Ok (str_option str_features x)
  end.

(** One round of the loop over the attributes. *)
Definition append_attribute (final_str : string)
    (attribute : string * AttrValue) : Result string :=
  let '(name, val) := attribute in
  bindR (value_text val) (fun val =>
  Ok (String.append final_str
        (String.append name
        (String.append "="
        (String.append (_add_indent val (Z.of_nat (String.length name) + 1))
        (String.append ","
        (String newline (spaces 10)))))))).

(** [_minibatch_str], which is [MiniBatch.__repr__]. *)
Definition _minibatch_str (minibatch : MiniBatch.t) : Result string :=
  let final_str := EmptyString in
  let attributes := minibatch_attributes minibatch in
  let attributes := rev attributes in
  bindR (foldR append_attribute attributes final_str) (fun final_str =>
  Ok (String.append "MiniBatch("
        (String.append (drop_last 3 final_str) ")"))).

End MiniBatchStr.

(** ** A concrete graph to run the definitions on *)

(** The graph of the docstring example, in CSC form: the in-neighbours of
    node [v] are [indices[indptr[v] : indptr[v+1]]]. *)
Module Example.

Definition indptr : list Z := [0; 2; 4; 5; 6; 7; 8].
Definition indices : list Z := [1; 2; 0; 3; 5; 4; 3; 5].

Definition in_neighbors (v : Z) : list Z :=
  match indptr !! Z.to_nat v, indptr !! S (Z.to_nat v) with
  | Some a, Some b => firstn (Z.to_nat (b - a)) (skipn (Z.to_nat a) indices)
  | _, _ => []
  end.

Definition is_node (v : Z) : bool := (0 <=? v) && (v <? 6).

Definition take_first (n : Z) (l : list Z) : list Z :=
  if n <? 0 then l else firstn (Z.to_nat n) l.

Definition take_last (n : Z) (l : list Z) : list Z :=
  if n <? 0 then l else skipn (length l - Z.to_nat n) l.

(** A sampling primitive on this graph with the randomness resolved by
    [take]: for every seed, in order, the in-edges [take] keeps among the
    seed's in-edges, at most [fanout] of them, all of them when [fanout] is
    negative. The oracle counts the calls. The replace flag and the weight
    attribute are not looked at. Seeds given per type, or outside the graph,
    raise. *)
Definition sample_by (take : Z -> list Z -> list Z) : Primitive nat :=
  fun seeds fanout replace prob_name o =>
    match seeds, fanout with
    | T t, [n] =>
        if forallb is_node t then
          let edges :=
            flat_map (fun v => map (fun u => (u, v)) (take n (in_neighbors v)))
              t in
          (Ok (SampledSubgraphImpl (Pairs (map fst edges, map snd edges))
                 None None None), S o)
        else (Raise IndexError, o)
    | _, _ => (Raise TypeError, o)
    end.

Definition csc_graph : CSCSamplingGraph nat :=
  {| metadata := {| node_type_to_id := []; edge_type_to_id := [] |};
     sample_neighbors := sample_by take_first;
     sample_layer_neighbors := sample_by take_last |}.

(** A graph with two declared node types and no edge: sampling from seeds
    given per type yields no edge; seeds given as one tensor raise. *)
Definition typed_graph : CSCSamplingGraph nat :=
  {| metadata :=
       {| node_type_to_id := [("user", 0); ("item", 1)];
          edge_type_to_id := [("user:buys:item", 0)] |};
     sample_neighbors := fun seeds fanout replace prob_name o =>
       match seeds with
       | D _ => (Ok (SampledSubgraphImpl
                       (PairsDict [("user:buys:item", ([], []))])
                       None None None), S o)
       | T _ => (Raise TypeError, o)
       end;
     sample_layer_neighbors := fun seeds fanout replace prob_name o =>
       match seeds with
       | D _ => (Ok (SampledSubgraphImpl
                       (PairsDict [("user:buys:item", ([], []))])
                       None None None), S o)
       | T _ => (Raise TypeError, o)
       end |}.

(** The ids of [l] in order of first occurrence. *)
Fixpoint unique (l : list Z) : list Z :=
  match l with
  | [] => []
  | x :: l' => x :: filter (fun y => y <> x) (unique l')
  end.

(** The position of [x] in [l]. *)
Fixpoint index_of (x : Z) (l : list Z) : option Z :=
  match l with
  | [] => None
  | y :: l' => if decide (x = y) then Some 0 else Z.succ <$> index_of x l'
  end.

(** [[f(x) for x in l]] where [f] may find nothing. *)
Fixpoint map_option {A B} (f : A -> option B) (l : list A) : option (list B) :=
  match l with
  | [] => Some []
  | x :: l' =>
      match f x, map_option f l' with
      | Some y, Some ys => Some (y :: ys)
      | _, _ => None
      end
  end.

(** Modelled from the spec: [unique_and_compact_node_pairs] is not in src/.
    Following section 4.1, the compacted node set is the deduplicated set of
    the source ids of the sampled edges, here in order of first occurrence;
    source ids are renumbered by their position in it and destination ids
    by their position in the seed set. Only one edge batch over one tensor
    of seeds is handled; a per-type batch with no edge at all compacts to
    empty node sets. *)
Definition unique_and_compact_node_pairs (p : NodePairs)
    (unique_dst_nodes : TensorOrDict) : Result (TensorOrDict * NodePairs) :=
  match p, unique_dst_nodes with
  | Pairs (u, v), T dst =>
      let nodes := unique u in
      match map_option (fun x => index_of x nodes) u,
            map_option (fun x => index_of x dst) v with
      | Some u', Some v' => Ok (T nodes, Pairs (u', v'))
      | _, _ => Raise IndexError
      end
  | PairsDict d, D seeds =>
      if forallb (fun '(_, (u, v)) =>
                    match u, v with [], [] => true | _, _ => false end) d
      then Ok (D (map (fun '(ntype, _) => (ntype, [])) seeds), PairsDict d)
      else Raise TypeError
  | _, _ => Raise TypeError
  end.

(** What [NeighborSampler(datapipe, csc_graph, [5, 10, 15])] builds. *)
Definition neighbor_sampler : NeighborSampler nat unit :=
  {| datapipe := tt;
     graph := csc_graph;
     fanouts := [[5]; [10]; [15]];
     replace := false;
     prob_name := None;
     sampler :=
       {| bm_self := csc_graph; bm_func := sample_neighbors_name |} |}.

(** What [NeighborSampler(datapipe, typed_graph, [2, 2])] builds. *)
Definition typed_sampler : NeighborSampler nat unit :=
  {| datapipe := tt;
     graph := typed_graph;
     fanouts := [[2]; [2]];
     replace := false;
     prob_name := None;
     sampler :=
       {| bm_self := typed_graph; bm_func := sample_neighbors_name |} |}.

(** The four seed sets a run from the seed [0] goes through. *)
Definition visited (seeds : TensorOrDict) : Prop :=
  seeds = T [0] \/ seeds = T [1; 2] \/ seeds = T [0; 3; 5] \/
  seeds = T [1; 2; 4; 5].

Definition start : RunState nat := {| oracle := 0%nat; calls := [] |}.

(** The parts of [s] between the occurrences of [sep]. *)
Fixpoint split_at (sep : Ascii.ascii) (s : string) : list string :=
  match s with
  | EmptyString => [EmptyString]
  | String c s' =>
      if decide (c = sep) then EmptyString :: split_at sep s'
      else match split_at sep s' with
           | part :: parts => String c part :: parts
           | [] => [String c EmptyString]
           end
  end.

(** An edge-type string ["src:rel:dst"] as a tuple; a string of another
    shape raises. *)
Definition etype_str_to_tuple (c_etype : string) : Result EType :=
  match split_at ":"%char c_etype with
  | [a; b; c] => Ok (a, b, c)
  | _ => Raise ValueError
  end.

(** The truth value of a tensor: that of its entry when it has one; more
    than one entry raises. *)
Definition Tensor_bool (t : Tensor) : Result bool :=
  match t with
  | [] => Ok false
  | [x] => Ok (negb (x =? 0))
  | _ => Raise RuntimeError
  end.

(** [to_dgl_blocks] with these, and ["_ID"] for both frame keys. *)
Definition to_dgl_blocks : M MiniBatch.t (option (list DGLBlock)) :=
  to_dgl_blocks etype_str_to_tuple "_ID" "_ID" Tensor_bool.

(** A minibatch with one node feature and nothing else set. *)
Definition minibatch : MiniBatch.t :=
  {| MiniBatch.seed_nodes := Some (T [0]);
     MiniBatch.node_pairs := None;
     MiniBatch.labels := None;
     MiniBatch.negative_srcs := None;
     MiniBatch.negative_dsts := None;
     MiniBatch.sampled_subgraphs := None;
     MiniBatch.input_nodes := None;
     MiniBatch.node_features := Some [(Name "feat", [10; 20; 40; 50])];
     MiniBatch.edge_features := None;
     MiniBatch.compacted_node_pairs := None;
     MiniBatch.compacted_negative_srcs := None;
     MiniBatch.compacted_negative_dsts := None |}.

(** The fields [to_dgl_blocks] reads, in a minibatch. *)
Definition minibatch_of (layers : option (list SampledSubgraph))
    (node_features : option (dict FeatureKey Tensor))
    (edge_features : option (list (dict FeatureKey Tensor))) : MiniBatch.t :=
  {| MiniBatch.seed_nodes := None;
     MiniBatch.node_pairs := None;
     MiniBatch.labels := None;
     MiniBatch.negative_srcs := None;
     MiniBatch.negative_dsts := None;
     MiniBatch.sampled_subgraphs := layers;
     MiniBatch.input_nodes := None;
     MiniBatch.node_features := node_features;
     MiniBatch.edge_features := edge_features;
     MiniBatch.compacted_node_pairs := None;
     MiniBatch.compacted_negative_srcs := None;
     MiniBatch.compacted_negative_dsts := None |}.

(** Two homogeneous layers, outermost first, with a node feature and the
    edge features of the first layer only. *)
Definition layers2 : list SampledSubgraph :=
  [ SampledSubgraphImpl (Pairs ([0; 1; 2], [0; 0; 1]))
      (Some (T [1; 2])) (Some (T [0; 3; 5])) (Some (T [2; 3; 4]));
    SampledSubgraphImpl (Pairs ([0; 1], [0; 0]))
      (Some (T [0])) (Some (T [1; 2])) None ].

Definition minibatch2 : MiniBatch.t :=
  minibatch_of (Some layers2)
    (Some [(Name "feat", [10; 13; 15])])
    (Some [[(Name "weight", [7; 8; 9])]]).

(** The same layers, the second without its row ids. *)
Definition minibatch_missing : MiniBatch.t :=
  minibatch_of
    (Some [ SampledSubgraphImpl (Pairs ([0; 1; 2], [0; 0; 1]))
              (Some (T [1; 2])) (Some (T [0; 3; 5])) None;
            SampledSubgraphImpl (Pairs ([0; 1], [0; 0]))
              (Some (T [0])) None None ])
    None None.

(** One heterogeneous layer. *)
Definition typed_layers : list SampledSubgraph :=
  [ SampledSubgraphImpl
      (PairsDict [("user:buys:item", ([0; 1], [0; 0]))])
      (Some (D [("user", []); ("item", [7])]))
      (Some (D [("user", [3; 4]); ("item", [7])]))
      (Some (D [("user:buys:item", [11; 12])])) ].

Definition typed_minibatch : MiniBatch.t :=
  minibatch_of (Some typed_layers)
    (Some [(Typed "user" "feat", [30; 40])])
    (Some [[(Typed "user:buys:item" "weight", [1; 2])]]).

(** The layers of [minibatch2] with features named as the reverse ids. *)
Definition minibatch_shadowed : MiniBatch.t :=
  minibatch_of (Some layers2)
    (Some [(Name "_ID", [10; 13; 15])])
    (Some [[(Name "_ID", [7; 8; 9])]]).

(** The layer of [typed_minibatch] with a feature named as the reverse
    ids. *)
Definition typed_minibatch_shadowed : MiniBatch.t :=
  minibatch_of (Some typed_layers)
    (Some [(Typed "user" "_ID", [30; 40])])
    None.

(** Printers that elide the entries. *)
Definition str_ids (x : TensorOrDict) : string :=
  match x with
  | T _ => "tensor([...])"
  | D _ => "{...}"
  end.

Definition str_pairs (x : NodePairs) : string :=
  match x with
  | Pairs _ => "(tensor([...]), tensor([...]))"
  | PairsDict _ => "{...}"
  end.

Definition str_features (x : dict FeatureKey Tensor) : string := "{...}".

End Example.

(** * Properties *)

(** ** The monad *)

Lemma bind_Ok {St A B} (m : M St A) (k : A -> M St B) st b st' :
  bind m k st = (Ok b, st') ->
  exists a st1, m st = (Ok a, st1) /\ k a st1 = (Ok b, st').
Proof.
  unfold bind. destruct (m st) as [[a|e] st1]; intros H.
  - eauto.
  - discriminate.
Qed.

Lemma bindR_Ok {A B} (r : Result A) (k : A -> Result B) b :
  bindR r k = Ok b -> exists a, r = Ok a /\ k a = Ok b.
Proof. destruct r as [a|e]; simpl; intros H; [eauto | discriminate]. Qed.

Lemma mapR_Ok_Forall2 {A B} (f : A -> Result B) xs ys :
  mapR f xs = Ok ys -> Forall2 (fun x y => f x = Ok y) xs ys.
Proof.
  revert ys. induction xs as [|x xs IH]; simpl; intros ys H.
  - inversion H. constructor.
  - apply bindR_Ok in H as (y & Hy & H).
    apply bindR_Ok in H as (ys' & Hys & H).
    inversion H; subst. constructor; auto.
Qed.


(** ** Dictionaries *)

Section dict_facts.
Context {K V : Type} `{EqDecision K}.
Implicit Types (d : dict K V) (k : K) (v : V).

Lemma dict_get_set d k k' v :
  dict_get k (dict_set k' v d)
  = if decide (k = k') then Some v else dict_get k d.
Proof.
  induction d as [|[k0 v0] d IH]; simpl.
  - reflexivity.
  - destruct (decide (k' = k0)) as [->|Hne]; simpl.
    + destruct (decide (k = k0)); reflexivity.
    + rewrite IH. destruct (decide (k = k0)) as [->|]; [|reflexivity].
      destruct (decide (k0 = k')); congruence.
Qed.

Lemma dict_get_set_eq d k v : dict_get k (dict_set k v d) = Some v.
Proof. rewrite dict_get_set. destruct (decide (k = k)); congruence. Qed.

Lemma dict_get_set_ne d k k' v :
  k <> k' -> dict_get k (dict_set k' v d) = dict_get k d.
Proof.
  intros. rewrite dict_get_set. destruct (decide (k = k')); congruence.
Qed.

Lemma dict_keys_set d k k' v :
  In k (dict_keys (dict_set k' v d)) <-> k = k' \/ In k (dict_keys d).
Proof.
  unfold dict_keys. induction d as [|[k0 v0] d IH]; simpl.
  - intuition congruence.
  - destruct (decide (k' = k0)) as [->|Hne]; simpl.
    + intuition congruence.
    + rewrite IH. intuition congruence.
Qed.


(** Writing to a dict keeps its keys distinct. *)
Lemma dict_set_NoDup d k v :
  NoDup (dict_keys d) -> NoDup (dict_keys (dict_set k v d)).
Proof.
  unfold dict_keys. induction d as [|[k0 v0] d IH]; simpl; intros Hnd.
  - repeat constructor. intros Hin. inversion Hin.
  - apply NoDup_cons in Hnd as [Hnotin Hnd].
    destruct (decide (k = k0)) as [->|Hne]; simpl.
    + apply NoDup_cons. auto.
    + apply NoDup_cons. split; [|auto].
      rewrite list_elem_of_In in *.
      intros Hin. apply (dict_keys_set d k0 k v) in Hin as [?|?];
        [congruence | auto].
Qed.

(** The comprehension [{k: f(k) for k in ks}]. *)
Lemma dict_comprehension_acc (f : K -> V) ks : forall d,
  let d' := fold_left (fun d kv => dict_set (fst kv) (snd kv) d)
              (map (fun k => (k, f k)) ks) d in
  (NoDup (dict_keys d) -> NoDup (dict_keys d')) /\
  (forall k, In k (dict_keys d') <-> In k ks \/ In k (dict_keys d)) /\
  (forall k, In k ks -> dict_get k d' = Some (f k)) /\
  (forall k, ~ In k ks -> dict_get k d' = dict_get k d).
Proof.
  induction ks as [|k0 ks IH]; intros d; simpl.
  - intuition.
  - destruct (IH (dict_set k0 (f k0) d)) as (IH1 & IH2 & IH3 & IH4).
    split; [|split; [|split]].
    + intros Hnd. apply IH1. apply dict_set_NoDup. exact Hnd.
    + intros k. rewrite IH2, dict_keys_set. intuition.
    + intros k [<-|Hin].
      * destruct (in_dec (fun x y => decide (x = y)) k0 ks) as [Hin|Hnin].
        -- apply IH3. exact Hin.
        -- rewrite IH4 by exact Hnin. apply dict_get_set_eq.
      * apply IH3. exact Hin.
    + intros k Hnin. rewrite IH4 by tauto.
      apply dict_get_set_ne. intros ->. tauto.
Qed.

Lemma dict_comprehension (f : K -> V) ks :
  let d := dict_of_items (map (fun k => (k, f k)) ks) in
  NoDup (dict_keys d) /\
  (forall k, In k (dict_keys d) <-> In k ks) /\
  (forall k, In k ks -> dict_get k d = Some (f k)).
Proof.
  destruct (dict_comprehension_acc f ks []) as (H1 & H2 & H3 & _).
  split; [|split].
  - apply H1. constructor.
  - intros k. unfold dict_of_items, dict_update. rewrite H2. simpl. tauto.
  - exact H3.
Qed.

Lemma dict_set_fresh d k v :
  ~ In k (dict_keys d) -> dict_set k v d = d ++ [(k, v)].
Proof.
  unfold dict_keys. induction d as [|[k0 v0] d IH]; simpl; intros Hk.
  - reflexivity.
  - destruct (decide (k = k0)) as [->|Hne]; [tauto|].
    rewrite IH by tauto. reflexivity.
Qed.

(** On items with distinct keys, none of them in [d], an update appends. *)
Lemma dict_update_NoDup (items : dict K V) : forall d,
  NoDup (dict_keys (d ++ items)) -> dict_update d items = d ++ items.
Proof.
  unfold dict_update, dict_keys.
  induction items as [|[k v] items IH]; intros d Hnd; simpl.
  - rewrite app_nil_r. reflexivity.
  - assert (Hfresh : ~ In k (map fst d)).
    { rewrite map_app in Hnd. simpl in Hnd.
      apply NoDup_app in Hnd as (_ & Hdisj & _).
      intros Hin. apply (Hdisj k); [apply list_elem_of_In; exact Hin|].
      left. }
    rewrite dict_set_fresh by exact Hfresh.
    rewrite IH; rewrite <- app_assoc; [reflexivity | exact Hnd].
Qed.

(** A dict built from the items of a dict is that dict. *)
Lemma dict_of_items_NoDup (items : dict K V) :
  NoDup (dict_keys items) -> dict_of_items items = items.
Proof. intros Hnd. apply (dict_update_NoDup items []). exact Hnd. Qed.

(** An update leaves the keys it does not write. *)
Lemma dict_get_update_notin (items : dict K V) : forall (d : dict K V) k,
  ~ In k (dict_keys items) ->
  dict_get k (dict_update d items) = dict_get k d.
Proof.
  unfold dict_update, dict_keys.
  induction items as [|[k0 v0] items IH]; intros d k Hk; simpl.
  - reflexivity.
  - rewrite IH by (simpl in Hk; tauto).
    apply dict_get_set_ne. simpl in Hk. intros ->. tauto.
Qed.

(** After an update with items of distinct keys, each item is read back. *)
Lemma dict_get_update_in (items : dict K V) : forall (d : dict K V) k v,
  NoDup (dict_keys items) -> In (k, v) items ->
  dict_get k (dict_update d items) = Some v.
Proof.
  induction items as [|[k0 v0] items IH]; intros d k v Hnd Hin.
  - inversion Hin.
  - unfold dict_keys in Hnd. simpl in Hnd.
    apply NoDup_cons in Hnd as [Hnotin Hnd].
    destruct Hin as [[= -> ->]|Hin].
    + change (dict_get k (dict_update (dict_set k v d) items) = Some v).
      rewrite dict_get_update_notin.
      * apply dict_get_set_eq.
      * rewrite <- list_elem_of_In. exact Hnotin.
    + apply (IH (dict_set k0 v0 d) k v Hnd Hin).
Qed.

(** The keys of an updated dict: those written and those it had. *)
Lemma dict_keys_update (items : dict K V) : forall d k,
  In k (dict_keys (dict_update d items))
  <-> In k (dict_keys items) \/ In k (dict_keys d).
Proof.
  unfold dict_update.
  induction items as [|[k0 v0] items IH]; intros d k.
  - simpl. tauto.
  - cbn [fold_left fst snd]. rewrite IH, dict_keys_set.
    unfold dict_keys. simpl. intuition congruence.
Qed.

(** An entry of an updated dict was written or was there. *)
Lemma dict_get_update_Some (items : dict K V) : forall d k v,
  dict_get k (dict_update d items) = Some v ->
  In (k, v) items \/ dict_get k d = Some v.
Proof.
  unfold dict_update.
  induction items as [|[k0 v0] items IH]; intros d k v H.
  - auto.
  - cbn [fold_left fst snd] in H. apply IH in H as [H|H]; [simpl; auto|].
    rewrite dict_get_set in H.
    destruct (decide (k = k0)) as [->|]; [|auto].
    injection H as ->. simpl. auto.
Qed.

End dict_facts.

(** ** The multi-hop loop *)

Section SamplingFacts.
Context {Oracle DataPipe : Type}.
Variable unique_and_compact_node_pairs :
  NodePairs -> TensorOrDict -> Result (TensorOrDict * NodePairs).

Abbreviation Sampler := (NeighborSampler Oracle DataPipe).
Abbreviation run_hop := (sample_hop unique_and_compact_node_pairs).
Abbreviation run := (_sample_subgraphs unique_and_compact_node_pairs).
Abbreviation run_steps := (hops_run unique_and_compact_node_pairs).

(** A hop, whatever its outcome, makes at most one call, with the sampler's
    own method, replace flag and weight name, on the current seed set. *)
Lemma sample_hop_calls (self : Sampler) hop seeds subgraphs st :
  let st' := snd (run_hop self hop (seeds, subgraphs) st) in
  (self.(fanouts) !! hop = None /\ calls st' = calls st) \/
  (exists fanout r,
      self.(fanouts) !! hop = Some fanout /\
      calls st' = calls st ++ [call_of self seeds fanout r]).
Proof.
  unfold sample_hop, index, bind, invoke, lift, ret, raise. simpl.
  destruct (self.(fanouts) !! hop) as [fanout|]; simpl; [|left; auto].
  right. exists fanout.
  destruct (method_body _ _ _ _ _ _) as [[sg|e] o1]; simpl.
  - exists (Ok sg). split; [reflexivity|].
    destruct (unique_and_compact_node_pairs _ _) as [[s1 np]|e]; reflexivity.
  - exists (Raise e). auto.
Qed.

(** What a hop that succeeds did. *)
Lemma sample_hop_Ok (self : Sampler) hop seeds subgraphs st seeds' subgraphs'
    st' :
  run_hop self hop (seeds, subgraphs) st = (Ok (seeds', subgraphs'), st') ->
  exists fanout sg pairs,
    self.(fanouts) !! hop = Some fanout /\
    method_body self.(sampler) seeds fanout self.(replace) self.(prob_name)
      (oracle st) = (Ok sg, oracle st') /\
    unique_and_compact_node_pairs (node_pairs sg) seeds = Ok (seeds', pairs) /\
    subgraphs' =
      SampledSubgraphImpl pairs (Some seeds) (Some seeds') None :: subgraphs /\
    calls st' = calls st ++ [call_of self seeds fanout (Ok sg)].
Proof.
  unfold sample_hop, index, bind, invoke, lift, ret, raise. simpl.
  destruct (self.(fanouts) !! hop) as [fanout|]; simpl; [|discriminate].
  destruct (method_body _ _ _ _ _ _) as [[sg|e] o1] eqn:Hm; simpl;
    [|discriminate].
  destruct (unique_and_compact_node_pairs _ _) as [[s1 np]|e] eqn:Hu;
    [|discriminate].
  intros H. inversion H; subst; clear H. simpl.
  exists fanout, sg, np. auto.
Qed.

(** A loop that succeeds is a run of its hops; the layers are put in front of
    the list in reverse sampling order and the calls are logged in sampling
    order. *)
Lemma for_each_hops_run (self : Sampler) hops :
  forall seeds acc st seeds' out st',
    for_each hops (run_hop self) (seeds, acc) st = (Ok (seeds', out), st') ->
    exists steps,
      run_steps self hops seeds (oracle st) steps seeds' (oracle st') /\
      calls st' = calls st ++ map step_call steps /\
      out = reverse (step_layer <$> steps) ++ acc.
Proof.
  induction hops as [|hop hops IH]; simpl; intros seeds acc st seeds' out st' H.
  - inversion H; subst. exists []. simpl. rewrite app_nil_r.
    split; [constructor | auto].
  - apply bind_Ok in H as ([seeds1 acc1] & st1 & Hhop & Hrest).
    apply sample_hop_Ok in Hhop
      as (fanout & sg & pairs & Hf & Hm & Hu & -> & Hc).
    apply IH in Hrest as (steps & Hsteps & Hcalls & ->).
    eexists (_ :: steps). split; [|split].
    + econstructor; eauto.
    + simpl. rewrite Hcalls, Hc, <- app_assoc. reflexivity.
    + rewrite fmap_cons, reverse_cons, <- app_assoc. reflexivity.
Qed.

Lemma sample_subgraphs_hops_run (self : Sampler) seeds st seeds' subgraphs st' :
  run self seeds st = (Ok (seeds', subgraphs), st') ->
  exists steps,
    run_steps self (seq 0 (length self.(fanouts))) (enrich_seeds self seeds)
      (oracle st) steps seeds' (oracle st') /\
    calls st' = calls st ++ map step_call steps /\
    subgraphs = reverse (step_layer <$> steps).
Proof.
  unfold _sample_subgraphs. intros H.
  apply for_each_hops_run in H as (steps & H1 & H2 & H3).
  rewrite app_nil_r in H3. eauto.
Qed.

Lemma hops_run_length (self : Sampler) hops seeds o steps seeds' o' :
  run_steps self hops seeds o steps seeds' o' -> length steps = length hops.
Proof. induction 1; simpl; auto. Qed.

(** What every step of a run is: the hop's fanout was given to the
    primitive, which returned a batch that the compaction turned into the
    step's node set and pairs. *)
Lemma hops_run_steps (self : Sampler) hops seeds o steps seeds' o' :
  run_steps self hops seeds o steps seeds' o' ->
  Forall2 (fun hop s =>
    exists fanout sg,
      self.(fanouts) !! hop = Some fanout /\
      step_call s = call_of self (call_seeds (step_call s)) fanout (Ok sg) /\
      unique_and_compact_node_pairs (node_pairs sg) (call_seeds (step_call s))
        = Ok (step_seeds s, step_pairs s)) hops steps.
Proof.
  induction 1; constructor; auto.
  simpl. eauto.
Qed.

(** The seed sets thread through the steps. *)
Lemma hops_run_thread (self : Sampler) hops seeds o steps seeds' o' :
  run_steps self hops seeds o steps seeds' o' ->
  (forall s, steps !! 0%nat = Some s -> call_seeds (step_call s) = seeds) /\
  (forall s, last steps = Some s -> step_seeds s = seeds') /\
  (steps = [] -> seeds' = seeds) /\
  (forall (i : nat) s s', steps !! i = Some s -> steps !! S i = Some s' ->
     call_seeds (step_call s') = step_seeds s).
Proof.
  induction 1 as [|hop hops seeds o fanout sg o1 seeds1 pairs steps seedsN oN
                    Hf Hm Hu Hrun (IH0 & IHlast & IHnil & IHadj)].
  - repeat split; try discriminate; auto.
  - repeat split.
    + intros s [= <-]. reflexivity.
    + intros s. destruct steps as [|s1 steps].
      * intros [= <-]. simpl. symmetry. auto.
      * intros Hl. apply IHlast. exact Hl.
    + discriminate.
    + intros [|i] s s'; simpl.
      * intros [= <-] Hs'. simpl. apply IH0. exact Hs'.
      * apply IHadj.
Qed.

(** The loop keeps the list chained, with the current seed set as the row
    ids of its head. *)
Lemma hops_run_chained (self : Sampler) hops seeds o steps seeds' o' :
  run_steps self hops seeds o steps seeds' o' ->
  forall acc,
    (forall a, head acc = Some a -> original_row_node_ids a = Some seeds) ->
    chained acc ->
    (forall a, head (reverse (step_layer <$> steps) ++ acc) = Some a ->
       original_row_node_ids a = Some seeds') /\
    chained (reverse (step_layer <$> steps) ++ acc).
Proof.
  induction 1 as [|hop hops seeds o fanout sg o1 seeds1 pairs steps seedsN oN
                    Hf Hm Hu Hrun IH]; intros acc Hhead Hch.
  - simpl. auto.
  - rewrite fmap_cons, reverse_cons, <- app_assoc. simpl.
    apply IH.
    + intros a [= <-]. reflexivity.
    + intros [|i] a b; simpl.
      * intros [= <-] Hb. simpl. symmetry. apply Hhead.
        rewrite head_lookup. exact Hb.
      * apply Hch.
Qed.

Lemma sample_subgraphs_length (self : Sampler) seeds st seeds' subgraphs st' :
  run self seeds st = (Ok (seeds', subgraphs), st') ->
  length subgraphs = length self.(fanouts).
Proof.
  intros H. apply sample_subgraphs_hops_run in H as (steps & Hrun & _ & ->).
  apply hops_run_length in Hrun.
  rewrite length_reverse, length_fmap, Hrun, length_seq. reflexivity.
Qed.

(** C1. Chaining invariant: for every sampler, whatever the length [L] of
    its fanout sequence, every seed set and every run of [_sample_subgraphs]
    that returns, for every index [i] with [i + 1 < L], entry [i] of the
    returned layer list has [original_column_node_ids] equal to the
    [original_row_node_ids] of entry [i + 1]. *)
Theorem sample_subgraphs_chained (self : NeighborSampler Oracle DataPipe)
    seeds st seeds' subgraphs st' :
  _sample_subgraphs unique_and_compact_node_pairs self seeds st
  = (Ok (seeds', subgraphs), st') ->
  forall i : nat, (i + 1 < length self.(fanouts))%nat ->
    exists a b,
      subgraphs !! i = Some a /\ subgraphs !! (i + 1)%nat = Some b /\
      original_column_node_ids a = original_row_node_ids b.
Proof.
  intros H i Hi.
  pose proof (sample_subgraphs_length _ _ _ _ _ _ H) as Hlen.
  apply sample_subgraphs_hops_run in H as (steps & Hrun & _ & ->).
  destruct (hops_run_chained _ _ _ _ _ _ _ Hrun []) as [_ Hch].
  { discriminate. }
  { intros j a b Ha. discriminate. }
  rewrite app_nil_r in Hch.
  destruct (lookup_lt_is_Some_2 (reverse (step_layer <$> steps)) i)
    as [a Ha]; [lia|].
  destruct (lookup_lt_is_Some_2 (reverse (step_layer <$> steps)) (i + 1))
    as [b Hb]; [lia|].
  exists a, b. repeat split; auto.
  apply (Hch i); auto. replace (S i) with (i + 1)%nat by lia. exact Hb.
Qed.

(** A loop whose hops all find a primitive and a compaction that do not
    raise, on the seed sets an invariant [P] allows, succeeds. *)
Lemma for_each_hops_Ok (self : Sampler) (P : TensorOrDict -> Prop) :
  (forall s fanout o, P s -> In fanout self.(fanouts) ->
     exists sg o' s' pairs,
       method_body self.(sampler) s fanout self.(replace) self.(prob_name) o
         = (Ok sg, o') /\
       unique_and_compact_node_pairs (node_pairs sg) s = Ok (s', pairs) /\
       P s') ->
  forall hops,
    Forall (fun hop : nat => (hop < length self.(fanouts))%nat) hops ->
    forall seeds acc st, P seeds ->
      exists r st', for_each hops (run_hop self) (seeds, acc) st = (Ok r, st').
Proof.
  intros Hstep hops Hhops.
  induction Hhops as [|hop hops Hhop _ IH]; intros seeds acc st HP; simpl.
  - unfold ret. eauto.
  - destruct (lookup_lt_is_Some_2 _ _ Hhop) as [fanout Hf].
    destruct (Hstep seeds fanout (oracle st) HP)
      as (sg & o' & s' & pairs & Hm & Hu & HP').
    { apply list_elem_of_In. eapply list_elem_of_lookup_2. exact Hf. }
    unfold bind at 1.
    unfold sample_hop, index, bind, invoke, lift, ret. rewrite Hf. simpl.
    rewrite Hm. simpl. rewrite Hu. simpl.
    apply IH. exact HP'.
Qed.

(** C2. For every sampler with a fanout sequence of length [L] and every
    seed set, [_sample_subgraphs] returns a layer list with exactly [L]
    entries. The primitive and the compaction are external and may raise:
    the run returns when they do not raise on the seed sets it meets, which
    is stated with an invariant [P] of those seed sets. *)
Theorem sample_subgraphs_returns_L_layers
    (self : NeighborSampler Oracle DataPipe) seeds st
    (P : TensorOrDict -> Prop) :
  P (enrich_seeds self seeds) ->
  (forall s fanout o, P s -> In fanout self.(fanouts) ->
     exists sg o' s' pairs,
       method_body self.(sampler) s fanout self.(replace) self.(prob_name) o
         = (Ok sg, o') /\
       unique_and_compact_node_pairs (node_pairs sg) s = Ok (s', pairs) /\
       P s') ->
  exists seeds' subgraphs st',
    _sample_subgraphs unique_and_compact_node_pairs self seeds st
    = (Ok (seeds', subgraphs), st') /\
    length subgraphs = length self.(fanouts).
Proof.
  intros HP Hstep.
  destruct (for_each_hops_Ok self P Hstep (seq 0 (length self.(fanouts))))
    with (seeds := enrich_seeds self seeds) (acc := @nil SampledSubgraph)
         (st := st) as ([seeds' subgraphs] & st' & Hrun).
  { apply Forall_forall. intros hop Hin. apply elem_of_seq in Hin. lia. }
  { exact HP. }
  exists seeds', subgraphs, st'. split; [exact Hrun|].
  eapply sample_subgraphs_length. exact Hrun.
Qed.

(** C3. Layer ordering: each new layer goes to the front of the list, so a
    run of [L] hops that returns did [L] steps, logged in sampling order,
    and the layer of hop [hop] is at index [L - 1 - hop] of the returned
    list: index 0 holds the layer of the last-sampled hop and index [L - 1]
    the layer of the first-sampled hop, whose column ids are the seed set
    the loop started from (the seed set given, enriched when it is a
    mapping). *)
Theorem sample_subgraphs_order (self : NeighborSampler Oracle DataPipe)
    seeds st seeds' subgraphs st' :
  _sample_subgraphs unique_and_compact_node_pairs self seeds st
  = (Ok (seeds', subgraphs), st') ->
  exists steps : list (Step Oracle),
    calls st' = calls st ++ map step_call steps /\
    length steps = length self.(fanouts) /\
    length subgraphs = length self.(fanouts) /\
    (forall (hop : nat) s, steps !! hop = Some s ->
       subgraphs !! (length self.(fanouts) - 1 - hop)%nat
         = Some (step_layer s) /\
       exists sg,
         self.(fanouts) !! hop = Some (call_fanout (step_call s)) /\
         call_result (step_call s) = Ok sg /\
         unique_and_compact_node_pairs (node_pairs sg)
           (call_seeds (step_call s)) = Ok (step_seeds s, step_pairs s)) /\
    (forall s, steps !! 0%nat = Some s ->
       call_seeds (step_call s) = enrich_seeds self seeds /\
       subgraphs !! (length self.(fanouts) - 1)%nat = Some (step_layer s) /\
       original_column_node_ids (step_layer s)
         = Some (enrich_seeds self seeds)) /\
    (forall s, steps !! (length self.(fanouts) - 1)%nat = Some s ->
       subgraphs !! 0%nat = Some (step_layer s) /\
       original_row_node_ids (step_layer s) = Some seeds').
Proof.
  intros H.
  pose proof (sample_subgraphs_length _ _ _ _ _ _ H) as Hlen.
  apply sample_subgraphs_hops_run in H as (steps & Hrun & Hcalls & ->).
  pose proof (hops_run_length _ _ _ _ _ _ _ Hrun) as Hsteps.
  rewrite length_seq in Hsteps.
  pose proof (hops_run_steps _ _ _ _ _ _ _ Hrun) as Hall.
  destruct (hops_run_thread _ _ _ _ _ _ _ Hrun) as (H0 & Hlast & _ & _).
  assert (Hidx : forall (hop : nat) s, steps !! hop = Some s ->
            reverse (step_layer <$> steps)
              !! (length self.(fanouts) - 1 - hop)%nat
            = Some (step_layer s)).
  { intros hop s Hs. pose proof (lookup_lt_Some _ _ _ Hs) as Hlt.
    apply reverse_lookup_Some. rewrite length_fmap, Hsteps. split; [|lia].
    replace (length self.(fanouts) - S (length self.(fanouts) - 1 - hop))%nat
      with hop by lia.
    rewrite list_lookup_fmap, Hs. reflexivity. }
  exists steps.
  split; [exact Hcalls|]. split; [exact Hsteps|]. split; [exact Hlen|].
  split; [|split].
  - intros hop s Hs. split; [apply Hidx; exact Hs|].
    destruct (Forall2_lookup_r _ _ _ _ _ Hall Hs)
      as (hop' & Hhop' & fanout & sg & Hf & Hc & Hu).
    apply lookup_seq in Hhop' as [-> _]. simpl in Hf.
    exists sg. rewrite Hc. simpl. auto.
  - intros s Hs. split; [apply H0; exact Hs|]. split.
    + specialize (Hidx 0%nat s Hs). rewrite Nat.sub_0_r in Hidx. exact Hidx.
    + simpl. f_equal. apply H0. exact Hs.
  - intros s Hs. split.
    + specialize (Hidx _ s Hs).
      pose proof (lookup_lt_Some _ _ _ Hs) as Hlt.
      replace (length self.(fanouts) - 1 - (length self.(fanouts) - 1))%nat
        with 0%nat in Hidx by lia.
      exact Hidx.
    + simpl. f_equal. apply Hlast.
      rewrite last_lookup, Hsteps.
      replace (Init.Nat.pred (length self.(fanouts)))
        with (length self.(fanouts) - 1)%nat by lia.
      exact Hs.
Qed.

(** Whatever its outcome, the loop only adds calls to the log. *)
Lemma for_each_calls_extend (self : Sampler) hops : forall vars st,
  exists new,
    calls (snd (for_each hops (run_hop self) vars st)) = calls st ++ new.
Proof.
  induction hops as [|hop hops IH]; intros [seeds acc] st; cbn [for_each].
  - exists []. rewrite app_nil_r. reflexivity.
  - unfold bind.
    pose proof (sample_hop_calls self hop seeds acc st) as Hc. cbv zeta in Hc.
    destruct (run_hop self hop (seeds, acc) st) as [[vars1|e] st1].
    + destruct (IH vars1 st1) as [new Hnew]. rewrite Hnew.
      destruct Hc as [[_ Hc]|(fanout & r & _ & Hc)]; cbn [snd] in Hc;
        rewrite Hc.
      * exists new. reflexivity.
      * eexists. rewrite <- app_assoc. reflexivity.
    + cbn [snd] in *.
      destruct Hc as [[_ Hc]|(fanout & r & _ & Hc)]; rewrite Hc.
      * exists []. rewrite app_nil_r. reflexivity.
      * eexists. reflexivity.
Qed.

(** C8. Heterogeneous seed enrichment: when the seed set is a mapping [d],
    [_sample_subgraphs] replaces it with a mapping [e] whose keys are exactly
    the graph's declared node types, each bound to its sequence in [d], or to
    an empty tensor when [d] has no entry for it; [e] is what the primitive
    gets at the first hop, the column ids of the innermost layer, and what
    is returned when there is no hop. *)
Theorem sample_subgraphs_enriches_seeds (self : NeighborSampler Oracle DataPipe)
    (d : dict string Tensor) st :
  exists e : dict string Tensor,
    enrich_seeds self (D d) = D e /\
    NoDup (dict_keys e) /\
    (forall ntype,
       In ntype (dict_keys e) <->
       In ntype (dict_keys (node_type_to_id (metadata self.(graph))))) /\
    (forall ntype,
       In ntype (dict_keys (node_type_to_id (metadata self.(graph)))) ->
       dict_get ntype e
       = Some (match dict_get ntype d with Some ids => ids | None => [] end))
    /\
    ((0 < length self.(fanouts))%nat ->
     exists c rest,
       calls (snd (_sample_subgraphs unique_and_compact_node_pairs self (D d)
                     st))
       = calls st ++ c :: rest /\
       call_seeds c = D e) /\
    (forall seeds' subgraphs st',
       _sample_subgraphs unique_and_compact_node_pairs self (D d) st
       = (Ok (seeds', subgraphs), st') ->
       match last subgraphs with
       | Some layer => original_column_node_ids layer = Some (D e)
       | None => seeds' = D e
       end).
Proof.
  set (ntypes := dict_keys (node_type_to_id (metadata self.(graph)))).
  destruct (dict_comprehension (fun ntype => dict_get_default ntype [] d)
              ntypes) as (Hnd & Hkeys & Hget).
  eexists. split; [reflexivity|].
  split; [exact Hnd|]. split; [exact Hkeys|]. split; [exact Hget|]. split.
  - intros HL. unfold _sample_subgraphs.
    destruct (length self.(fanouts)) as [|n] eqn:Hlen; [lia|].
    cbn [seq for_each]. unfold bind.
    pose proof (sample_hop_calls self 0 (enrich_seeds self (D d)) [] st)
      as Hc. cbv zeta in Hc.
    destruct Hc as [[Hnone _]|(fanout' & r & _ & Hc)].
    { apply lookup_ge_None in Hnone. lia. }
    destruct (run_hop self 0 (enrich_seeds self (D d), []) st)
      as [[vars1|ex] st1]; cbn [snd] in Hc.
    + destruct (for_each_calls_extend self (seq 1 n) vars1 st1)
        as [new Hnew].
      eexists _, new. rewrite Hnew, Hc, <- app_assoc. split; reflexivity.
    + cbn [snd]. eexists _, []. split; [exact Hc | reflexivity].
  - intros seeds' subgraphs st' Hrun.
    apply sample_subgraphs_hops_run in Hrun as (steps & Hrun & _ & ->).
    destruct (hops_run_thread _ _ _ _ _ _ _ Hrun) as (H0 & _ & Hnil & _).
    destruct steps as [|s steps].
    + simpl. apply Hnil. reflexivity.
    + rewrite fmap_cons, reverse_cons, last_snoc. simpl.
      f_equal. apply H0. reflexivity.
Qed.

(** The loop over [range(num_layers)] computes what the loop of the spec
    computes on the remaining fanouts, and every call it logs uses the
    sampler's own method, replace flag and weight name. *)
Lemma for_each_refines_spec_hops (self : Sampler) fs : forall pre,
  self.(fanouts) = pre ++ fs ->
  forall seeds acc st,
    let res := spec_hops unique_and_compact_node_pairs
                 (method_body self.(sampler)) self.(replace) self.(prob_name)
                 fs seeds acc (oracle st) in
    exists log,
      for_each (seq (length pre) (length fs)) (run_hop self) (seeds, acc) st
      = (fst res, {| oracle := snd res; calls := calls st ++ log |}) /\
      Forall (fun c => call_method c = self.(sampler) /\
                       call_replace c = self.(replace) /\
                       call_prob_name c = self.(prob_name)) log.
Proof.
  induction fs as [|fanout fs IH]; intros pre Hpre seeds acc st; simpl.
  - exists []. rewrite app_nil_r. destruct st; auto.
  - assert (Hf : self.(fanouts) !! length pre = Some fanout).
    { rewrite Hpre. apply list_lookup_middle. reflexivity. }
    unfold bind at 1.
    unfold sample_hop, index, bind, invoke, lift, ret. rewrite Hf. simpl.
    destruct (method_body _ _ _ _ _ _) as [[sg|e] o1]; simpl.
    + destruct (unique_and_compact_node_pairs _ _) as [[s1 np]|e]; simpl.
      * specialize (IH (pre ++ [fanout])).
        rewrite length_app, Nat.add_1_r in IH.
        edestruct IH as (log & Heq & Hlog).
        { rewrite Hpre, <- app_assoc. reflexivity. }
        rewrite Heq. simpl. eexists (_ :: log). split.
        -- rewrite <- app_assoc. reflexivity.
        -- constructor; [simpl; auto | exact Hlog].
      * eexists [_]. split; [reflexivity|].
        constructor; [simpl; auto | constructor].
    + eexists [_]. split; [reflexivity|].
      constructor; [simpl; auto | constructor].
Qed.

Lemma sample_subgraphs_refines_spec (self : Sampler) seeds st :
  let res := spec_sample unique_and_compact_node_pairs
               (method_body self.(sampler)) self.(graph) self.(fanouts)
               self.(replace) self.(prob_name) seeds (oracle st) in
  exists log,
    run self seeds st
    = (fst res, {| oracle := snd res; calls := calls st ++ log |}) /\
    Forall (fun c => call_method c = self.(sampler) /\
                     call_replace c = self.(replace) /\
                     call_prob_name c = self.(prob_name)) log.
Proof.
  unfold _sample_subgraphs, spec_sample.
  replace (spec_normalise self.(graph) seeds) with (enrich_seeds self seeds)
    by (destruct seeds; reflexivity).
  apply (for_each_refines_spec_hops self self.(fanouts) []). reflexivity.
Qed.

(** C9. Sampler-policy refinement: built from the same arguments, the two
    samplers either both fail to build, with the same exception, or are the
    same object up to the [sampler] attribute; on every seed set and every
    state, [NeighborSampler] computes the loop of the spec over
    [graph.sample_neighbors] and [LayerNeighborSampler] the same loop over
    [graph.sample_layer_neighbors], and every call either of them makes
    goes to its own primitive with the [replace] and [prob_name] arguments
    as they were given. *)
Theorem layer_sampler_refinement (dp : DataPipe) (g : CSCSamplingGraph Oracle)
    (fanouts_arg : list FanoutArg) (replace_arg : bool)
    (prob_name_arg : option string) :
  match NeighborSampler_init dp g fanouts_arg replace_arg prob_name_arg,
        LayerNeighborSampler_init dp g fanouts_arg replace_arg prob_name_arg
  with
  | Ok ns, Ok ls =>
      ls = set_sampler ns
             {| bm_self := g; bm_func := sample_layer_neighbors_name |} /\
      ns.(sampler) = {| bm_self := g; bm_func := sample_neighbors_name |} /\
      ns.(graph) = g /\
      ns.(replace) = replace_arg /\
      ns.(prob_name) = prob_name_arg /\
      forall seeds st,
        (let res := spec_sample unique_and_compact_node_pairs
                      (sample_neighbors g) g ns.(fanouts)
                      replace_arg prob_name_arg seeds (oracle st) in
         exists log,
           _sample_subgraphs unique_and_compact_node_pairs ns seeds st
           = (fst res, {| oracle := snd res; calls := calls st ++ log |}) /\
           Forall (fun c =>
                     call_method c
                     = {| bm_self := g; bm_func := sample_neighbors_name |} /\
                     call_replace c = replace_arg /\
                     call_prob_name c = prob_name_arg) log) /\
        (let res := spec_sample unique_and_compact_node_pairs
                      (sample_layer_neighbors g) g ns.(fanouts)
                      replace_arg prob_name_arg seeds (oracle st) in
         exists log,
           _sample_subgraphs unique_and_compact_node_pairs ls seeds st
           = (fst res, {| oracle := snd res; calls := calls st ++ log |}) /\
           Forall (fun c =>
                     call_method c
                     = {| bm_self := g;
                          bm_func := sample_layer_neighbors_name |} /\
                     call_replace c = replace_arg /\
                     call_prob_name c = prob_name_arg) log)
  | Raise e, Raise e' => e = e'
  | _, _ => False
  end.
Proof.
  unfold LayerNeighborSampler_init, NeighborSampler_init.
  destruct (mapR convert_fanout fanouts_arg) as [fanouts'|e]; simpl;
    [|reflexivity].
  repeat (split; [reflexivity|]).
  intros seeds st. split.
  - apply (sample_subgraphs_refines_spec
             {| datapipe := dp; graph := g; fanouts := fanouts';
                replace := replace_arg; prob_name := prob_name_arg;
                sampler := {| bm_self := g;
                              bm_func := sample_neighbors_name |} |}).
  - apply (sample_subgraphs_refines_spec
             (set_sampler
                {| datapipe := dp; graph := g; fanouts := fanouts';
                   replace := replace_arg; prob_name := prob_name_arg;
                   sampler := {| bm_self := g;
                                 bm_func := sample_neighbors_name |} |}
                {| bm_self := g; bm_func := sample_layer_neighbors_name |})).
Qed.

End SamplingFacts.

(** ** The transform to blocks *)

Lemma mapR_Raise_first {A B} (f : A -> Result B) pre x post e :
  Forall (fun y => exists b, f y = Ok b) pre ->
  f x = Raise e ->
  mapR f (pre ++ x :: post) = Raise e.
Proof.
  induction 1 as [|y pre [b Hy] _ IH]; intros Hx; simpl.
  - rewrite Hx. reflexivity.
  - rewrite Hy. simpl. rewrite IH by exact Hx. reflexivity.
Qed.

Lemma mapR_Raise_In {A B} (f : A -> Result B) xs x e :
  In x xs -> f x = Raise e -> exists e', mapR f xs = Raise e'.
Proof.
  induction xs as [|y xs IH]; simpl; intros Hin Hx; [contradiction|].
  destruct (f y) as [b|e0] eqn:Hy; simpl; [|eauto].
  destruct Hin as [->|Hin]; [congruence|].
  destruct (IH Hin Hx) as [e' ->]. simpl. eauto.
Qed.

Lemma mapR_length {A B} (f : A -> Result B) xs ys :
  mapR f xs = Ok ys -> length ys = length xs.
Proof.
  intros H. apply mapR_Ok_Forall2 in H.
  symmetry. eapply Forall2_length. exact H.
Qed.

(** *** Loops over blocks *)

Lemma zip_update_lookup {B} (f : DGLBlock -> B -> Result DGLBlock) blocks :
  forall ys blocks',
    zip_update f blocks ys = Ok blocks' ->
    length blocks' = length blocks /\
    forall (i : nat) b, blocks !! i = Some b ->
      exists b', blocks' !! i = Some b' /\
        match ys !! i with
        | Some y => f b y = Ok b'
        | None => b' = b
        end.
Proof.
  induction blocks as [|b0 blocks IH]; intros ys blocks' H.
  - simpl in H. inversion H; subst. split; [reflexivity|].
    intros i b Hb. discriminate.
  - destruct ys as [|y ys].
    + simpl in H. inversion H; subst. split; [reflexivity|].
      intros i b Hb. exists b. split; [exact Hb | reflexivity].
    + simpl in H. apply bindR_Ok in H as (b0' & Hb0 & H).
      apply bindR_Ok in H as (bs' & Hbs & H). inversion H; subst.
      apply IH in Hbs as [Hlen Hlook]. split; [simpl; congruence|].
      intros [|i] b Hb; simpl in *.
      * inversion Hb; subst. eauto.
      * apply Hlook. exact Hb.
Qed.

(** A loop assigning to a frame of [blocks[0]], with a key that may fail to
    convert, assigns the converted items in order. *)
Lemma foldR_at_block0 {A Y} (conv : A -> Result Y)
    (upd : Y -> DGLBlock -> DGLBlock) xs : forall blocks blocks',
  foldR (fun blocks x =>
           bindR (conv x) (fun y =>
           at_block0 (fun b => Ok (upd y b)) blocks)) xs blocks
  = Ok blocks' ->
  exists ys, mapR conv xs = Ok ys /\
    blocks' = match blocks with
              | [] => []
              | b0 :: rest => fold_left (fun b y => upd y b) ys b0 :: rest
              end.
Proof.
  induction xs as [|x xs IH]; intros blocks blocks' H; simpl in H.
  - injection H as <-. exists []. destruct blocks; auto.
  - apply bindR_Ok in H as (blocks1 & H1 & H).
    apply bindR_Ok in H1 as (y & Hy & H1).
    destruct blocks as [|b0 rest]; simpl in H1; [discriminate|].
    inversion H1; subst. apply IH in H as (ys & Hys & ->).
    exists (y :: ys). simpl. rewrite Hy. simpl. rewrite Hys. auto.
Qed.

Lemma foldR_ext {A S} (f g : S -> A -> Result S) xs :
  (forall s x, f s x = g s x) -> forall s, foldR f xs s = foldR g xs s.
Proof.
  intros Hfg. induction xs as [|x xs IH]; intros s; simpl; [reflexivity|].
  rewrite Hfg. destruct (g s x); simpl; auto.
Qed.

Lemma zip_update_ext {B} (f g : DGLBlock -> B -> Result DGLBlock) :
  (forall b y, f b y = g b y) ->
  forall blocks ys, zip_update f blocks ys = zip_update g blocks ys.
Proof.
  intros Hfg. induction blocks as [|b blocks IH]; intros [|y ys]; simpl;
    try reflexivity.
  rewrite Hfg, IH. reflexivity.
Qed.

Lemma mapR_total {A B} (g : A -> B) xs :
  mapR (fun x => Ok (g x)) xs = Ok (map g xs).
Proof. induction xs as [|x xs IH]; simpl; [|rewrite IH]; reflexivity. Qed.

(** A loop assigning to a frame of one block. *)
Lemma foldR_block {A Y} (conv : A -> Result Y)
    (upd : Y -> DGLBlock -> DGLBlock) xs : forall b b',
  foldR (fun b x => bindR (conv x) (fun y => Ok (upd y b))) xs b = Ok b' ->
  exists ys, mapR conv xs = Ok ys /\
    b' = fold_left (fun b y => upd y b) ys b.
Proof.
  induction xs as [|x xs IH]; intros b b' H; simpl in H.
  - inversion H; subst. exists []. auto.
  - apply bindR_Ok in H as (b1 & H1 & H).
    apply bindR_Ok in H1 as (y & Hy & H1). inversion H1; subst.
    apply IH in H as (ys & Hys & ->).
    exists (y :: ys). simpl. rewrite Hy. simpl. rewrite Hys. auto.
Qed.

(** A zip loop whose body never raises returns. *)
Lemma zip_update_total {B} (f : DGLBlock -> B -> Result DGLBlock) :
  (forall b y, exists b', f b y = Ok b') ->
  forall blocks ys, exists blocks',
    zip_update f blocks ys = Ok blocks' /\ length blocks' = length blocks.
Proof.
  intros Hf. induction blocks as [|b blocks IH]; intros [|y ys]; simpl;
    try (eexists; split; reflexivity).
  destruct (Hf b y) as [b' ->]. destruct (IH ys) as (bs' & -> & Hlen).
  simpl. eexists. split; [reflexivity|]. simpl. congruence.
Qed.

(** A loop of assignments to [blocks[0]] returns when there is a block. *)
Lemma foldR_at_block0_total {A} (upd : A -> DGLBlock -> DGLBlock) xs :
  forall b0 rest,
    foldR (fun blocks x => at_block0 (fun b => Ok (upd x b)) blocks) xs
      (b0 :: rest)
    = Ok (fold_left (fun b x => upd x b) xs b0 :: rest).
Proof.
  induction xs as [|x xs IH]; intros b0 rest; simpl; [reflexivity|].
  apply IH.
Qed.

(** *** What a run of assignments leaves in the frames *)

Lemma fold_set_srcdata items : forall b,
  fold_left (fun b (kv : FeatureKey * TensorOrDict) =>
               set_srcdata (fst kv) (snd kv) b) items b
  = {| data_dict := b.(data_dict);
       num_src_nodes := b.(num_src_nodes);
       num_dst_nodes := b.(num_dst_nodes);
       srcdata := dict_update b.(srcdata) items;
       dstdata := b.(dstdata); edata := b.(edata);
       srcnodes := b.(srcnodes); dstnodes := b.(dstnodes);
       edges := b.(edges) |}.
Proof.
  induction items as [|[k v] items IH]; intros b; simpl.
  - destruct b; reflexivity.
  - rewrite IH. reflexivity.
Qed.

Lemma fold_set_edata items : forall b,
  fold_left (fun b (kv : FeatureKey * TensorOrDict) =>
               set_edata (fst kv) (snd kv) b) items b
  = {| data_dict := b.(data_dict);
       num_src_nodes := b.(num_src_nodes);
       num_dst_nodes := b.(num_dst_nodes);
       srcdata := b.(srcdata);
       dstdata := b.(dstdata); edata := dict_update b.(edata) items;
       srcnodes := b.(srcnodes); dstnodes := b.(dstnodes);
       edges := b.(edges) |}.
Proof.
  induction items as [|[k v] items IH]; intros b; simpl.
  - destruct b; reflexivity.
  - rewrite IH. reflexivity.
Qed.

Lemma fold_set_srcnodes items : forall b,
  fold_left (fun b (kv : string * string * Tensor) =>
               set_srcnodes (fst (fst kv)) (snd (fst kv)) (snd kv) b) items b
  = {| data_dict := b.(data_dict);
       num_src_nodes := b.(num_src_nodes);
       num_dst_nodes := b.(num_dst_nodes);
       srcdata := b.(srcdata);
       dstdata := b.(dstdata); edata := b.(edata);
       srcnodes := dict_update b.(srcnodes) items;
       dstnodes := b.(dstnodes);
       edges := b.(edges) |}.
Proof.
  induction items as [|[[t k] v] items IH]; intros b; simpl.
  - destruct b; reflexivity.
  - rewrite IH. reflexivity.
Qed.

Lemma fold_set_edges items : forall b,
  fold_left (fun b (kv : EType * string * Tensor) =>
               set_edges (fst (fst kv)) (snd (fst kv)) (snd kv) b) items b
  = {| data_dict := b.(data_dict);
       num_src_nodes := b.(num_src_nodes);
       num_dst_nodes := b.(num_dst_nodes);
       srcdata := b.(srcdata);
       dstdata := b.(dstdata); edata := b.(edata);
       srcnodes := b.(srcnodes); dstnodes := b.(dstnodes);
       edges := dict_update b.(edges) items |}.
Proof.
  induction items as [|[[t k] v] items IH]; intros b; simpl.
  - destruct b; reflexivity.
  - rewrite IH. reflexivity.
Qed.

Section BlockFacts.
Variable etype_str_to_tuple : string -> Result EType.
Variables NID EID : string.
Variable Tensor_bool : Tensor -> Result bool.

Abbreviation build := (build_block etype_str_to_tuple).
Abbreviation transform :=
  (to_dgl_blocks etype_str_to_tuple NID EID Tensor_bool).
Abbreviation assign_het :=
  (assign_heterogeneous etype_str_to_tuple NID EID Tensor_bool).
Abbreviation assign_hom := (assign_homogeneous NID EID).

(** [to_dgl_blocks] on a non-empty layer list, without the monad. *)
Lemma to_dgl_blocks_unfold (mb : MiniBatch.t) layers :
  MiniBatch.sampled_subgraphs mb = Some layers ->
  layers <> [] ->
  transform mb
  = (bindR (mapR (build (is_heterogeneous_of layers)) layers) (fun blocks =>
     bindR (if is_heterogeneous_of layers
            then assign_het (MiniBatch.node_features mb)
                   (MiniBatch.edge_features mb) layers blocks
            else assign_hom (MiniBatch.node_features mb)
                   (MiniBatch.edge_features mb) layers blocks)
       (fun blocks => Ok (Some blocks))), mb).
Proof.
  intros Hl Hne. unfold to_dgl_blocks, bind, gets, lift, ret. rewrite Hl.
  destruct layers as [|first rest]; [congruence|].
  cbn [is_heterogeneous_of].
  destruct (mapR _ (first :: rest)) as [blocks|e]; [|reflexivity].
  cbn [bindR].
  destruct (isinstance_Dict (node_pairs first));
    match goal with |- context [bindR ?r _] => destruct r end; reflexivity.
Qed.

(** [to_dgl_blocks] never writes to [self]. *)
Lemma to_dgl_blocks_self (mb : MiniBatch.t) : snd (transform mb) = mb.
Proof.
  destruct (MiniBatch.sampled_subgraphs mb) as [[|first rest]|] eqn:Hl.
  - unfold to_dgl_blocks, bind, gets, ret. rewrite Hl. reflexivity.
  - rewrite (to_dgl_blocks_unfold mb (first :: rest)) by congruence.
    reflexivity.
  - unfold to_dgl_blocks, bind, gets, ret. rewrite Hl. reflexivity.
Qed.

(** C10. For every minibatch whose [sampled_subgraphs] is [None] or an
    empty list, [to_dgl_blocks] returns [None]: it does not raise, it does
    not return an empty block list, and the minibatch is left as it was. *)
Theorem to_dgl_blocks_no_subgraphs (mb : MiniBatch.t) :
  MiniBatch.sampled_subgraphs mb = None \/
  MiniBatch.sampled_subgraphs mb = Some [] ->
  to_dgl_blocks etype_str_to_tuple NID EID Tensor_bool mb = (Ok None, mb).
Proof.
  unfold to_dgl_blocks, bind, gets, ret.
  intros [-> | ->]; reflexivity.
Qed.

(** A layer with a missing id field fails its assertion, in either mode,
    before anything is built for it. *)
Lemma build_block_missing is_heterogeneous (layer : SampledSubgraph) :
  layer.(original_row_node_ids) = None \/
  layer.(original_column_node_ids) = None ->
  build is_heterogeneous layer
  = Raise (AssertionError (missing_message layer)).
Proof.
  unfold build_block, missing_message, assert_not_None.
  destruct layer.(original_row_node_ids) as [row|]; simpl.
  - intros [H|H]; [discriminate|]. rewrite H. reflexivity.
  - reflexivity.
Qed.

(** C5. Block-transform precondition: when some layer of a minibatch has
    no [original_row_node_ids] or no [original_column_node_ids],
    [to_dgl_blocks] raises and returns no block list; building the block of
    such a layer fails the assertion of the missing field before
    [create_block] is reached, and that assertion is the exception raised
    when the layers before it were built. *)
Theorem to_dgl_blocks_missing_ids (mb : MiniBatch.t) layers :
  MiniBatch.sampled_subgraphs mb = Some layers ->
  (exists layer, In layer layers /\
     (layer.(original_row_node_ids) = None \/
      layer.(original_column_node_ids) = None)) ->
  (exists e,
     to_dgl_blocks etype_str_to_tuple NID EID Tensor_bool mb = (Raise e, mb))
  /\
  (forall is_heterogeneous layer, In layer layers ->
     layer.(original_row_node_ids) = None \/
     layer.(original_column_node_ids) = None ->
     build_block etype_str_to_tuple is_heterogeneous layer
     = Raise (AssertionError (missing_message layer))) /\
  (forall pre layer post,
     layers = pre ++ layer :: post ->
     Forall (fun l => exists b,
               build_block etype_str_to_tuple (is_heterogeneous_of layers) l
               = Ok b) pre ->
     layer.(original_row_node_ids) = None \/
     layer.(original_column_node_ids) = None ->
     to_dgl_blocks etype_str_to_tuple NID EID Tensor_bool mb
     = (Raise (AssertionError (missing_message layer)), mb)).
Proof.
  intros Hl (layer & Hin & Hmiss).
  assert (Hne : layers <> []) by (intros ->; inversion Hin).
  rewrite (to_dgl_blocks_unfold mb layers Hl Hne).
  split; [|split].
  - destruct (mapR_Raise_In (build (is_heterogeneous_of layers)) layers layer
                (AssertionError (missing_message layer)) Hin) as [e He].
    { apply build_block_missing. exact Hmiss. }
    rewrite He. simpl. eauto.
  - intros is_heterogeneous layer' _ Hmiss'.
    apply build_block_missing. exact Hmiss'.
  - intros pre layer' post Heq Hpre Hmiss'.
    rewrite Heq at 2.
    rewrite (mapR_Raise_first _ pre layer' post
               (AssertionError (missing_message layer'))).
    + reflexivity.
    + exact Hpre.
    + apply build_block_missing. exact Hmiss'.
Qed.

(** *** The homogeneous branch *)

(** The frames the homogeneous branch leaves in the block at index [i]. *)
Lemma assign_homogeneous_Ok node_features edge_features layers blocks blocks' :
  assign_hom node_features edge_features layers blocks = Ok blocks' ->
  exists first rest ids,
    layers = first :: rest /\
    first.(original_row_node_ids) = Some ids /\
    length blocks' = length blocks /\
    forall (i : nat) b, blocks !! i = Some b ->
      blocks' !! i = Some
        {| data_dict := b.(data_dict);
           num_src_nodes := b.(num_src_nodes);
           num_dst_nodes := b.(num_dst_nodes);
           srcdata :=
             match i with
             | O => dict_set (Name NID) ids
                      (dict_update b.(srcdata)
                         (tensor_items (node_features_of node_features)))
             | S _ => b.(srcdata)
             end;
           dstdata := b.(dstdata);
           edata :=
             (let e := dict_update b.(edata)
                         (tensor_items (edge_features_at edge_features i)) in
              match edge_ids_at layers i with
              | Some eids => dict_set (Name EID) eids e
              | None => e
              end);
           srcnodes := b.(srcnodes);
           dstnodes := b.(dstnodes);
           edges := b.(edges) |}.
Proof.
  unfold assign_homogeneous. intros H.
  apply bindR_Ok in H as (blocks1 & H1 & H).
  apply bindR_Ok in H as (blocks2 & H2 & H).
  apply bindR_Ok in H as (blocks3 & H3 & H4).
  (* node features *)
  assert (H1' : blocks1 = match blocks with
                          | [] => []
                          | b0 :: rest =>
                              fold_left (fun b kv =>
                                set_srcdata (fst kv) (snd kv) b)
                                (tensor_items (node_features_of node_features))
                                b0 :: rest
                          end).
  { assert (Hfold : foldR (fun blocks x =>
                       bindR (Ok (fst x, T (snd x))) (fun y =>
                       at_block0 (fun b =>
                         Ok (set_srcdata (fst y) (snd y) b)) blocks))
                      (node_features_of node_features) blocks = Ok blocks1).
    { destruct node_features as [[|kv nf]|]; simpl in H1 |- *;
        try exact H1.
      rewrite <- H1. destruct kv as [k v]. simpl.
      destruct (at_block0 _ blocks); simpl; [|reflexivity].
      apply foldR_ext. intros s [k' v']. reflexivity. }
    apply (foldR_at_block0 (fun x => Ok (fst x, T (snd x)))
             (fun y b => set_srcdata (fst y) (snd y) b)) in Hfold
      as (ys & Hys & ->).
    rewrite mapR_total in Hys. injection Hys as <-. reflexivity. }
  (* edge features *)
  assert (H2' : zip_update (fun block edge_feature =>
                   Ok (fold_left (fun b kv => set_edata (fst kv) (snd kv) b)
                         (tensor_items edge_feature) block))
                  blocks1
                  (match edge_features with Some l => l | None => [] end)
                = Ok blocks2).
  { assert (Hbody : forall block (edge_feature : dict FeatureKey Tensor),
              foldR (fun b '(feature_name, feature) =>
                       Ok (set_edata feature_name (T feature) b))
                edge_feature block
              = Ok (fold_left (fun b kv => set_edata (fst kv) (snd kv) b)
                      (tensor_items edge_feature) block)).
    { intros block edge_feature. revert block.
      induction edge_feature as [|[k v] l IH]; intros block; simpl;
        [reflexivity | apply IH]. }
    destruct edge_features as [[|ef efs]|].
    - simpl in H2. injection H2 as <-. destruct blocks1; reflexivity.
    - rewrite <- H2. apply zip_update_ext. intros b y. symmetry.
      apply Hbody.
    - simpl in H2. injection H2 as <-. destruct blocks1; reflexivity. }
  apply zip_update_lookup in H2' as [Hlen2 Hlook2].
  (* node ids *)
  destruct layers as [|first rest]; [discriminate|].
  destruct first.(original_row_node_ids) as [ids|] eqn:Hids; [|discriminate].
  exists first, rest, ids. split; [reflexivity|]. split; [exact Hids|].
  destruct blocks2 as [|b2 rest2]; [discriminate|].
  simpl in H3. injection H3 as <-.
  apply zip_update_lookup in H4 as [Hlen4 Hlook4].
  destruct blocks as [|b0 rest0]; [subst blocks1; discriminate|].
  subst blocks1.
  split; [cbn [length] in *; congruence|].
  intros i b Hb.
  destruct (Hlook2 i (match i with
                      | O => fold_left (fun b kv =>
                               set_srcdata (fst kv) (snd kv) b)
                               (tensor_items (node_features_of node_features))
                               b
                      | S _ => b
                      end)) as (b2' & Hb2' & Hf2).
  { destruct i; cbn in Hb |- *; [congruence | exact Hb]. }
  destruct (Hlook4 i (match i with
                      | O => set_srcdata (Name NID) ids b2'
                      | S _ => b2'
                      end)) as (b4 & Hb4 & Hf4).
  { destruct i; cbn in Hb2' |- *; [congruence | exact Hb2']. }
  rewrite Hb4. f_equal.
  assert (Hb2eq : b2' = fold_left (fun b kv => set_edata (fst kv) (snd kv) b)
                          (tensor_items (edge_features_at edge_features i))
                          (match i with
                           | O => fold_left (fun b kv =>
                                    set_srcdata (fst kv) (snd kv) b)
                                    (tensor_items
                                       (node_features_of node_features)) b
                           | S _ => b
                           end)).
  { unfold edge_features_at. destruct edge_features as [l|].
    - destruct (l !! i); [congruence | subst b2'; reflexivity].
    - rewrite lookup_nil in Hf2. subst b2'. reflexivity. }
  unfold edge_ids_at.
  assert (Hb4eq : b4 = match (first :: rest) !! i with
                       | Some layer =>
                           match layer.(original_edge_ids) with
                           | Some eids =>
                               set_edata (Name EID) eids
                                 (match i with
                                  | O => set_srcdata (Name NID) ids b2'
                                  | S _ => b2'
                                  end)
                           | None => match i with
                                     | O => set_srcdata (Name NID) ids b2'
                                     | S _ => b2'
                                     end
                           end
                       | None => match i with
                                 | O => set_srcdata (Name NID) ids b2'
                                 | S _ => b2'
                                 end
                       end).
  { destruct ((first :: rest) !! i) as [layer|]; [|exact Hf4].
    destruct layer.(original_edge_ids); congruence. }
  rewrite Hb4eq, Hb2eq. rewrite fold_set_edata.
  destruct i as [|i]; [rewrite fold_set_srcdata|];
    destruct ((first :: rest) !! _) as [layer|];
    try destruct layer.(original_edge_ids); reflexivity.
Qed.

(** *** The heterogeneous branch *)

Lemma dict_update_app {K V} `{EqDecision K} (d : dict K V) l1 l2 :
  dict_update d (l1 ++ l2) = dict_update (dict_update d l1) l2.
Proof. unfold dict_update. apply fold_left_app. Qed.

(** The reverse edge ids of one layer, assigned to its block. *)
Lemma assign_edge_ids_Ok (block : DGLBlock) (subgraph : SampledSubgraph) b' :
  bindR
    (match subgraph.(original_edge_ids) with
     | None => Ok false
     | Some (D d) => Ok (truthy d)
     | Some (T t) => Tensor_bool t
     end) (fun nonempty =>
  if nonempty : bool then
    match subgraph.(original_edge_ids) with
    | None => Raise AttributeError
    | Some ids =>
        bindR (items ids) (fun its =>
        foldR (fun b '(edge_type, reverse_ids) =>
                 bindR (etype_str_to_tuple edge_type) (fun etype =>
                 Ok (set_edges etype EID reverse_ids b)))
          its block)
    end
  else Ok block) = Ok b' ->
  exists eid',
    mapR (typed_edge_ids etype_str_to_tuple EID)
      (edge_id_items subgraph.(original_edge_ids)) = Ok eid' /\
    b' = fold_left (fun b kv =>
                      set_edges (fst (fst kv)) (snd (fst kv)) (snd kv) b)
           eid' block.
Proof.
  intros H. apply bindR_Ok in H as (nonempty & Ht & H).
  assert (Hskip : Ok block = Ok b' ->
            exists eid',
              mapR (typed_edge_ids etype_str_to_tuple EID) [] = Ok eid' /\
              b' = fold_left (fun b kv =>
                     set_edges (fst (fst kv)) (snd (fst kv)) (snd kv) b)
                     eid' block).
  { intros [= <-]. exists []. auto. }
  destruct subgraph.(original_edge_ids) as [[t|d]|]; simpl.
  - destruct nonempty; [discriminate | auto].
  - destruct nonempty.
    + simpl in H.
      apply (foldR_block (typed_edge_ids etype_str_to_tuple EID)
               (fun kv b =>
                  set_edges (fst (fst kv)) (snd (fst kv)) (snd kv) b)).
      rewrite <- H. apply foldR_ext. intros s [edge_type reverse_ids]. simpl.
      destruct (etype_str_to_tuple edge_type); reflexivity.
    + destruct d; [auto | discriminate].
  - destruct nonempty; [discriminate | auto].
Qed.

(** The frames the heterogeneous branch leaves in the block at index [i]. *)
Lemma assign_heterogeneous_Ok node_features edge_features layers blocks
    blocks' :
  assign_het node_features edge_features layers blocks = Ok blocks' ->
  exists first rest ids nf',
    layers = first :: rest /\
    first.(original_row_node_ids) = Some (D ids) /\
    mapR typed_node_feature (node_features_of node_features) = Ok nf' /\
    length blocks' = length blocks /\
    forall (i : nat) b, blocks !! i = Some b ->
      exists ef' eid',
        mapR (typed_edge_feature etype_str_to_tuple)
          (edge_features_at edge_features i) = Ok ef' /\
        mapR (typed_edge_ids etype_str_to_tuple EID)
          (edge_id_items (edge_ids_at layers i)) = Ok eid' /\
        blocks' !! i = Some
          {| data_dict := b.(data_dict);
             num_src_nodes := b.(num_src_nodes);
             num_dst_nodes := b.(num_dst_nodes);
             srcdata := b.(srcdata);
             dstdata := b.(dstdata);
             edata := b.(edata);
             srcnodes :=
               match i with
               | O => dict_update b.(srcnodes) (nf' ++ node_id_items NID ids)
               | S _ => b.(srcnodes)
               end;
             dstnodes := b.(dstnodes);
             edges := dict_update b.(edges) (ef' ++ eid') |}.
Proof.
  unfold assign_heterogeneous. intros H.
  apply bindR_Ok in H as (blocks1 & H1 & H).
  apply bindR_Ok in H as (blocks2 & H2 & H).
  apply bindR_Ok in H as (blocks3 & H3 & H4).
  (* node features *)
  assert (H1' : exists nf',
            mapR typed_node_feature (node_features_of node_features) = Ok nf'
            /\
            blocks1 = match blocks with
                      | [] => []
                      | b0 :: rest =>
                          fold_left (fun b kv =>
                            set_srcnodes (fst (fst kv)) (snd (fst kv))
                              (snd kv) b) nf' b0 :: rest
                      end).
  { apply (foldR_at_block0 typed_node_feature
             (fun kv b => set_srcnodes (fst (fst kv)) (snd (fst kv))
                            (snd kv) b)).
    assert (Hbody : forall nf s,
              foldR (fun blocks '(key, feature) =>
                       bindR (unpack2 key) (fun '(node_type, feature_name) =>
                       at_block0 (fun b =>
                         Ok (set_srcnodes node_type feature_name feature b))
                         blocks)) nf s
              = foldR (fun blocks x =>
                         bindR (typed_node_feature x) (fun y =>
                         at_block0 (fun b =>
                           Ok (set_srcnodes (fst (fst y)) (snd (fst y))
                                 (snd y) b)) blocks)) nf s).
    { intros nf s. apply foldR_ext. intros s' [key feature]. simpl.
      destruct (unpack2 key) as [[t n]|e]; reflexivity. }
    destruct node_features as [[|kv nf]|]; try exact H1.
    rewrite <- Hbody. exact H1. }
  destruct H1' as (nf' & Hnf' & ->).
  (* edge features *)
  assert (H2' : zip_update (fun block edge_feature =>
                  foldR (fun b x =>
                     bindR (typed_edge_feature etype_str_to_tuple x) (fun y =>
                     Ok (set_edges (fst (fst y)) (snd (fst y)) (snd y) b)))
                    edge_feature block)
                  (match blocks with
                   | [] => []
                   | b0 :: rest =>
                       fold_left (fun b kv =>
                         set_srcnodes (fst (fst kv)) (snd (fst kv))
                           (snd kv) b) nf' b0 :: rest
                   end)
                  (match edge_features with Some l => l | None => [] end)
                = Ok blocks2).
  { destruct edge_features as [[|ef efs]|].
    - rewrite <- H2. destruct blocks; reflexivity.
    - rewrite <- H2. apply zip_update_ext. intros b y.
      apply foldR_ext. intros s [key feature]. simpl.
      destruct (unpack2 key) as [[t n]|e]; simpl; [|reflexivity].
      destruct (etype_str_to_tuple t); reflexivity.
    - rewrite <- H2. destruct blocks; reflexivity. }
  apply zip_update_lookup in H2' as [Hlen2 Hlook2].
  (* node ids *)
  destruct layers as [|first rest]; [discriminate|].
  destruct first.(original_row_node_ids) as [ids0|] eqn:Hids; [|discriminate].
  apply bindR_Ok in H3 as (its & Hits & H3).
  destruct ids0 as [t|ids]; [discriminate|]. injection Hits as <-.
  assert (H3' : blocks3 = match blocks2 with
                          | [] => []
                          | b2 :: rest2 =>
                              fold_left (fun b kv =>
                                set_srcnodes (fst (fst kv)) (snd (fst kv))
                                  (snd kv) b) (node_id_items NID ids) b2
                                :: rest2
                          end).
  { assert (Hfold : foldR (fun blocks x =>
                       bindR (Ok ((fst x, NID), snd x)) (fun y =>
                       at_block0 (fun b =>
                         Ok (set_srcnodes (fst (fst y)) (snd (fst y))
                               (snd y) b)) blocks)) ids blocks2 = Ok blocks3).
    { rewrite <- H3. apply foldR_ext. intros s [node_type reverse_ids].
      reflexivity. }
    apply (foldR_at_block0 (fun x => Ok ((fst x, NID), snd x))
             (fun y b => set_srcnodes (fst (fst y)) (snd (fst y)) (snd y) b))
      in Hfold as (ys & Hys & ->).
    rewrite mapR_total in Hys. injection Hys as <-. reflexivity. }
  apply zip_update_lookup in H4 as [Hlen4 Hlook4].
  exists first, rest, ids, nf'.
  split; [reflexivity|]. split; [exact Hids|]. split; [exact Hnf'|].
  split.
  { rewrite Hlen4, H3'.
    destruct blocks2, blocks; cbn [length] in *; congruence. }
  intros i b Hb.
  destruct (Hlook2 i (match i with
                      | O => fold_left (fun b kv =>
                               set_srcnodes (fst (fst kv)) (snd (fst kv))
                                 (snd kv) b) nf' b
                      | S _ => b
                      end)) as (b2' & Hb2' & Hf2).
  { destruct blocks as [|b0 rest0]; [discriminate|].
    destruct i; cbn in Hb |- *; [congruence | exact Hb]. }
  destruct (Hlook4 i (match i with
                      | O => fold_left (fun b kv =>
                               set_srcnodes (fst (fst kv)) (snd (fst kv))
                                 (snd kv) b) (node_id_items NID ids) b2'
                      | S _ => b2'
                      end)) as (b4 & Hb4 & Hf4).
  { rewrite H3'. destruct blocks2 as [|b2 rest2]; [discriminate|].
    destruct i; cbn in Hb2' |- *; [congruence | exact Hb2']. }
  assert (Hef : exists ef',
            mapR (typed_edge_feature etype_str_to_tuple)
              (edge_features_at edge_features i) = Ok ef' /\
            b2' = fold_left (fun b kv =>
                    set_edges (fst (fst kv)) (snd (fst kv)) (snd kv) b) ef'
                    (match i with
                     | O => fold_left (fun b kv =>
                              set_srcnodes (fst (fst kv)) (snd (fst kv))
                                (snd kv) b) nf' b
                     | S _ => b
                     end)).
  { unfold edge_features_at. destruct edge_features as [l|].
    - destruct (l !! i) as [y|].
      + apply (foldR_block (typed_edge_feature etype_str_to_tuple)
                 (fun kv b => set_edges (fst (fst kv)) (snd (fst kv))
                                (snd kv) b)). exact Hf2.
      + exists []. split; [reflexivity | exact Hf2].
    - rewrite lookup_nil in Hf2. exists []. split; [reflexivity | exact Hf2]. }
  destruct Hef as (ef' & Hef' & Hb2eq).
  assert (Heid : exists eid',
            mapR (typed_edge_ids etype_str_to_tuple EID)
              (edge_id_items (edge_ids_at (first :: rest) i)) = Ok eid' /\
            b4 = fold_left (fun b kv =>
                   set_edges (fst (fst kv)) (snd (fst kv)) (snd kv) b) eid'
                   (match i with
                    | O => fold_left (fun b kv =>
                             set_srcnodes (fst (fst kv)) (snd (fst kv))
                               (snd kv) b) (node_id_items NID ids) b2'
                    | S _ => b2'
                    end)).
  { unfold edge_ids_at. destruct ((first :: rest) !! i) as [layer|].
    - apply assign_edge_ids_Ok. exact Hf4.
    - exists []. split; [reflexivity | exact Hf4]. }
  destruct Heid as (eid' & Heid' & Hb4eq).
  exists ef', eid'. split; [exact Hef'|]. split; [exact Heid'|].
  rewrite Hb4, Hb4eq, Hb2eq. f_equal.
  rewrite !dict_update_app.
  destruct i as [|i]; rewrite ?fold_set_edges, ?fold_set_srcnodes; reflexivity.
Qed.

(** *** The blocks of a successful transform *)

Lemma to_dgl_blocks_Ok (mb mb' : MiniBatch.t) blocks :
  transform mb = (Ok (Some blocks), mb') ->
  exists layers blocks0,
    MiniBatch.sampled_subgraphs mb = Some layers /\
    layers <> [] /\
    mapR (build (is_heterogeneous_of layers)) layers = Ok blocks0 /\
    (if is_heterogeneous_of layers
     then assign_het (MiniBatch.node_features mb)
            (MiniBatch.edge_features mb) layers blocks0
     else assign_hom (MiniBatch.node_features mb)
            (MiniBatch.edge_features mb) layers blocks0) = Ok blocks.
Proof.
  intros H.
  destruct (MiniBatch.sampled_subgraphs mb) as [[|first rest]|] eqn:Hl.
  - rewrite to_dgl_blocks_no_subgraphs in H by auto. discriminate.
  - rewrite (to_dgl_blocks_unfold mb (first :: rest)) in H by congruence.
    exists (first :: rest).
    destruct (mapR _ (first :: rest)) as [blocks0|e]; [|discriminate].
    exists blocks0. cbn [bindR] in H. injection H as H _.
    apply bindR_Ok in H as (bs & Hbs & [= ->]).
    split; [reflexivity|]. split; [congruence|]. split; [reflexivity|].
    exact Hbs.
  - rewrite to_dgl_blocks_no_subgraphs in H by auto. discriminate.
Qed.

(** The block built for a layer: what [create_block] was given. *)
Lemma build_block_Ok is_heterogeneous (layer : SampledSubgraph) b :
  build is_heterogeneous layer = Ok b ->
  exists row col,
    layer.(original_row_node_ids) = Some row /\
    layer.(original_column_node_ids) = Some col /\
    if is_heterogeneous then
      exists r c typed,
        row = D r /\ col = D c /\
        typed_node_pairs etype_str_to_tuple layer.(node_pairs) = Ok typed /\
        b = create_block (TypedEdgeLists typed)
              (NumDict (dict_of_items
                 (map (fun '(ntype, nodes) => (ntype, size0 nodes)) r)))
              (NumDict (dict_of_items
                 (map (fun '(ntype, nodes) => (ntype, size0 nodes)) c)))
    else
      exists r c,
        row = T r /\ col = T c /\
        b = create_block (EdgeList layer.(node_pairs))
              (NumInt (size0 r)) (NumInt (size0 c)).
Proof.
  unfold build_block. intros H.
  apply bindR_Ok in H as (row & Hrow & H).
  apply bindR_Ok in H as (col & Hcol & H).
  exists row, col.
  destruct layer.(original_row_node_ids); [|discriminate].
  destruct layer.(original_column_node_ids); [|discriminate].
  simpl in Hrow, Hcol. injection Hrow as ->. injection Hcol as ->.
  split; [reflexivity|]. split; [reflexivity|].
  destruct is_heterogeneous.
  - apply bindR_Ok in H as (typed & Htyped & H).
    apply bindR_Ok in H as (n1 & Hn1 & H).
    apply bindR_Ok in H as (n2 & Hn2 & H).
    unfold num_nodes_dict in Hn1, Hn2.
    destruct row as [t|r]; [discriminate|].
    destruct col as [t|c]; [discriminate|].
    simpl in Hn1, Hn2. exists r, c, typed. repeat split; congruence.
  - apply bindR_Ok in H as (n1 & Hn1 & H).
    apply bindR_Ok in H as (n2 & Hn2 & H).
    destruct row as [r|d]; [|discriminate].
    destruct col as [c|d]; [|discriminate].
    simpl in Hn1, Hn2. exists r, c. repeat split; congruence.
Qed.

(** The edge lists of a heterogeneous block: one item per entry of the
    layer's [node_pairs], with the edge type converted and the pair kept. *)
Lemma typed_node_pairs_Ok p typed :
  typed_node_pairs etype_str_to_tuple p = Ok typed ->
  exists d items,
    p = PairsDict d /\
    Forall2 (fun kv ev => etype_str_to_tuple (fst kv) = Ok (fst ev) /\
                          snd ev = snd kv) d items /\
    typed = dict_of_items items.
Proof.
  destruct p as [p|d]; [discriminate|]. simpl. intros H.
  apply bindR_Ok in H as (items & Hitems & [= <-]).
  exists d, items. split; [reflexivity|]. split; [|reflexivity].
  apply mapR_Ok_Forall2 in Hitems.
  eapply Forall2_impl; [exact Hitems|].
  intros [etype v] ev H. simpl in H.
  apply bindR_Ok in H as (e & He & [= <-]). auto.
Qed.

(** The converted items are the entries of the layer, edge type by edge
    type. *)
Lemma converted_items_In (d : dict string (Tensor * Tensor))
    (items : dict EType (Tensor * Tensor)) :
  Forall2 (fun kv ev => etype_str_to_tuple (fst kv) = Ok (fst ev) /\
                        snd ev = snd kv) d items ->
  forall e v,
    In (e, v) items <->
    exists etype, In (etype, v) d /\ etype_str_to_tuple etype = Ok e.
Proof.
  induction 1 as [|[etype0 v0] [e0 v0'] d items [He0 Hv0] _ IH];
    intros e v; simpl in *.
  - split; [tauto | intros (etype & [] & _)].
  - subst v0'. rewrite IH. split.
    + intros [[= <- <-]|(etype & Hin & He)]; eauto.
    + intros (etype & [[= <- <-]|Hin] & He).
      * left. congruence.
      * right. eauto.
Qed.

(** C6. Block dimensions: in the block list of a transform that returns,
    the block at the index of a layer was created from that layer: its
    source-node count is the number of entries of the layer's
    [original_row_node_ids], its destination-node count the number of
    entries of its [original_column_node_ids], per node type in the
    heterogeneous case, and its edge list is the layer's [node_pairs]. In
    the heterogeneous case the edge lists are the dict made of the entries
    of the layer's [node_pairs] with each edge type converted to its tuple
    and its pair of tensors kept: its keys are the converted edge types,
    every pair in it is the pair of an edge type of the layer, and when the
    converted edge types are distinct it has the layer's entries one by
    one, in order. *)
Theorem to_dgl_blocks_dimensions (mb mb' : MiniBatch.t) blocks :
  to_dgl_blocks etype_str_to_tuple NID EID Tensor_bool mb
  = (Ok (Some blocks), mb') ->
  exists layers,
    MiniBatch.sampled_subgraphs mb = Some layers /\
    length blocks = length layers /\
    forall (i : nat) layer, layers !! i = Some layer ->
      exists block row col,
        blocks !! i = Some block /\
        layer.(original_row_node_ids) = Some row /\
        layer.(original_column_node_ids) = Some col /\
        if is_heterogeneous_of layers then
          exists r c d items typed,
            row = D r /\ col = D c /\
            layer.(node_pairs) = PairsDict d /\
            block.(data_dict) = TypedEdgeLists typed /\
            Forall2 (fun kv ev =>
                       etype_str_to_tuple (fst kv) = Ok (fst ev) /\
                       snd ev = snd kv) d items /\
            typed = dict_of_items items /\
            (forall e, In e (dict_keys typed) <->
               exists etype v,
                 In (etype, v) d /\ etype_str_to_tuple etype = Ok e) /\
            (forall e v, dict_get e typed = Some v ->
               exists etype,
                 In (etype, v) d /\ etype_str_to_tuple etype = Ok e) /\
            (NoDup (dict_keys items) ->
             typed = items /\
             forall etype v e,
               In (etype, v) d -> etype_str_to_tuple etype = Ok e ->
               dict_get e typed = Some v) /\
            block.(num_src_nodes)
            = NumDict (dict_of_items
                (map (fun '(ntype, nodes) => (ntype, size0 nodes)) r)) /\
            block.(num_dst_nodes)
            = NumDict (dict_of_items
                (map (fun '(ntype, nodes) => (ntype, size0 nodes)) c)) /\
            (NoDup (dict_keys r) ->
             block.(num_src_nodes)
             = NumDict (map (fun '(ntype, nodes) => (ntype, size0 nodes)) r))
            /\
            (NoDup (dict_keys c) ->
             block.(num_dst_nodes)
             = NumDict (map (fun '(ntype, nodes) => (ntype, size0 nodes)) c))
        else
          exists r c,
            row = T r /\ col = T c /\
            block.(data_dict) = EdgeList layer.(node_pairs) /\
            block.(num_src_nodes) = NumInt (Z.of_nat (length r)) /\
            block.(num_dst_nodes) = NumInt (Z.of_nat (length c)).
Proof.
  intros H.
  apply to_dgl_blocks_Ok in H
    as (layers & blocks0 & Hl & Hne & Hbuild & Hassign).
  exists layers. split; [exact Hl|].
  pose proof (mapR_length _ _ _ Hbuild) as Hlen0.
  apply mapR_Ok_Forall2 in Hbuild.
  assert (Hkeys : forall r : dict string Tensor,
            dict_keys (map (fun '(ntype, nodes) => (ntype, size0 nodes)) r)
            = dict_keys r).
  { intros r. unfold dict_keys. rewrite map_map. apply map_ext.
    intros [k v]. reflexivity. }
  destruct (is_heterogeneous_of layers) eqn:Hmode.
  - apply assign_heterogeneous_Ok in Hassign
      as (first & rest & ids & nf' & _ & _ & _ & Hlen & Hblocks).
    split; [congruence|].
    intros i layer Hlayer.
    destruct (Forall2_lookup_l _ _ _ _ _ Hbuild Hlayer) as (b0 & Hb0 & Hb).
    apply build_block_Ok in Hb
      as (row & col & Hrow & Hcol & r & c & typed & -> & -> & Htyped & ->).
    destruct (Hblocks i _ Hb0) as (ef' & eid' & _ & _ & Hblock).
    apply typed_node_pairs_Ok in Htyped as (d & items & Hd & Hitems & ->).
    pose proof (converted_items_In d items Hitems) as Hin.
    eexists _, (D r), (D c). split; [exact Hblock|].
    split; [exact Hrow|]. split; [exact Hcol|].
    exists r, c, d, items, (dict_of_items items). cbn.
    split; [reflexivity|]. split; [reflexivity|]. split; [exact Hd|].
    split; [reflexivity|]. split; [exact Hitems|]. split; [reflexivity|].
    split; [|split; [|split; [|split; [|split; [|split]]]]].
    + intros e. unfold dict_of_items. rewrite dict_keys_update.
      unfold dict_keys. simpl. rewrite in_map_iff. split.
      * intros [([e' v] & <- & Hev)|[]]. simpl.
        apply Hin in Hev as (etype & Hd' & He). eauto.
      * intros (etype & v & Hd' & He). left. exists (e, v).
        split; [reflexivity|]. apply Hin. eauto.
    + intros e v Hget. unfold dict_of_items in Hget.
      apply dict_get_update_Some in Hget as [Hev|Hnil]; [|discriminate].
      apply Hin. exact Hev.
    + intros Hnd. split; [apply dict_of_items_NoDup; exact Hnd|].
      intros etype v e Hd' He.
      unfold dict_of_items.
      apply dict_get_update_in; [exact Hnd|]. apply Hin. eauto.
    + reflexivity.
    + reflexivity.
    + intros Hnd. rewrite dict_of_items_NoDup; [reflexivity|].
      rewrite Hkeys. exact Hnd.
    + intros Hnd. rewrite dict_of_items_NoDup; [reflexivity|].
      rewrite Hkeys. exact Hnd.
  - apply assign_homogeneous_Ok in Hassign
      as (first & rest & ids & _ & _ & Hlen & Hblocks).
    split; [congruence|].
    intros i layer Hlayer.
    destruct (Forall2_lookup_l _ _ _ _ _ Hbuild Hlayer) as (b0 & Hb0 & Hb).
    apply build_block_Ok in Hb
      as (row & col & Hrow & Hcol & r & c & -> & -> & ->).
    eexists _, (T r), (T c). split; [exact (Hblocks i _ Hb0)|].
    split; [exact Hrow|]. split; [exact Hcol|].
    exists r, c. cbn. repeat split.
Qed.

Lemma dict_get_tensor_items (d : dict FeatureKey Tensor) k :
  dict_get k (tensor_items d) = option_map T (dict_get k d).
Proof.
  induction d as [|[k0 v0] d IH]; simpl; [reflexivity|].
  destruct (decide (k = k0)); [reflexivity | exact IH].
Qed.

Lemma dict_keys_tensor_items (d : dict FeatureKey Tensor) :
  dict_keys (tensor_items d) = dict_keys d.
Proof.
  unfold dict_keys, tensor_items. rewrite map_map. reflexivity.
Qed.

(** A feature of a feature dict is in the frame made of its items. *)
Lemma dict_get_of_tensor_items (d : dict FeatureKey Tensor) k v :
  NoDup (dict_keys d) -> dict_get k d = Some v ->
  dict_get k (dict_of_items (tensor_items d)) = Some (T v).
Proof.
  intros Hnd Hk. rewrite dict_of_items_NoDup.
  - rewrite dict_get_tensor_items, Hk. reflexivity.
  - rewrite dict_keys_tensor_items. exact Hnd.
Qed.

(** C7. Feature attachment frame: in the block list of a transform that
    returns, node features are in the source frames of the block at index 0,
    together with the row ids of the first layer under [NID]; the source
    frames of every other block and the destination frames of every block
    are empty; the edge frames of the block at index [i] hold the edge
    features at index [i] of the feature list, those of blocks beyond the
    end of that list hold none, and the layer's edge ids come on top under
    [EID]. In the heterogeneous branch the keys are first turned into
    (type, name) frame entries. *)
Theorem to_dgl_blocks_features (mb mb' : MiniBatch.t) blocks :
  to_dgl_blocks etype_str_to_tuple NID EID Tensor_bool mb
  = (Ok (Some blocks), mb') ->
  let nf := node_features_of (MiniBatch.node_features mb) in
  let ef := edge_features_at (MiniBatch.edge_features mb) in
  exists layers first rest ids,
    MiniBatch.sampled_subgraphs mb = Some layers /\
    layers = first :: rest /\
    first.(original_row_node_ids) = Some ids /\
    length blocks = length layers /\
    forall (i : nat) block, blocks !! i = Some block ->
      block.(dstdata) = [] /\ block.(dstnodes) = [] /\
      if is_heterogeneous_of layers then
        block.(srcdata) = [] /\ block.(edata) = [] /\
        exists idsd nf' ef' eid',
          ids = D idsd /\
          mapR typed_node_feature nf = Ok nf' /\
          mapR (typed_edge_feature etype_str_to_tuple) (ef i) = Ok ef' /\
          mapR (typed_edge_ids etype_str_to_tuple EID)
            (edge_id_items (edge_ids_at layers i)) = Ok eid' /\
          block.(srcnodes)
          = match i with
            | O => dict_update [] (nf' ++ node_id_items NID idsd)
            | S _ => []
            end /\
          block.(edges) = dict_update [] (ef' ++ eid')
      else
        block.(srcnodes) = [] /\ block.(edges) = [] /\
        block.(srcdata)
        = match i with
          | O => dict_set (Name NID) ids (dict_of_items (tensor_items nf))
          | S _ => []
          end /\
        block.(edata)
        = (let e := dict_of_items (tensor_items (ef i)) in
           match edge_ids_at layers i with
           | Some eids => dict_set (Name EID) eids e
           | None => e
           end) /\
        (i = 0%nat -> NoDup (dict_keys nf) ->
         forall k v, dict_get k nf = Some v -> k <> Name NID ->
           dict_get k block.(srcdata) = Some (T v)) /\
        (NoDup (dict_keys (ef i)) ->
         forall k v, dict_get k (ef i) = Some v -> k <> Name EID ->
           dict_get k block.(edata) = Some (T v)).
Proof.
  intros H nf ef.
  apply to_dgl_blocks_Ok in H
    as (layers & blocks0 & Hl & Hne & Hbuild & Hassign).
  pose proof (mapR_length _ _ _ Hbuild) as Hlen0.
  apply mapR_Ok_Forall2 in Hbuild.
  assert (Hcreated : forall (i : nat) b0, blocks0 !! i = Some b0 ->
            b0.(srcdata) = [] /\ b0.(dstdata) = [] /\ b0.(edata) = [] /\
            b0.(srcnodes) = [] /\ b0.(dstnodes) = [] /\ b0.(edges) = []).
  { intros i b0 Hb0.
    destruct (Forall2_lookup_r _ _ _ _ _ Hbuild Hb0) as (layer & _ & Hb).
    apply build_block_Ok in Hb as (row & col & _ & _ & Hb).
    destruct (is_heterogeneous_of layers).
    - destruct Hb as (r & c & typed & _ & _ & _ & ->). repeat split.
    - destruct Hb as (r & c & _ & _ & ->). repeat split. }
  exists layers.
  destruct (is_heterogeneous_of layers) eqn:Hmode.
  - apply assign_heterogeneous_Ok in Hassign
      as (first & rest & idsd & nf' & Hlayers & Hids & Hnf & Hlen & Hblocks).
    exists first, rest, (D idsd).
    split; [exact Hl|]. split; [exact Hlayers|]. split; [exact Hids|].
    split; [congruence|].
    intros i block Hblock.
    destruct (lookup_lt_is_Some_2 blocks0 i) as [b0 Hb0].
    { rewrite <- Hlen. eapply lookup_lt_Some. exact Hblock. }
    destruct (Hcreated i b0 Hb0) as (Hs & Hd & He & Hsn & Hdn & Heg).
    destruct (Hblocks i b0 Hb0) as (ef' & eid' & Hef & Heid & Hfinal).
    rewrite Hblock in Hfinal. injection Hfinal as ->. cbn.
    rewrite Hs, Hd, He, Hsn, Hdn, Heg.
    repeat split.
    exists idsd, nf', ef', eid'. repeat split; try assumption.
  - apply assign_homogeneous_Ok in Hassign
      as (first & rest & ids & Hlayers & Hids & Hlen & Hblocks).
    exists first, rest, ids.
    split; [exact Hl|]. split; [exact Hlayers|]. split; [exact Hids|].
    split; [congruence|].
    intros i block Hblock.
    destruct (lookup_lt_is_Some_2 blocks0 i) as [b0 Hb0].
    { rewrite <- Hlen. eapply lookup_lt_Some. exact Hblock. }
    destruct (Hcreated i b0 Hb0) as (Hs & Hd & He & Hsn & Hdn & Heg).
    pose proof (Hblocks i b0 Hb0) as Hfinal.
    rewrite Hblock in Hfinal. injection Hfinal as ->. cbn.
    rewrite Hs, Hd, He, Hsn, Hdn, Heg.
    repeat split.
    + intros -> Hnd k v Hk Hne'.
      rewrite dict_get_set_ne by exact Hne'.
      apply dict_get_of_tensor_items; assumption.
    + intros Hnd k v Hk Hne'.
      fold (dict_of_items (tensor_items (ef i))).
      destruct (edge_ids_at layers i).
      * rewrite dict_get_set_ne by exact Hne'.
        apply dict_get_of_tensor_items; assumption.
      * apply dict_get_of_tensor_items; assumption.
Qed.

(** The source frames of the blocks after the first are empty. *)
Lemma to_dgl_blocks_source_frames (mb mb' : MiniBatch.t) blocks :
  transform mb = (Ok (Some blocks), mb') ->
  forall (i : nat) block, blocks !! i = Some block -> i <> 0%nat ->
    block.(srcdata) = [] /\ block.(srcnodes) = [].
Proof.
  intros H i block Hblock Hi.
  apply to_dgl_blocks_Ok in H
    as (layers & blocks0 & Hl & Hne & Hbuild & Hassign).
  apply mapR_Ok_Forall2 in Hbuild.
  assert (Hcreated : forall b0, blocks0 !! i = Some b0 ->
            b0.(srcdata) = [] /\ b0.(srcnodes) = []).
  { intros b0 Hb0.
    destruct (Forall2_lookup_r _ _ _ _ _ Hbuild Hb0) as (layer & _ & Hb).
    apply build_block_Ok in Hb as (row & col & _ & _ & Hb).
    destruct (is_heterogeneous_of layers).
    - destruct Hb as (r & c & typed & _ & _ & _ & ->). split; reflexivity.
    - destruct Hb as (r & c & _ & _ & ->). split; reflexivity. }
  destruct (is_heterogeneous_of layers).
  - apply assign_heterogeneous_Ok in Hassign
      as (first & rest & idsd & nf' & _ & _ & _ & Hlen & Hblocks).
    destruct (lookup_lt_is_Some_2 blocks0 i) as [b0 Hb0].
    { rewrite <- Hlen. eapply lookup_lt_Some. exact Hblock. }
    destruct (Hcreated b0 Hb0) as [Hs Hsn].
    destruct (Hblocks i b0 Hb0) as (ef' & eid' & _ & _ & Hfinal).
    rewrite Hblock in Hfinal. injection Hfinal as ->.
    destruct i; [congruence|]. cbn. auto.
  - apply assign_homogeneous_Ok in Hassign
      as (first & rest & ids & _ & _ & Hlen & Hblocks).
    destruct (lookup_lt_is_Some_2 blocks0 i) as [b0 Hb0].
    { rewrite <- Hlen. eapply lookup_lt_Some. exact Hblock. }
    destruct (Hcreated b0 Hb0) as [Hs Hsn].
    pose proof (Hblocks i b0 Hb0) as Hfinal.
    rewrite Hblock in Hfinal. injection Hfinal as ->.
    destruct i; [congruence|]. cbn. auto.
Qed.

End BlockFacts.

(** ** The outermost layer *)

Section OutermostLayer.
Context {Oracle DataPipe : Type}.
Variable unique_and_compact_node_pairs :
  NodePairs -> TensorOrDict -> Result (TensorOrDict * NodePairs).
Variable etype_str_to_tuple : string -> Result EType.
Variables NID EID : string.
Variable Tensor_bool : Tensor -> Result bool.

(** C4, amended. In the layer list of a sampled minibatch, the outermost
    layer, the one whose row ids are the minibatch's [input_nodes], is first
    in iteration order: it is at index 0, the index of the only block whose
    source frames [to_dgl_blocks] writes node features to. *)
Theorem outermost_layer_first (self : NeighborSampler Oracle DataPipe)
    (minibatch : MiniBatch.t) seeds st mb st' :
  (0 < length self.(fanouts))%nat ->
  sample_minibatch unique_and_compact_node_pairs self minibatch seeds st
  = (Ok mb, st') ->
  exists layer rest,
    MiniBatch.sampled_subgraphs mb = Some (layer :: rest) /\
    layer.(original_row_node_ids) = MiniBatch.input_nodes mb /\
    forall blocks mb'',
      to_dgl_blocks etype_str_to_tuple NID EID Tensor_bool mb
      = (Ok (Some blocks), mb'') ->
      forall (i : nat) block, blocks !! i = Some block -> i <> 0%nat ->
        block.(srcdata) = [] /\ block.(srcnodes) = [].
Proof.
  intros HL H. unfold sample_minibatch in H.
  apply bind_Ok in H as ([seeds' subgraphs] & st1 & Hrun & Hret).
  unfold ret in Hret. injection Hret as <- <-.
  pose proof (sample_subgraphs_length _ _ _ _ _ _ _ Hrun) as Hlen.
  apply sample_subgraphs_hops_run in Hrun as (steps & Hsteps & _ & ->).
  destruct (hops_run_chained _ _ _ _ _ _ _ _ Hsteps []) as [Hhead _].
  { discriminate. }
  { intros j a b Ha. discriminate. }
  rewrite app_nil_r in Hhead.
  destruct (reverse (step_layer <$> steps)) as [|layer rest] eqn:Hrev.
  { simpl in Hlen. lia. }
  exists layer, rest. split; [reflexivity|]. split.
  - apply Hhead. reflexivity.
  - intros blocks mb'' Hblocks.
    eapply to_dgl_blocks_source_frames. exact Hblocks.
Qed.

End OutermostLayer.

(** ** The properties on the concrete graph *)

(** C4, as stated, fails: sampling three hops from the seed [0] on the graph
    of the docstring gives the input nodes [1, 2, 4, 5], and the last layer
    of the list has the row ids [1, 2]. *)
Lemma outermost_layer_last_fails :
  match sample_minibatch Example.unique_and_compact_node_pairs
          Example.neighbor_sampler Example.minibatch (T [0]) Example.start
  with
  | (Ok mb, _) => ~ outermost_layer_last mb
  | (Raise _, _) => False
  end.
Proof.
  vm_compute. intros H.
  specialize (H _ _ eq_refl eq_refl). discriminate.
Qed.

Lemma outermost_layer_first_witness :
  exists mb st' layer rest,
    sample_minibatch Example.unique_and_compact_node_pairs
      Example.neighbor_sampler Example.minibatch (T [0]) Example.start
    = (Ok mb, st') /\
    MiniBatch.sampled_subgraphs mb = Some (layer :: rest) /\
    layer.(original_row_node_ids) = MiniBatch.input_nodes mb.
Proof.
  destruct (sample_minibatch Example.unique_and_compact_node_pairs
              Example.neighbor_sampler Example.minibatch (T [0])
              Example.start) as [[mb|e] st'] eqn:Hrun.
  - destruct (outermost_layer_first Example.unique_and_compact_node_pairs
                Example.etype_str_to_tuple "_ID" "_ID" Example.Tensor_bool
                Example.neighbor_sampler Example.minibatch (T [0])
                Example.start mb st') as (layer & rest & Hl & Hrow & _).
    + simpl. lia.
    + exact Hrun.
    + exists mb, st', layer, rest. auto.
  - exfalso. vm_compute in Hrun. discriminate.
Defined.

Lemma sample_subgraphs_chained_witness :
  exists seeds' subgraphs st' a b,
    _sample_subgraphs Example.unique_and_compact_node_pairs
      Example.neighbor_sampler (T [0]) Example.start
    = (Ok (seeds', subgraphs), st') /\
    subgraphs !! 0%nat = Some a /\ subgraphs !! 1%nat = Some b /\
    original_column_node_ids a = original_row_node_ids b.
Proof.
  destruct (_sample_subgraphs Example.unique_and_compact_node_pairs
              Example.neighbor_sampler (T [0]) Example.start)
    as [[[seeds' subgraphs]|e] st'] eqn:Hrun.
  - destruct (sample_subgraphs_chained _ _ _ _ _ _ _ Hrun 0%nat)
      as (a & b & Ha & Hb & Hab).
    + simpl. lia.
    + exists seeds', subgraphs, st', a, b. auto.
  - exfalso. vm_compute in Hrun. discriminate.
Defined.

Lemma sample_subgraphs_returns_L_layers_witness :
  exists seeds' subgraphs st',
    _sample_subgraphs Example.unique_and_compact_node_pairs
      Example.neighbor_sampler (T [0]) Example.start
    = (Ok (seeds', subgraphs), st') /\
    length subgraphs = 3%nat.
Proof.
  apply (sample_subgraphs_returns_L_layers
           Example.unique_and_compact_node_pairs Example.neighbor_sampler
           (T [0]) Example.start Example.visited).
  - left. reflexivity.
  - intros s fanout o Hs Hf.
    destruct Hs as [-> | [-> | [-> | ->]]];
      destruct Hf as [<- | [<- | [<- | []]]];
      eexists _, _, _, _;
      (split; [vm_compute; reflexivity|]);
      (split; [vm_compute; reflexivity|]);
      unfold Example.visited; tauto.
Defined.

Lemma sample_subgraphs_order_witness :
  exists seeds' subgraphs st' steps,
    _sample_subgraphs Example.unique_and_compact_node_pairs
      Example.neighbor_sampler (T [0]) Example.start
    = (Ok (seeds', subgraphs), st') /\
    calls st' = map step_call steps /\
    length steps = 3%nat /\
    forall (hop : nat) s, steps !! hop = Some s ->
      subgraphs !! (3 - 1 - hop)%nat = Some (step_layer s).
Proof.
  destruct (_sample_subgraphs Example.unique_and_compact_node_pairs
              Example.neighbor_sampler (T [0]) Example.start)
    as [[[seeds' subgraphs]|e] st'] eqn:Hrun.
  - destruct (sample_subgraphs_order _ _ _ _ _ _ _ Hrun)
      as (steps & Hcalls & Hlen & _ & Hidx & _).
    exists seeds', subgraphs, st', steps.
    split; [reflexivity|]. split; [exact Hcalls|]. split; [exact Hlen|].
    intros hop s Hs. apply (Hidx hop s Hs).
  - exfalso. vm_compute in Hrun. discriminate.
Defined.

Lemma sample_subgraphs_enriches_seeds_witness :
  exists e c rest,
    enrich_seeds Example.typed_sampler (D [("item", [3])]) = D e /\
    dict_get "user" e = Some [] /\
    dict_get "item" e = Some [3] /\
    calls (snd (_sample_subgraphs Example.unique_and_compact_node_pairs
                  Example.typed_sampler (D [("item", [3])]) Example.start))
    = c :: rest /\
    call_seeds c = D e.
Proof.
  destruct (sample_subgraphs_enriches_seeds
              Example.unique_and_compact_node_pairs Example.typed_sampler
              [("item", [3])] Example.start)
    as (e & He & _ & _ & Hget & Hfirst & _).
  destruct Hfirst as (c & rest & Hcalls & Hc); [simpl; lia|].
  exists e, c, rest. split; [exact He|].
  split; [apply (Hget "user"); simpl; auto|].
  split; [apply (Hget "item"); simpl; auto|].
  split; [exact Hcalls | exact Hc].
Defined.

Lemma to_dgl_blocks_no_subgraphs_witness :
  MiniBatch.sampled_subgraphs Example.minibatch = None /\
  Example.to_dgl_blocks Example.minibatch = (Ok None, Example.minibatch).
Proof.
  split; [reflexivity|].
  apply (to_dgl_blocks_no_subgraphs Example.etype_str_to_tuple "_ID" "_ID"
           Example.Tensor_bool Example.minibatch).
  left. reflexivity.
Defined.

Lemma to_dgl_blocks_missing_ids_witness :
  Example.to_dgl_blocks Example.minibatch_missing
  = (Raise (AssertionError
              "Missing `original_row_node_ids` in sampled subgraph."),
     Example.minibatch_missing).
Proof.
  destruct (to_dgl_blocks_missing_ids Example.etype_str_to_tuple "_ID" "_ID"
              Example.Tensor_bool Example.minibatch_missing
              [ SampledSubgraphImpl (Pairs ([0; 1; 2], [0; 0; 1]))
                  (Some (T [1; 2])) (Some (T [0; 3; 5])) None;
                SampledSubgraphImpl (Pairs ([0; 1], [0; 0]))
                  (Some (T [0])) None None ])
    as (_ & _ & Hfirst).
  - reflexivity.
  - eexists. split; [right; left; reflexivity|]. left. reflexivity.
  - apply (Hfirst
             [SampledSubgraphImpl (Pairs ([0; 1; 2], [0; 0; 1]))
                (Some (T [1; 2])) (Some (T [0; 3; 5])) None]
             (SampledSubgraphImpl (Pairs ([0; 1], [0; 0]))
                (Some (T [0])) None None) []).
    + reflexivity.
    + constructor; [|constructor]. eexists. vm_compute. reflexivity.
    + left. reflexivity.
Defined.

Lemma to_dgl_blocks_dimensions_witness :
  (exists blocks mb' block,
     Example.to_dgl_blocks Example.minibatch2 = (Ok (Some blocks), mb') /\
     blocks !! 0%nat = Some block /\
     block.(num_src_nodes) = NumInt 3 /\
     block.(num_dst_nodes) = NumInt 2 /\
     block.(data_dict) = EdgeList (Pairs ([0; 1; 2], [0; 0; 1]))) /\
  (exists blocks mb' block,
     Example.to_dgl_blocks Example.typed_minibatch
     = (Ok (Some blocks), mb') /\
     blocks !! 0%nat = Some block /\
     block.(num_src_nodes) = NumDict [("user", 2); ("item", 1)] /\
     block.(num_dst_nodes) = NumDict [("user", 0); ("item", 1)] /\
     block.(data_dict)
     = TypedEdgeLists [(("user", "buys", "item"), ([0; 1], [0; 0]))]).
Proof.
  split.
  - destruct (Example.to_dgl_blocks Example.minibatch2)
      as [[[blocks|]|e] mb'] eqn:Hrun;
      [| exfalso; vm_compute in Hrun; discriminate
       | exfalso; vm_compute in Hrun; discriminate].
    destruct (to_dgl_blocks_dimensions Example.etype_str_to_tuple "_ID" "_ID"
                Example.Tensor_bool Example.minibatch2 mb' blocks Hrun)
      as (layers & Hl & _ & Hall).
    injection Hl as <-.
    destruct (Hall 0%nat _ eq_refl)
      as (block & row & col & Hb & Hrow & Hcol
          & r & c & -> & -> & Hd & Hs & Ht).
    injection Hrow as <-. injection Hcol as <-.
    exists blocks, mb', block. auto.
  - destruct (Example.to_dgl_blocks Example.typed_minibatch)
      as [[[blocks|]|e] mb'] eqn:Hrun;
      [| exfalso; vm_compute in Hrun; discriminate
       | exfalso; vm_compute in Hrun; discriminate].
    destruct (to_dgl_blocks_dimensions Example.etype_str_to_tuple "_ID" "_ID"
                Example.Tensor_bool Example.typed_minibatch mb' blocks Hrun)
      as (layers & Hl & _ & Hall).
    injection Hl as <-.
    destruct (Hall 0%nat _ eq_refl)
      as (block & row & col & Hb & Hrow & Hcol & Hblock).
    change (is_heterogeneous_of Example.typed_layers) with true in Hblock.
    destruct Hblock
      as (r & c & d & items & typed & -> & -> & Hd & Hdata & Hitems & ->
          & _ & _ & _ & Hs & Ht & _).
    injection Hrow as <-. injection Hcol as <-. injection Hd as <-.
    apply Forall2_cons_inv_l in Hitems
      as ([e v] & items' & [He Hv] & Hnil & ->).
    apply Forall2_nil_inv_l in Hnil as ->.
    simpl in He, Hv. vm_compute in He. injection He as <-. subst v.
    exists blocks, mb', block. split; [reflexivity|].
    split; [exact Hb|]. split; [exact Hs|]. split; [exact Ht | exact Hdata].
Defined.

Lemma to_dgl_blocks_features_witness :
  exists blocks mb' b0 b1,
    Example.to_dgl_blocks Example.minibatch2 = (Ok (Some blocks), mb') /\
    blocks = [b0; b1] /\
    dict_get (Name "feat") b0.(srcdata) = Some (T [10; 13; 15]) /\
    dict_get (Name "weight") b0.(edata) = Some (T [7; 8; 9]) /\
    b1.(srcdata) = [] /\ b1.(edata) = [].
Proof.
  destruct (Example.to_dgl_blocks Example.minibatch2)
    as [[[blocks|]|e] mb'] eqn:Hrun;
    [| exfalso; vm_compute in Hrun; discriminate
     | exfalso; vm_compute in Hrun; discriminate].
  destruct (to_dgl_blocks_features Example.etype_str_to_tuple "_ID" "_ID"
              Example.Tensor_bool Example.minibatch2 mb' blocks Hrun)
    as (layers & first & rest & ids & Hl & -> & Hids & Hlen & Hall).
  injection Hl as <- <-.
  destruct blocks as [|b0 [|b1 [|b2 blocks]]]; try discriminate.
  exists [b0; b1], mb', b0, b1.
  split; [reflexivity|]. split; [reflexivity|].
  destruct (Hall 0%nat b0 eq_refl) as (_ & _ & _ & _ & _ & _ & Hs0 & He0).
  destruct (Hall 1%nat b1 eq_refl) as (_ & _ & _ & _ & Hs1 & He1 & _).
  split; [|split; [|split]].
  - apply Hs0; [reflexivity | | reflexivity | discriminate].
    repeat constructor. intros Hin. inversion Hin.
  - apply He0; [| reflexivity | discriminate].
    repeat constructor. intros Hin. inversion Hin.
  - exact Hs1.
  - exact He1.
Defined.

Lemma layer_sampler_refinement_witness :
  exists ns ls,
    NeighborSampler_init tt Example.csc_graph [FanoutInt 1; FanoutTensor [2]]
      true (Some "w") = Ok ns /\
    LayerNeighborSampler_init tt Example.csc_graph
      [FanoutInt 1; FanoutTensor [2]] true (Some "w") = Ok ls /\
    ls.(sampler)
    = {| bm_self := Example.csc_graph;
         bm_func := sample_layer_neighbors_name |} /\
    forall seeds st, exists log,
      _sample_subgraphs Example.unique_and_compact_node_pairs ls seeds st
      = (fst (spec_sample Example.unique_and_compact_node_pairs
                (Example.sample_by Example.take_last) Example.csc_graph
                [[1]; [2]] true (Some "w") seeds (oracle st)),
         {| oracle :=
              snd (spec_sample Example.unique_and_compact_node_pairs
                     (Example.sample_by Example.take_last) Example.csc_graph
                     [[1]; [2]] true (Some "w") seeds (oracle st));
            calls := calls st ++ log |}) /\
      Forall (fun c => call_prob_name c = Some "w") log.
Proof.
  pose proof (layer_sampler_refinement
                Example.unique_and_compact_node_pairs tt Example.csc_graph
                [FanoutInt 1; FanoutTensor [2]] true (Some "w")) as H.
  destruct (NeighborSampler_init tt Example.csc_graph
              [FanoutInt 1; FanoutTensor [2]] true (Some "w"))
    as [ns|e] eqn:Hns; [|discriminate].
  destruct (LayerNeighborSampler_init tt Example.csc_graph
              [FanoutInt 1; FanoutTensor [2]] true (Some "w"))
    as [ls|e] eqn:Hls; [|discriminate].
  destruct H as (Hls' & _ & _ & _ & _ & Hruns).
  exists ns, ls. split; [reflexivity|]. split; [reflexivity|].
  split; [rewrite Hls'; reflexivity|].
  injection Hns as <-.
  intros seeds st. destruct (Hruns seeds st) as [_ (log & Hrun & Hlog)].
  exists log. split; [exact Hrun|].
  eapply Forall_impl; [exact Hlog|]. intros c (_ & _ & Hp). exact Hp.
Defined.

(** * Further properties *)

(** ** More on the samplers and the multi-hop loop *)

Section SamplingMore.
Context {Oracle DataPipe : Type}.
Variable unique_and_compact_node_pairs :
  NodePairs -> TensorOrDict -> Result (TensorOrDict * NodePairs).

Abbreviation run' := (_sample_subgraphs unique_and_compact_node_pairs).
Abbreviation run_hop' := (sample_hop unique_and_compact_node_pairs).

Lemma mapR_convert_fanout_length fanouts_arg fanouts' :
  mapR convert_fanout fanouts_arg = Ok fanouts' ->
  length fanouts' = length fanouts_arg.
Proof. apply mapR_length. Qed.

(** X1. A sampler of either class built from [k] fanouts samples [k] hops:
    every run of it that returns gives exactly [k] layers. *)
Theorem sampler_layers_as_fanouts_given (dp : DataPipe)
    (g : CSCSamplingGraph Oracle) (fanouts_arg : list FanoutArg)
    (replace_arg : bool) (prob_name_arg : option string)
    (self : NeighborSampler Oracle DataPipe) seeds st seeds' subgraphs st' :
  NeighborSampler_init dp g fanouts_arg replace_arg prob_name_arg = Ok self \/
  LayerNeighborSampler_init dp g fanouts_arg replace_arg prob_name_arg
  = Ok self ->
  _sample_subgraphs unique_and_compact_node_pairs self seeds st
  = (Ok (seeds', subgraphs), st') ->
  length subgraphs = length fanouts_arg.
Proof.
  intros Hinit Hrun.
  rewrite (sample_subgraphs_length _ _ _ _ _ _ _ Hrun).
  unfold LayerNeighborSampler_init, NeighborSampler_init in Hinit.
  destruct (mapR convert_fanout fanouts_arg) as [fanouts'|e] eqn:Hconv.
  - apply mapR_convert_fanout_length in Hconv.
    destruct Hinit as [Hinit|Hinit]; simpl in Hinit; injection Hinit as <-;
      simpl; exact Hconv.
  - destruct Hinit as [Hinit|Hinit]; discriminate.
Qed.

(** The outcome of the loop on the fanouts still to sample. *)
Lemma for_each_outcome (self : NeighborSampler Oracle DataPipe) fs :
  forall pre, self.(fanouts) = pre ++ fs ->
  forall seeds acc st,
    let res := for_each (seq (length pre) (length fs)) (run_hop' self)
                 (seeds, acc) st in
    exists log,
      calls (snd res) = calls st ++ log /\
      (length log <= length fs)%nat /\
      match fst res with
      | Ok _ =>
          length log = length fs /\
          Forall (fun c => exists sg, call_result c = Ok sg) log
      | Raise e =>
          exists c, last log = Some c /\
            (call_result c = Raise e \/
             exists sg, call_result c = Ok sg /\
               unique_and_compact_node_pairs (node_pairs sg) (call_seeds c)
               = Raise e)
      end.
Proof.
  induction fs as [|fanout fs IH]; intros pre Hpre seeds acc st.
  - exists []. rewrite app_nil_r. simpl. auto.
  - assert (Hf : self.(fanouts) !! length pre = Some fanout).
    { rewrite Hpre. apply list_lookup_middle. reflexivity. }
    cbn [length seq for_each].
    set (tail := for_each (seq (S (length pre)) (length fs)) (run_hop' self)).
    unfold bind at 1.
    unfold sample_hop, index, bind, invoke, lift, ret. rewrite Hf. simpl.
    destruct (method_body _ _ _ _ _ _) as [[sg|e] o1] eqn:Hm; simpl.
    + destruct (unique_and_compact_node_pairs _ _) as [[s1 np]|e] eqn:Hu;
        simpl.
      * specialize (IH (pre ++ [fanout])).
        rewrite length_app, Nat.add_1_r in IH.
        edestruct IH as (log & Hcalls & Hle & Hout).
        { rewrite Hpre, <- app_assoc. reflexivity. }
        cbv zeta in Hcalls, Hout. fold tail in Hcalls, Hout.
        rewrite Hcalls. cbn [calls].
        eexists (_ :: log). split; [rewrite <- app_assoc; reflexivity|].
        split; [simpl; lia|].
        destruct (fst (tail _ _)) as [v|e].
        -- destruct Hout as [Hlen Hall]. split; [simpl; congruence|].
           constructor; [simpl; eauto | exact Hall].
        -- destruct Hout as (c & Hlast & Hc). exists c. split; [|exact Hc].
           destruct log; [discriminate | exact Hlast].
      * eexists [_]. split; [reflexivity|]. split; [simpl; lia|].
        eexists. split; [reflexivity|]. right. simpl. eauto.
    + eexists [_]. split; [reflexivity|]. split; [simpl; lia|].
      eexists. split; [reflexivity|]. left. reflexivity.
Qed.

(** X2. Where an exception of [_sample_subgraphs] comes from: the loop makes
    at most one call to the primitive per fanout; when the run returns, it
    made exactly one per fanout and each returned; when the run raises, the
    exception is the one raised by the last call made, or by the compaction
    of what that call returned, and nothing is sampled after it. *)
Theorem sample_subgraphs_raises_from_last_call
    (self : NeighborSampler Oracle DataPipe) seeds st :
  let res := _sample_subgraphs unique_and_compact_node_pairs self seeds st in
  exists log,
    calls (snd res) = calls st ++ log /\
    (length log <= length self.(fanouts))%nat /\
    match fst res with
    | Ok _ =>
        length log = length self.(fanouts) /\
        Forall (fun c => exists sg, call_result c = Ok sg) log
    | Raise e =>
        exists c, last log = Some c /\
          (call_result c = Raise e \/
           exists sg, call_result c = Ok sg /\
             unique_and_compact_node_pairs (node_pairs sg) (call_seeds c)
             = Raise e)
    end.
Proof.
  unfold _sample_subgraphs.
  apply (for_each_outcome self self.(fanouts) []). reflexivity.
Qed.

(** X3. Every layer [_sample_subgraphs] returns has both its column ids and
    its row ids set, and no edge ids, whatever edge ids the primitive gave
    with its batch: the constructor call of the layer leaves that field
    out. *)
Theorem sample_subgraphs_layers_ids
    (self : NeighborSampler Oracle DataPipe) seeds st seeds' subgraphs st' :
  _sample_subgraphs unique_and_compact_node_pairs self seeds st
  = (Ok (seeds', subgraphs), st') ->
  Forall (fun layer =>
            (exists col, layer.(original_column_node_ids) = Some col) /\
            (exists row, layer.(original_row_node_ids) = Some row) /\
            layer.(original_edge_ids) = None) subgraphs.
Proof.
  intros H. apply sample_subgraphs_hops_run in H as (steps & _ & _ & ->).
  apply Forall_reverse, Forall_fmap, Forall_forall.
  intros s _. simpl. eauto.
Qed.

(** The enrichment when the declared node types are distinct: one entry per
    declared type, in the graph's order. *)
Lemma enrich_seeds_NoDup (self : NeighborSampler Oracle DataPipe) d :
  NoDup (dict_keys (node_type_to_id (metadata self.(graph)))) ->
  enrich_seeds self (D d)
  = D (map (fun ntype => (ntype, dict_get_default ntype [] d))
         (dict_keys (node_type_to_id (metadata self.(graph))))).
Proof.
  intros Hnd. unfold enrich_seeds. f_equal.
  apply dict_of_items_NoDup.
  unfold dict_keys at 1. rewrite map_map. simpl. rewrite map_id. exact Hnd.
Qed.

(** X4. The enrichment is idempotent: when the declared node types are
    distinct, as the keys of a dict are, enriching enriched seeds changes
    nothing, so sampling from them is sampling from the seeds. *)
Theorem enrich_seeds_idempotent (self : NeighborSampler Oracle DataPipe)
    seeds st :
  NoDup (dict_keys (node_type_to_id (metadata self.(graph)))) ->
  enrich_seeds self (enrich_seeds self seeds) = enrich_seeds self seeds /\
  _sample_subgraphs unique_and_compact_node_pairs self
    (enrich_seeds self seeds) st
  = _sample_subgraphs unique_and_compact_node_pairs self seeds st.
Proof.
  intros Hnd.
  assert (Hid : enrich_seeds self (enrich_seeds self seeds)
                = enrich_seeds self seeds).
  { destruct seeds as [t|d]; [reflexivity|].
    rewrite (enrich_seeds_NoDup self d Hnd).
    rewrite (enrich_seeds_NoDup self _ Hnd). f_equal.
    apply map_ext_in. intros ntype Hin. f_equal.
    unfold dict_get_default at 1.
    destruct (dict_comprehension (fun ntype => dict_get_default ntype [] d)
                (dict_keys (node_type_to_id (metadata self.(graph)))))
      as (_ & _ & Hget).
    cbv zeta in Hget.
    rewrite dict_of_items_NoDup in Hget.
    - rewrite (Hget ntype Hin). reflexivity.
    - unfold dict_keys at 1. rewrite map_map. simpl. rewrite map_id.
      exact Hnd. }
  split; [exact Hid|].
  unfold _sample_subgraphs. rewrite Hid. reflexivity.
Qed.

(** X5. Only the entries of the declared node types count: two seed
    mappings with the same sequence for every declared type, whatever their
    key order and their other keys, are sampled alike. *)
Theorem sample_subgraphs_declared_types_only
    (self : NeighborSampler Oracle DataPipe) (d1 d2 : dict string Tensor) st :
  (forall ntype,
     In ntype (dict_keys (node_type_to_id (metadata self.(graph)))) ->
     dict_get ntype d1 = dict_get ntype d2) ->
  _sample_subgraphs unique_and_compact_node_pairs self (D d1) st
  = _sample_subgraphs unique_and_compact_node_pairs self (D d2) st.
Proof.
  intros Hsame. unfold _sample_subgraphs.
  replace (enrich_seeds self (D d1)) with (enrich_seeds self (D d2));
    [reflexivity|].
  unfold enrich_seeds. do 2 f_equal.
  apply map_ext_in. intros ntype Hin. f_equal.
  unfold dict_get_default. specialize (Hsame ntype Hin).
  unfold Tensor in *. rewrite Hsame. reflexivity.
Qed.

End SamplingMore.

(** ** More on the transform to blocks *)

Section BlockMore.
Variable etype_str_to_tuple : string -> Result EType.
Variables NID EID : string.
Variable Tensor_bool : Tensor -> Result bool.

Abbreviation transform' :=
  (to_dgl_blocks etype_str_to_tuple NID EID Tensor_bool).

(** The blocks of a homogeneous transform that returns, frame by frame. *)
Lemma to_dgl_blocks_homogeneous_blocks (mb mb' : MiniBatch.t) blocks layers :
  transform' mb = (Ok (Some blocks), mb') ->
  MiniBatch.sampled_subgraphs mb = Some layers ->
  is_heterogeneous_of layers = false ->
  length blocks = length layers /\
  exists first rest ids0,
    layers = first :: rest /\
    first.(original_row_node_ids) = Some ids0 /\
    forall (i : nat) layer, layers !! i = Some layer ->
      exists r c,
        layer.(original_row_node_ids) = Some (T r) /\
        layer.(original_column_node_ids) = Some (T c) /\
        blocks !! i = Some
          {| data_dict := EdgeList layer.(node_pairs);
             num_src_nodes := NumInt (size0 r);
             num_dst_nodes := NumInt (size0 c);
             srcdata :=
               match i with
               | O => dict_set (Name NID) ids0
                        (dict_of_items
                           (tensor_items
                              (node_features_of (MiniBatch.node_features mb))))
               | S _ => []
               end;
             dstdata := [];
             edata :=
               (let e := dict_of_items
                           (tensor_items
                              (edge_features_at (MiniBatch.edge_features mb)
                                 i)) in
                match layer.(original_edge_ids) with
                | Some eids => dict_set (Name EID) eids e
                | None => e
                end);
             srcnodes := []; dstnodes := []; edges := [] |}.
Proof.
  intros H Hl Hmode.
  apply to_dgl_blocks_Ok in H
    as (layers' & blocks0 & Hl' & Hne & Hbuild & Hassign).
  rewrite Hl in Hl'. injection Hl' as <-. rewrite Hmode in Hbuild, Hassign.
  pose proof (mapR_length _ _ _ Hbuild) as Hlen0.
  apply mapR_Ok_Forall2 in Hbuild.
  apply assign_homogeneous_Ok in Hassign
    as (first & rest & ids0 & Hlayers & Hids & Hlen & Hblocks).
  split; [congruence|].
  exists first, rest, ids0. split; [exact Hlayers|]. split; [exact Hids|].
  intros i layer Hlayer.
  destruct (Forall2_lookup_l _ _ _ _ _ Hbuild Hlayer) as (b0 & Hb0 & Hb).
  apply build_block_Ok in Hb
    as (row & col & Hrow & Hcol & r & c & -> & -> & ->).
  exists r, c. split; [exact Hrow|]. split; [exact Hcol|].
  rewrite (Hblocks i _ Hb0). unfold edge_ids_at. rewrite Hlayer.
  reflexivity.
Qed.

(** X6. A returned block list is never empty: [to_dgl_blocks] returns
    [None] only for a minibatch without layers, and otherwise a list with
    one block per layer. *)
Theorem to_dgl_blocks_None_only_without_layers (mb mb' : MiniBatch.t) :
  (to_dgl_blocks etype_str_to_tuple NID EID Tensor_bool mb = (Ok None, mb')
   -> MiniBatch.sampled_subgraphs mb = None \/
      MiniBatch.sampled_subgraphs mb = Some []) /\
  (forall blocks,
     to_dgl_blocks etype_str_to_tuple NID EID Tensor_bool mb
     = (Ok (Some blocks), mb') ->
     blocks <> [] /\
     exists layers,
       MiniBatch.sampled_subgraphs mb = Some layers /\
       length blocks = length layers).
Proof.
  split.
  - intros H.
    destruct (MiniBatch.sampled_subgraphs mb) as [[|first rest]|] eqn:Hl;
      auto.
    rewrite (to_dgl_blocks_unfold _ _ _ _ mb (first :: rest)) in H
      by congruence.
    injection H as H _.
    apply bindR_Ok in H as (b0 & _ & H).
    apply bindR_Ok in H as (b1 & _ & H). discriminate.
  - intros blocks H.
    apply to_dgl_blocks_Ok in H
      as (layers & blocks0 & Hl & Hne & Hbuild & Hassign).
    pose proof (mapR_length _ _ _ Hbuild) as Hlen0.
    assert (Hlen : length blocks = length layers).
    { destruct (is_heterogeneous_of layers).
      - apply assign_heterogeneous_Ok in Hassign
          as (first & rest & ids & nf' & _ & _ & _ & Hlen & _). congruence.
      - apply assign_homogeneous_Ok in Hassign
          as (first & rest & ids & _ & _ & Hlen & _). congruence. }
    split; [|eauto].
    intros ->. destruct layers; [congruence | discriminate].
Qed.

(** X7. Reverse ids win over features in the homogeneous branch: in the
    block list of a transform that returns, the source frame of block 0
    holds the row ids of the first layer under [NID], and the edge frame of
    every block holds its layer's edge ids under [EID], also when a feature
    of that name was given. *)
Theorem to_dgl_blocks_reverse_ids (mb mb' : MiniBatch.t) blocks layers :
  to_dgl_blocks etype_str_to_tuple NID EID Tensor_bool mb
  = (Ok (Some blocks), mb') ->
  MiniBatch.sampled_subgraphs mb = Some layers ->
  is_heterogeneous_of layers = false ->
  (exists first ids b0,
     layers !! 0%nat = Some first /\
     first.(original_row_node_ids) = Some ids /\
     blocks !! 0%nat = Some b0 /\
     dict_get (Name NID) b0.(srcdata) = Some ids) /\
  (forall (i : nat) layer eids,
     layers !! i = Some layer ->
     layer.(original_edge_ids) = Some eids ->
     exists block,
       blocks !! i = Some block /\
       dict_get (Name EID) block.(edata) = Some eids).
Proof.
  intros H Hl Hmode.
  destruct (to_dgl_blocks_homogeneous_blocks mb mb' blocks layers H Hl Hmode)
    as (Hlen & first & rest & ids0 & -> & Hids & Hblocks).
  split.
  - destruct (Hblocks 0%nat first eq_refl) as (r & c & Hr & _ & Hb0).
    eexists first, ids0, _. split; [reflexivity|]. split; [exact Hids|].
    split; [exact Hb0|]. cbn. apply dict_get_set_eq.
  - intros i layer eids Hlayer Heids.
    destruct (Hblocks i layer Hlayer) as (r & c & _ & _ & Hb).
    eexists. split; [exact Hb|]. cbn. rewrite Heids.
    apply dict_get_set_eq.
Qed.

(** X8. Reverse node ids in the heterogeneous branch: in the block list of
    a transform that returns, block 0 holds, for every node type of the first
    layer's row ids, the ids of that type under [NID], also when a feature
    of that type and name was given. *)
Theorem to_dgl_blocks_typed_reverse_ids (mb mb' : MiniBatch.t) blocks layers :
  to_dgl_blocks etype_str_to_tuple NID EID Tensor_bool mb
  = (Ok (Some blocks), mb') ->
  MiniBatch.sampled_subgraphs mb = Some layers ->
  is_heterogeneous_of layers = true ->
  exists first ids b0,
    layers !! 0%nat = Some first /\
    first.(original_row_node_ids) = Some (D ids) /\
    blocks !! 0%nat = Some b0 /\
    (NoDup (dict_keys ids) ->
     forall node_type reverse_ids,
       In (node_type, reverse_ids) ids ->
       dict_get (node_type, NID) b0.(srcnodes) = Some reverse_ids).
Proof.
  intros H Hl Hmode.
  apply to_dgl_blocks_Ok in H
    as (layers' & blocks0 & Hl' & Hne & Hbuild & Hassign).
  rewrite Hl in Hl'. injection Hl' as <-. rewrite Hmode in Hassign.
  pose proof (mapR_length _ _ _ Hbuild) as Hlen0.
  apply assign_heterogeneous_Ok in Hassign
    as (first & rest & ids & nf' & -> & Hids & _ & Hlen & Hblocks).
  destruct blocks0 as [|b0 blocks0]; [discriminate|].
  destruct (Hblocks 0%nat b0 eq_refl) as (ef' & eid' & _ & _ & Hb0).
  eexists first, ids, _. split; [reflexivity|]. split; [exact Hids|].
  split; [exact Hb0|].
  intros Hnd node_type reverse_ids Hin. cbn.
  rewrite dict_update_app.
  apply dict_get_update_in.
  - unfold dict_keys, node_id_items. rewrite map_map. simpl.
    rewrite <- (map_map fst (fun t : string => (t, NID))).
    change (NoDup ((fun t : string => (t, NID)) <$> map fst ids)).
    apply NoDup_fmap_2; [|exact Hnd].
    intros x y [= ->]. reflexivity.
  - unfold node_id_items.
    apply (in_map (fun kv : string * Tensor => (fst kv, NID, snd kv)))
      in Hin. exact Hin.
Qed.

End BlockMore.

(** ** From sampling to blocks *)

Section Pipeline.
Context {Oracle DataPipe : Type}.
Variable unique_and_compact_node_pairs :
  NodePairs -> TensorOrDict -> Result (TensorOrDict * NodePairs).
Variable etype_str_to_tuple : string -> Result EType.
Variables NID EID : string.
Variable Tensor_bool : Tensor -> Result bool.

(** X9. From sampling to blocks: when the seeds are a tensor and the
    transform of the sampled minibatch returns blocks, there is one block
    per fanout; block 0 has as many source nodes as the minibatch has input
    nodes and carries them under [NID]; each block has as many destination
    nodes as the next block has source nodes; and the last block has as many
    destination nodes as there are seeds. *)
Theorem sampled_minibatch_blocks_chain
    (self : NeighborSampler Oracle DataPipe) (minibatch : MiniBatch.t)
    (t : Tensor) st mb st' blocks mb' :
  sample_minibatch unique_and_compact_node_pairs self minibatch (T t) st
  = (Ok mb, st') ->
  to_dgl_blocks etype_str_to_tuple NID EID Tensor_bool mb
  = (Ok (Some blocks), mb') ->
  length blocks = length self.(fanouts) /\
  (exists b0 input,
     blocks !! 0%nat = Some b0 /\
     MiniBatch.input_nodes mb = Some (T input) /\
     b0.(num_src_nodes) = NumInt (Z.of_nat (length input)) /\
     dict_get (Name NID) b0.(srcdata) = Some (T input)) /\
  (forall (i : nat) b b',
     blocks !! i = Some b -> blocks !! S i = Some b' ->
     b.(num_dst_nodes) = b'.(num_src_nodes)) /\
  (exists b, last blocks = Some b /\
     b.(num_dst_nodes) = NumInt (Z.of_nat (length t))).
Proof.
  intros H Hblocks. unfold sample_minibatch in H.
  apply bind_Ok in H as ([seeds' subgraphs] & st1 & Hrun & Hret).
  unfold ret in Hret. injection Hret as <- <-.
  set (mb := {| MiniBatch.seed_nodes := MiniBatch.seed_nodes minibatch;
                MiniBatch.sampled_subgraphs := Some subgraphs |}) in *.
  pose proof (sample_subgraphs_length _ _ _ _ _ _ _ Hrun) as Hlen.
  apply sample_subgraphs_hops_run in Hrun as (steps & Hsteps & _ & Hsub).
  simpl in Hsteps.
  destruct (hops_run_chained _ _ _ _ _ _ _ _ Hsteps []) as [Hhead Hch].
  { discriminate. }
  { intros j a b Ha. discriminate. }
  rewrite app_nil_r, <- Hsub in Hhead, Hch.
  destruct (hops_run_thread _ _ _ _ _ _ _ _ Hsteps) as (Hfirst & _ & _ & _).
  (* the transform returned: there is a layer, and the last one has the
     seeds as its column ids *)
  pose proof Hblocks as Hok.
  apply to_dgl_blocks_Ok in Hok
    as (layers & blocks0 & Hl & Hne & Hbuild & _).
  injection Hl as <-.
  destruct steps as [|s0 steps0] eqn:Hst.
  { exfalso. apply Hne. exact Hsub. }
  specialize (Hfirst s0 eq_refl).
  assert (Hlastl : last subgraphs = Some (step_layer s0)).
  { rewrite Hsub, fmap_cons, reverse_cons. apply last_snoc. }
  rewrite last_lookup in Hlastl.
  assert (Hmode : is_heterogeneous_of subgraphs = false).
  { destruct (is_heterogeneous_of subgraphs) eqn:Hmode; [|reflexivity].
    exfalso. apply mapR_Ok_Forall2 in Hbuild.
    destruct (Forall2_lookup_l _ _ _ _ _ Hbuild Hlastl) as (b & _ & Hb).
    apply build_block_Ok in Hb
      as (row & col & _ & Hcol & r & c & typed & _ & -> & _).
    simpl in Hcol. rewrite Hfirst in Hcol. discriminate. }
  destruct (to_dgl_blocks_homogeneous_blocks etype_str_to_tuple NID EID
              Tensor_bool mb mb' blocks subgraphs Hblocks eq_refl Hmode)
    as (Hblen & first' & rest' & ids0 & Hfr & Hids0 & Hall).
  split; [congruence|].
  split; [|split].
  - rewrite Hfr in Hhead. specialize (Hhead first' eq_refl).
    destruct (Hall 0%nat first') as (r & c & Hr & _ & Hb0).
    { rewrite Hfr. reflexivity. }
    rewrite Hr in Hhead. injection Hhead as <-.
    rewrite Hr in Hids0. injection Hids0 as <-.
    eexists _, r. split; [exact Hb0|]. split; [reflexivity|].
    split; [reflexivity|]. cbn. apply dict_get_set_eq.
  - intros i b b' Hb Hb'.
    destruct (lookup_lt_is_Some_2 subgraphs i) as [layer Hlayer].
    { rewrite <- Hblen. eapply lookup_lt_Some. exact Hb. }
    destruct (lookup_lt_is_Some_2 subgraphs (S i)) as [layer' Hlayer'].
    { rewrite <- Hblen. eapply lookup_lt_Some. exact Hb'. }
    destruct (Hall i layer Hlayer) as (r & c & _ & Hc & Hbi).
    destruct (Hall (S i) layer' Hlayer') as (r' & c' & Hr' & _ & Hbi').
    rewrite Hb in Hbi. injection Hbi as ->.
    rewrite Hb' in Hbi'. injection Hbi' as ->. cbn.
    specialize (Hch i layer layer' Hlayer Hlayer').
    rewrite Hc, Hr' in Hch. injection Hch as <-. reflexivity.
  - destruct (Hall _ _ Hlastl) as (r & c & _ & Hc & Hb).
    eexists. split.
    + rewrite last_lookup, Hblen. exact Hb.
    + cbn. simpl in Hc. rewrite Hfirst in Hc. injection Hc as <-.
      reflexivity.
Qed.

End Pipeline.

(** ** More on strings *)

#[local] Arguments String.append !s1 s2 : simpl nomatch.

Lemma str_app_assoc (a b c : string) :
  String.append (String.append a b) c = String.append a (String.append b c).
Proof. induction a as [|x a IH]; simpl; [|rewrite IH]; reflexivity. Qed.

Lemma str_app_nil_r (a : string) : String.append a EmptyString = a.
Proof. induction a as [|x a IH]; simpl; [|rewrite IH]; reflexivity. Qed.

Lemma str_length_app (a b : string) :
  String.length (String.append a b)
  = (String.length a + String.length b)%nat.
Proof. induction a as [|x a IH]; simpl; [|rewrite IH]; reflexivity. Qed.

Lemma substring_0_app (a b : string) :
  String.substring 0 (String.length a) (String.append a b) = a.
Proof.
  induction a as [|x a IH]; simpl.
  - destruct b; reflexivity.
  - rewrite IH. reflexivity.
Qed.

(** Slicing off a suffix of the length sliced. *)
Lemma drop_last_app (a b : string) :
  drop_last (String.length b) (String.append a b) = a.
Proof.
  unfold drop_last. rewrite str_length_app.
  replace (String.length a + String.length b - String.length b)%nat
    with (String.length a) by lia.
  apply substring_0_app.
Qed.

Lemma blanks_add (n m : nat) :
  blanks (n + m) = String.append (blanks n) (blanks m).
Proof. induction n as [|n IH]; simpl; [|rewrite IH]; reflexivity. Qed.

Lemma blanks_length (n : nat) : String.length (blanks n) = n.
Proof. induction n as [|n IH]; simpl; [|rewrite IH]; reflexivity. Qed.

Lemma has_char_app c (a b : string) :
  has_char c (String.append a b) = has_char c a || has_char c b.
Proof.
  induction a as [|x a IH]; simpl; [reflexivity|].
  destruct (decide (x = c)); [reflexivity | exact IH].
Qed.

Lemma has_char_blanks (n : nat) : has_char newline (blanks n) = false.
Proof. induction n as [|n IH]; simpl; [reflexivity | exact IH]. Qed.

Lemma str_split_cons sep (s : string) :
  exists part parts, str_split sep s = part :: parts.
Proof.
  destruct s as [|c s]; simpl; [eauto|].
  destruct (decide (c = sep)); [eauto|].
  destruct (str_split sep s); eauto.
Qed.

(** Joining the parts of a split gives the string back. *)
Lemma str_concat_split sep (s : string) :
  String.concat (String sep EmptyString) (str_split sep s) = s.
Proof.
  induction s as [|c s IH]; simpl; [reflexivity|].
  destruct (str_split_cons sep s) as (part & parts & Hs).
  rewrite Hs in IH |- *.
  destruct (decide (c = sep)) as [->|Hne].
  - simpl in IH |- *. rewrite IH. reflexivity.
  - destruct parts; simpl in IH |- *; rewrite IH; reflexivity.
Qed.

Lemma str_split_no_sep sep (s : string) :
  has_char sep s = false -> str_split sep s = [s].
Proof.
  induction s as [|c s IH]; simpl; [reflexivity|].
  destruct (decide (c = sep)); [discriminate|].
  intros H. rewrite (IH H). reflexivity.
Qed.

Lemma str_split_app_sep sep (a b : string) :
  has_char sep a = false ->
  str_split sep (String.append a (String sep b)) = a :: str_split sep b.
Proof.
  induction a as [|c a IH]; simpl.
  - intros _. destruct (decide (sep = sep)); [reflexivity | congruence].
  - destruct (decide (c = sep)); [discriminate|].
    intros H. rewrite (IH H). reflexivity.
Qed.

(** Splitting the join of parts without separator gives the parts back. *)
Lemma str_split_concat sep (parts : list string) :
  parts <> [] ->
  Forall (fun part => has_char sep part = false) parts ->
  str_split sep (String.concat (String sep EmptyString) parts) = parts.
Proof.
  intros Hne Hall. induction Hall as [|part parts Hpart Hall IH];
    [congruence|].
  destruct parts as [|part' parts].
  - simpl. apply str_split_no_sep. exact Hpart.
  - change (String.concat (String sep EmptyString) (part :: part' :: parts))
      with (String.append part
              (String sep
                 (String.concat (String sep EmptyString) (part' :: parts)))).
    rewrite str_split_app_sep by exact Hpart.
    rewrite IH by discriminate. reflexivity.
Qed.

(** No part of a split holds the separator. *)
Lemma str_split_parts sep (s : string) :
  Forall (fun part => has_char sep part = false) (str_split sep s).
Proof.
  induction s as [|c s IH]; simpl.
  - repeat constructor.
  - destruct (decide (c = sep)) as [->|Hne].
    + constructor; [reflexivity | exact IH].
    + destruct (str_split sep s) as [|part parts].
      * repeat constructor. simpl.
        destruct (decide (c = sep)); [congruence | reflexivity].
      * apply Forall_cons in IH as [Hpart Hparts].
        constructor; [|exact Hparts]. simpl.
        destruct (decide (c = sep)); [congruence | exact Hpart].
Qed.

(** ** The text of a minibatch *)

(** The lines of an indented string, from the lines of the string. *)
Lemma str_split_add_indent (_str : string) (indent : Z) line0 lines :
  str_split newline _str = line0 :: lines ->
  str_split newline (_add_indent _str indent)
  = line0 :: map (String.append (spaces (indent + 10))) lines.
Proof.
  intros Hs. unfold _add_indent. rewrite Hs.
  apply str_split_concat; [discriminate|].
  pose proof (str_split_parts newline _str) as Hparts. rewrite Hs in Hparts.
  apply Forall_cons in Hparts as [H0 Hrest].
  constructor; [exact H0|].
  apply Forall_forall. intros line Hin.
  apply list_elem_of_In, in_map_iff in Hin as (line' & <- & Hin').
  rewrite has_char_app. unfold spaces. rewrite has_char_blanks. simpl.
  rewrite Forall_forall in Hrest. apply Hrest, list_elem_of_In. exact Hin'.
Qed.

(** X10. What [_add_indent] does to the lines of a string: it keeps their
    number and the first line, and puts [indent + 10] blanks, none when that
    is not positive, in front of every other line. *)
Theorem add_indent_lines (_str : string) (indent : Z) :
  exists line0 lines,
    str_split newline _str = line0 :: lines /\
    str_split newline (_add_indent _str indent)
    = line0 :: map (String.append (spaces (indent + 10))) lines /\
    length (str_split newline (_add_indent _str indent))
    = length (str_split newline _str).
Proof.
  destruct (str_split_cons newline _str) as (line0 & lines & Hs).
  exists line0, lines. split; [exact Hs|].
  rewrite (str_split_add_indent _str indent line0 lines Hs).
  split; [reflexivity|].
  rewrite Hs. simpl. rewrite length_map. reflexivity.
Qed.

(** X11. [_add_indent] leaves a string as it is when the string has one
    line only, or when [indent + 10] is not positive. *)
Theorem add_indent_unchanged (_str : string) (indent : Z) :
  has_char newline _str = false \/ indent + 10 <= 0 ->
  _add_indent _str indent = _str.
Proof.
  intros [Hline | Hindent]; unfold _add_indent.
  - rewrite (str_split_no_sep _ _ Hline). reflexivity.
  - destruct (str_split_cons newline _str) as (line0 & lines & Hs).
    rewrite Hs.
    replace (map (fun line => String.append (spaces (indent + 10)) line)
               lines) with lines.
    + rewrite <- Hs. apply str_concat_split.
    + unfold spaces. replace (Z.to_nat (indent + 10)) with 0%nat by lia.
      simpl. symmetry. apply map_id.
Qed.

(** X12. Indentations add up: indenting an indented string is indenting the
    string once by the two amounts of blanks together, which is how the
    lines of a sampled subgraph end up under its first one. *)
Theorem add_indent_twice (_str : string) (a b : Z) :
  0 <= a + 10 -> 0 <= b + 10 ->
  _add_indent (_add_indent _str a) b = _add_indent _str (a + b + 10).
Proof.
  intros Ha Hb.
  destruct (str_split_cons newline _str) as (line0 & lines & Hs).
  pose proof (str_split_add_indent _str a line0 lines Hs) as Hs'.
  unfold _add_indent at 1. rewrite Hs'.
  unfold _add_indent. rewrite Hs. do 2 f_equal.
  rewrite map_map. apply map_ext. intros line.
  rewrite <- str_app_assoc. f_equal.
  unfold spaces.
  replace (Z.to_nat (a + b + 10 + 10))
    with (Z.to_nat (b + 10) + Z.to_nat (a + 10))%nat by lia.
  symmetry. apply blanks_add.
Qed.

Lemma add_indent_lines_witness :
  str_split newline
    (_add_indent (String.append "a" (String newline "b")) 1)
  = ["a"; "           b"].
Proof.
  destruct (add_indent_lines (String.append "a" (String newline "b")) 1)
    as (line0 & lines & Hs & -> & _).
  vm_compute in Hs. injection Hs as <- <-. reflexivity.
Defined.

Lemma add_indent_unchanged_witness :
  _add_indent "tensor([0, 1])" 5 = "tensor([0, 1])".
Proof. apply add_indent_unchanged. left. reflexivity. Defined.

Lemma add_indent_twice_witness :
  _add_indent (_add_indent (String.append "a" (String newline "b")) 1) 2
  = _add_indent (String.append "a" (String newline "b")) 13.
Proof. apply (add_indent_twice _ 1 2); lia. Defined.

Section MiniBatchStrFacts.
Variable str_ids : TensorOrDict -> string.
Variable str_pairs : NodePairs -> string.
Variable str_features : dict FeatureKey Tensor -> string.

Abbreviation text_of := (value_text str_ids str_pairs str_features).
Abbreviation add_attribute :=
  (append_attribute str_ids str_pairs str_features).

(** Only the look at the first element of an empty list raises. *)
Lemma value_text_Raise val e :
  text_of val = Raise e ->
  e = IndexError /\
  (val = VSubgraphs (Some []) \/ val = VFeatureDicts (Some [])).
Proof.
  destruct val as [x|x|x|[[|sg l]|]|[[|d l]|]]; simpl; intros H;
    try discriminate; injection H as <-; auto.
Qed.

Lemma foldR_add_attribute_Raise attrs : forall s e,
  foldR add_attribute attrs s = Raise e ->
  exists a, In a attrs /\ text_of (snd a) = Raise e.
Proof.
  induction attrs as [|[name val] attrs IH]; intros s e H; simpl in H.
  - discriminate.
  - unfold append_attribute at 1 in H.
    destruct (text_of val) as [v|e'] eqn:Hv; simpl in H.
    + apply IH in H as (a & Hin & Ha). exists a. simpl. auto.
    + injection H as <-. exists (name, val). simpl. auto.
Qed.

Lemma foldR_add_attribute_In attrs a e : forall s,
  In a attrs -> text_of (snd a) = Raise e ->
  exists e', foldR add_attribute attrs s = Raise e'.
Proof.
  induction attrs as [|[name val] attrs IH]; intros s Hin Ha; simpl.
  - contradiction.
  - unfold append_attribute at 1.
    destruct (text_of val) as [v|e'] eqn:Hv; simpl; [|eauto].
    destruct Hin as [<-|Hin]; [simpl in Ha; congruence|].
    apply IH; assumption.
Qed.

(** X13. When the text of a minibatch cannot be made: [_minibatch_str]
    raises exactly when [sampled_subgraphs] or [edge_features] is an empty
    list, and the exception is then an [IndexError]. *)
Theorem minibatch_str_raises (mb : MiniBatch.t) :
  match _minibatch_str str_ids str_pairs str_features mb with
  | Raise e =>
      e = IndexError /\
      (MiniBatch.sampled_subgraphs mb = Some [] \/
       MiniBatch.edge_features mb = Some [])
  | Ok _ =>
      MiniBatch.sampled_subgraphs mb <> Some [] /\
      MiniBatch.edge_features mb <> Some []
  end.
Proof.
  unfold _minibatch_str.
  destruct (foldR add_attribute (rev (minibatch_attributes mb)) EmptyString)
    as [text|e] eqn:Hfold; cbn [bindR].
  - split; intros Hempty.
    + destruct (foldR_add_attribute_In (rev (minibatch_attributes mb))
                  ("sampled_subgraphs",
                   VSubgraphs (MiniBatch.sampled_subgraphs mb))
                  IndexError EmptyString) as [e' He'].
      * apply in_rev. rewrite rev_involutive. simpl. tauto.
      * simpl. rewrite Hempty. reflexivity.
      * congruence.
    + destruct (foldR_add_attribute_In (rev (minibatch_attributes mb))
                  ("edge_features",
                   VFeatureDicts (MiniBatch.edge_features mb))
                  IndexError EmptyString) as [e' He'].
      * apply in_rev. rewrite rev_involutive. simpl. tauto.
      * simpl. rewrite Hempty. reflexivity.
      * congruence.
  - apply foldR_add_attribute_Raise in Hfold as (a & Hin & Ha).
    apply value_text_Raise in Ha as [-> Hval]. split; [reflexivity|].
    apply in_rev in Hin. simpl in Hin.
    repeat (destruct Hin as [<-|Hin];
            [simpl in Hval; destruct Hval as [Hval|Hval];
             try discriminate; injection Hval; auto|]).
    contradiction.
Qed.

(** What the loop over the attributes appends: the text starts with the
    name of the first attribute and ends with the tail of the last round. *)
Lemma foldR_add_attribute_shape attrs : forall a s r,
  foldR add_attribute (a :: attrs) s = Ok r ->
  exists t,
    r = String.append s
          (String.append (fst a)
          (String.append "="
          (String.append t
          (String.append "," (String newline (blanks 10)))))).
Proof.
  induction attrs as [|b attrs IH]; intros [name val] s r H.
  - change (foldR add_attribute [(name, val)] s)
      with (bindR (add_attribute s (name, val)) Ok) in H.
    apply bindR_Ok in H as (r1 & H1 & [= <-]).
    unfold append_attribute in H1.
    apply bindR_Ok in H1 as (v & _ & [= <-]).
    exists (_add_indent v (Z.of_nat (String.length name) + 1)).
    reflexivity.
  - change (foldR add_attribute ((name, val) :: b :: attrs) s)
      with (bindR (add_attribute s (name, val))
              (foldR add_attribute (b :: attrs))) in H.
    apply bindR_Ok in H as (r1 & H1 & H).
    unfold append_attribute in H1.
    apply bindR_Ok in H1 as (v & _ & [= <-]).
    apply IH in H as (t & ->).
    exists (String.append (_add_indent v (Z.of_nat (String.length name) + 1))
           (String.append "," (String.append (String newline (spaces 10))
           (String.append (fst b) (String.append "=" t))))).
    cbn [fst]. rewrite !str_app_assoc. simpl. rewrite !str_app_assoc.
    reflexivity.
Qed.


(** X14. The frame of the text: when [_minibatch_str] returns, the text
    starts with "MiniBatch(seed_nodes=", the attributes going from the last
    name to the first, and ends with a comma, a newline, seven blanks and
    the closing bracket, what the slice leaves of the tail of the last
    round. *)
Theorem minibatch_str_frame (mb : MiniBatch.t) text :
  _minibatch_str str_ids str_pairs str_features mb = Ok text ->
  exists body,
    text = String.append "MiniBatch(seed_nodes="
             (String.append body
             (String.append "," (String newline "       )"))).
Proof.
  unfold _minibatch_str. intros H.
  apply bindR_Ok in H as (final_str & Hfold & [= <-]).
  simpl rev in Hfold.
  apply foldR_add_attribute_shape in Hfold as (t & ->).
  exists t. simpl fst.
  replace (String.append ""
             (String.append "seed_nodes"
             (String.append "="
             (String.append t
             (String.append "," (String newline (blanks 10)))))))
    with (String.append
            (String.append "seed_nodes="
               (String.append t
                  (String.append "," (String newline (blanks 7)))))
            (blanks 3)).
  - rewrite (drop_last_app _ (blanks 3)).
    rewrite !str_app_assoc. reflexivity.
  - rewrite !str_app_assoc. reflexivity.
Qed.

End MiniBatchStrFacts.

Lemma minibatch_str_frame_witness :
  exists text body,
    _minibatch_str Example.str_ids Example.str_pairs Example.str_features
      Example.minibatch2 = Ok text /\
    text = String.append "MiniBatch(seed_nodes="
             (String.append body
             (String.append "," (String newline "       )"))).
Proof.
  destruct (_minibatch_str Example.str_ids Example.str_pairs
              Example.str_features Example.minibatch2) as [text|e] eqn:Hs.
  - destruct (minibatch_str_frame _ _ _ _ _ Hs) as [body Hbody].
    exists text, body. auto.
  - exfalso. vm_compute in Hs. discriminate.
Defined.

Lemma minibatch_str_raises_witness :
  _minibatch_str Example.str_ids Example.str_pairs Example.str_features
    (Example.minibatch_of (Some []) None None) = Raise IndexError.
Proof.
  pose proof (minibatch_str_raises Example.str_ids Example.str_pairs
                Example.str_features
                (Example.minibatch_of (Some []) None None)) as H.
  destruct (_minibatch_str Example.str_ids Example.str_pairs
              Example.str_features (Example.minibatch_of (Some []) None None))
    as [text|e].
  - destruct H as [H _]. exfalso. apply H. reflexivity.
  - destruct H as [-> _]. reflexivity.
Defined.

(** ** The further properties on the concrete graph *)

Lemma sampler_layers_as_fanouts_given_witness :
  exists self seeds' subgraphs st',
    LayerNeighborSampler_init tt Example.csc_graph
      [FanoutInt 1; FanoutTensor [2]] false None = Ok self /\
    _sample_subgraphs Example.unique_and_compact_node_pairs self (T [0])
      Example.start = (Ok (seeds', subgraphs), st') /\
    length subgraphs = 2%nat.
Proof.
  destruct (LayerNeighborSampler_init tt Example.csc_graph
              [FanoutInt 1; FanoutTensor [2]] false None)
    as [self|e] eqn:Hinit; [|discriminate].
  destruct (_sample_subgraphs Example.unique_and_compact_node_pairs self
              (T [0]) Example.start)
    as [[[seeds' subgraphs]|e] st'] eqn:Hrun.
  - exists self, seeds', subgraphs, st'.
    split; [reflexivity|]. split; [exact Hrun|].
    apply (sampler_layers_as_fanouts_given
             Example.unique_and_compact_node_pairs tt Example.csc_graph
             [FanoutInt 1; FanoutTensor [2]] false None self (T [0])
             Example.start seeds' subgraphs st');
      [right; exact Hinit | exact Hrun].
  - exfalso. injection Hinit as <-. vm_compute in Hrun. discriminate.
Defined.

Lemma sample_subgraphs_layers_ids_witness :
  exists seeds' subgraphs st',
    _sample_subgraphs Example.unique_and_compact_node_pairs
      Example.neighbor_sampler (T [0]) Example.start
    = (Ok (seeds', subgraphs), st') /\
    Forall (fun layer =>
              (exists col, layer.(original_column_node_ids) = Some col) /\
              (exists row, layer.(original_row_node_ids) = Some row) /\
              layer.(original_edge_ids) = None) subgraphs.
Proof.
  destruct (_sample_subgraphs Example.unique_and_compact_node_pairs
              Example.neighbor_sampler (T [0]) Example.start)
    as [[[seeds' subgraphs]|e] st'] eqn:Hrun.
  - exists seeds', subgraphs, st'. split; [reflexivity|].
    exact (sample_subgraphs_layers_ids _ _ _ _ _ _ _ Hrun).
  - exfalso. vm_compute in Hrun. discriminate.
Defined.

Lemma typed_sampler_types_NoDup :
  NoDup (dict_keys
           (node_type_to_id (metadata (graph Example.typed_sampler)))).
Proof.
  change (NoDup ["user"; "item"]).
  repeat constructor; rewrite ?list_elem_of_In; simpl; intros H;
    repeat destruct H as [H|H]; try discriminate; exact H.
Qed.

Lemma enrich_seeds_idempotent_witness :
  enrich_seeds Example.typed_sampler
    (enrich_seeds Example.typed_sampler (D [("item", [3])]))
  = enrich_seeds Example.typed_sampler (D [("item", [3])]) /\
  _sample_subgraphs Example.unique_and_compact_node_pairs
    Example.typed_sampler
    (enrich_seeds Example.typed_sampler (D [("item", [3])])) Example.start
  = _sample_subgraphs Example.unique_and_compact_node_pairs
      Example.typed_sampler (D [("item", [3])]) Example.start.
Proof.
  apply (enrich_seeds_idempotent Example.unique_and_compact_node_pairs
           Example.typed_sampler (D [("item", [3])]) Example.start).
  exact typed_sampler_types_NoDup.
Defined.

Lemma sample_subgraphs_declared_types_only_witness :
  _sample_subgraphs Example.unique_and_compact_node_pairs
    Example.typed_sampler (D [("item", [3]); ("other", [9])]) Example.start
  = _sample_subgraphs Example.unique_and_compact_node_pairs
      Example.typed_sampler (D [("ghost", [1]); ("item", [3])])
      Example.start.
Proof.
  apply (sample_subgraphs_declared_types_only
           Example.unique_and_compact_node_pairs Example.typed_sampler
           [("item", [3]); ("other", [9])] [("ghost", [1]); ("item", [3])]
           Example.start).
  intros ntype Hin. simpl in Hin.
  destruct Hin as [<-|[<-|[]]]; reflexivity.
Defined.

Lemma to_dgl_blocks_None_only_without_layers_witness :
  exists blocks,
    Example.to_dgl_blocks Example.minibatch2
    = (Ok (Some blocks), Example.minibatch2) /\
    blocks <> [] /\ length blocks = 2%nat.
Proof.
  destruct (Example.to_dgl_blocks Example.minibatch2)
    as [[[blocks|]|e] mb'] eqn:Hrun;
    [| exfalso; vm_compute in Hrun; discriminate
     | exfalso; vm_compute in Hrun; discriminate].
  assert (Hmb : mb' = Example.minibatch2).
  { pose proof Hrun as Hrun'. vm_compute in Hrun'.
    injection Hrun' as _ <-. reflexivity. }
  subst mb'.
  destruct (to_dgl_blocks_None_only_without_layers Example.etype_str_to_tuple
              "_ID" "_ID" Example.Tensor_bool Example.minibatch2
              Example.minibatch2) as [_ Hsome].
  destruct (Hsome blocks Hrun) as (Hne & layers & Hl & Hlen).
  injection Hl as <-.
  exists blocks. split; [reflexivity|]. split; [exact Hne | exact Hlen].
Defined.

Lemma to_dgl_blocks_reverse_ids_witness :
  exists blocks mb' b0,
    Example.to_dgl_blocks Example.minibatch_shadowed
    = (Ok (Some blocks), mb') /\
    blocks !! 0%nat = Some b0 /\
    dict_get (Name "_ID") b0.(srcdata) = Some (T [0; 3; 5]) /\
    dict_get (Name "_ID") b0.(edata) = Some (T [2; 3; 4]).
Proof.
  destruct (Example.to_dgl_blocks Example.minibatch_shadowed)
    as [[[blocks|]|e] mb'] eqn:Hrun;
    [| exfalso; vm_compute in Hrun; discriminate
     | exfalso; vm_compute in Hrun; discriminate].
  destruct (to_dgl_blocks_reverse_ids Example.etype_str_to_tuple "_ID" "_ID"
              Example.Tensor_bool Example.minibatch_shadowed mb' blocks
              Example.layers2 Hrun eq_refl eq_refl)
    as [(first & ids & b0 & Hfirst & Hids & Hb0 & Hsrc) Hedges].
  injection Hfirst as <-. injection Hids as <-.
  destruct (Hedges 0%nat _ (T [2; 3; 4]) eq_refl eq_refl)
    as (block & Hblock & He).
  rewrite Hb0 in Hblock. injection Hblock as <-.
  exists blocks, mb', b0. auto.
Defined.

Lemma to_dgl_blocks_typed_reverse_ids_witness :
  exists blocks mb' b0,
    Example.to_dgl_blocks Example.typed_minibatch_shadowed
    = (Ok (Some blocks), mb') /\
    blocks !! 0%nat = Some b0 /\
    dict_get ("user", "_ID") b0.(srcnodes) = Some [3; 4].
Proof.
  destruct (Example.to_dgl_blocks Example.typed_minibatch_shadowed)
    as [[[blocks|]|e] mb'] eqn:Hrun;
    [| exfalso; vm_compute in Hrun; discriminate
     | exfalso; vm_compute in Hrun; discriminate].
  destruct (to_dgl_blocks_typed_reverse_ids Example.etype_str_to_tuple
              "_ID" "_ID" Example.Tensor_bool Example.typed_minibatch_shadowed
              mb' blocks Example.typed_layers Hrun eq_refl eq_refl)
    as (first & ids & b0 & Hfirst & Hids & Hb0 & Hget).
  injection Hfirst as <-. injection Hids as <-.
  exists blocks, mb', b0. split; [reflexivity|]. split; [exact Hb0|].
  apply Hget; [exact typed_sampler_types_NoDup | left; reflexivity].
Defined.

Lemma sampled_minibatch_blocks_chain_witness :
  exists mb st' blocks mb' b0 b,
    sample_minibatch Example.unique_and_compact_node_pairs
      Example.neighbor_sampler Example.minibatch (T [0]) Example.start
    = (Ok mb, st') /\
    Example.to_dgl_blocks mb = (Ok (Some blocks), mb') /\
    length blocks = 3%nat /\
    blocks !! 0%nat = Some b0 /\
    dict_get (Name "_ID") b0.(srcdata) = MiniBatch.input_nodes mb /\
    last blocks = Some b /\
    b.(num_dst_nodes) = NumInt 1.
Proof.
  destruct (sample_minibatch Example.unique_and_compact_node_pairs
              Example.neighbor_sampler Example.minibatch (T [0])
              Example.start) as [[mb|e] st'] eqn:Hrun;
    [| exfalso; vm_compute in Hrun; discriminate].
  destruct (Example.to_dgl_blocks mb) as [[[blocks|]|e] mb'] eqn:Hblocks;
    [| exfalso; vm_compute in Hrun; injection Hrun as <- _;
       vm_compute in Hblocks; discriminate
     | exfalso; vm_compute in Hrun; injection Hrun as <- _;
       vm_compute in Hblocks; discriminate].
  destruct (sampled_minibatch_blocks_chain
              Example.unique_and_compact_node_pairs
              Example.etype_str_to_tuple "_ID" "_ID" Example.Tensor_bool
              Example.neighbor_sampler Example.minibatch [0] Example.start
              mb st' blocks mb' Hrun Hblocks)
    as (Hlen & (b0 & input & Hb0 & Hin & _ & Hsrc) & _ & (b & Hlast & Hdst)).
  exists mb, st', blocks, mb', b0, b.
  split; [reflexivity|]. split; [exact Hblocks|].
  split; [exact Hlen|]. split; [exact Hb0|].
  split; [rewrite Hin; exact Hsrc|]. split; [exact Hlast | exact Hdst].
Defined.
